(** * ThirdTube network stream cache and downloader

    A shallow embedding of [NetworkStream] and [NetworkStreamDownloader]
    (network_downloader.cpp) and of [read_network_stream],
    [seek_network_stream] and the packet conversion of [mvd_decode]
    (network_decoder.cpp), with the properties of the block cache, the
    stream selection, the fetch paths, the read and seek callbacks and the
    conversion.

    Conventions of the embedding:
    - [u64] values are integers of [Z]; every [+], [-] and [*] of the source
      is followed by its reduction modulo 2^64 ([u64]);
    - [double] is IEEE 754 binary64, taken from the Standard Library's
      [SpecFloat] (round to nearest, ties to even);
    - [std::map<u64, std::vector<u8>>] is an association list kept in
      increasing key order, because the source relies on that order:
      [begin()], [std::prev(end())] and iterator increments;
    - an [assert] that fails, or a read outside a vector, is [None]. *)

From Stdlib Require Import ZArith Bool Lia String Ascii List.
From Stdlib Require Import Strings.Byte Floats.SpecFloat Sorting.Sorted.
Import ListNotations.
Local Open Scope Z_scope.

(** ** Machine integers *)

Definition u64 (x : Z) : Z := x mod 2 ^ 64.

(** Conversion of a [u64] to [int64_t] (two's complement). *)
Definition s64_of_u64 (x : Z) : Z :=
  if x mod 2 ^ 64 <? 2 ^ 63 then x mod 2 ^ 64 else x mod 2 ^ 64 - 2 ^ 64.

Definition in_u64 (x : Z) : Prop := 0 <= x < 2 ^ 64.

(** ** Doubles *)

Definition double : Type := spec_float.

(** [(double) z] for an integer [z]. *)
Definition double_of_Z (z : Z) : double := binary_normalize 53 1024 z 0 false.
Definition dmul : double -> double -> double := SFmul 53 1024.
Definition ddiv : double -> double -> double := SFdiv 53 1024.
(** [a > b] on doubles: false as soon as one side is a NaN. *)
Definition dgt (a b : double) : bool := SFltb b a.

(** ** Build-time constants

    [BLOCK_SIZE], [MAX_CACHE_BLOCKS] and [MAX_FORWARD_READ_BLOCKS] are
    declared in network_downloader.hpp; the embedding takes them as
    parameters. *)
Class Constants : Type := {
  BLOCK_SIZE : Z;
  MAX_CACHE_BLOCKS : Z;
  MAX_FORWARD_READ_BLOCKS : Z
}.

(** [strtoll(str, &end, 10)] of the C library: the value read and the
    unread rest of [str]. *)
Class CLibrary : Type := {
  strtoll : string -> Z * string
}.

(** ** std::map<u64, std::vector<u8>> *)

Definition block_map : Type := list (Z * list byte).

Definition keys (m : block_map) : list Z := map fst m.

(** [m.count(k)], as a truth value. *)
Fixpoint map_count (k : Z) (m : block_map) : bool :=
  match m with
  | [] => false
  | (k', _) :: m' => if k' =? k then true else map_count k m'
  end.

(** [m.find(k)]: an iterator is the part of the map from its position on,
    [end()] is the empty list. *)
Fixpoint map_find (k : Z) (m : block_map) : block_map :=
  match m with
  | [] => []
  | (k', v) :: m' => if k' =? k then m else map_find k m'
  end.

(** [m[k] = v]. *)
Fixpoint map_assign (k : Z) (v : list byte) (m : block_map) : block_map :=
  match m with
  | [] => [(k, v)]
  | (k', v') :: m' =>
      if k <? k' then (k, v) :: m
      else if k =? k' then (k, v) :: m'
      else (k', v') :: map_assign k v m'
  end.

Definition map_size (m : block_map) : Z := Z.of_nat (length m).

(** [m.erase(m.begin())] and [m.erase(std::prev(m.end()))]. *)
Definition erase_begin (m : block_map) : block_map := tl m.
Definition erase_last (m : block_map) : block_map := removelast m.

(** [m.begin()->first] and [std::prev(m.end())->first] of a non-empty map. *)
Definition first_key (m : block_map) : option Z :=
  match m with
  | [] => None
  | (k, _) :: _ => Some k
  end.

Fixpoint last_key (m : block_map) : option Z :=
  match m with
  | [] => None
  | [(k, _)] => Some k
  | _ :: m' => last_key m'
  end.

(** The map invariant of [std::map]: strictly increasing keys. *)
Definition ordered (m : block_map) : Prop := StronglySorted Z.lt (keys m).

(** The value stored under [k], if any. *)
Fixpoint map_lookup (k : Z) (m : block_map) : option (list byte) :=
  match m with
  | [] => None
  | (k', v) :: m' => if k' =? k then Some v else map_lookup k m'
  end.

(** ** std::vector<u8> *)

Definition vector_size (v : list byte) : Z := Z.of_nat (length v).

(** [std::vector<u8>(v.begin() + l, v.begin() + r)] for [l <= r <= v.size()]. *)
Definition subvector (v : list byte) (l r : Z) : list byte :=
  firstn (Z.to_nat (r - l)) (skipn (Z.to_nat l) v).

(** The same range handed to [insert]: undefined unless
    [l <= r <= v.size()]. *)
Definition slice (v : list byte) (l r : Z) : option (list byte) :=
  if (0 <=? l) && (l <=? r) && (r <=? vector_size v)
  then Some (subvector v l r)
  else None.

(** ** NetworkStream *)

Record NetworkStream : Type := mkNetworkStream {
  url : string;
  whole_download : bool;
  read_head : Z;
  len : Z;
  block_num : Z;
  ready : bool;
  error : bool;
  quit_request : bool;
  suspend_request : bool;
  livestream_eof : bool;
  livestream_private : bool;
  seq_head : Z;
  seq_id : Z;
  downloaded_data : block_map;
  network_waiting_status : option string
}.


Definition set_url (v : string) (s : NetworkStream) : NetworkStream :=
  {| url := v; whole_download := whole_download s; read_head := read_head s;
     len := len s; block_num := block_num s; ready := ready s; error := error s;
     quit_request := quit_request s; suspend_request := suspend_request s;
     livestream_eof := livestream_eof s;
     livestream_private := livestream_private s; seq_head := seq_head s;
     seq_id := seq_id s; downloaded_data := downloaded_data s;
     network_waiting_status := network_waiting_status s |}.

Definition set_read_head (v : Z) (s : NetworkStream) : NetworkStream :=
  {| url := url s; whole_download := whole_download s; read_head := v;
     len := len s; block_num := block_num s; ready := ready s; error := error s;
     quit_request := quit_request s; suspend_request := suspend_request s;
     livestream_eof := livestream_eof s;
     livestream_private := livestream_private s; seq_head := seq_head s;
     seq_id := seq_id s; downloaded_data := downloaded_data s;
     network_waiting_status := network_waiting_status s |}.

Definition set_len (v : Z) (s : NetworkStream) : NetworkStream :=
  {| url := url s; whole_download := whole_download s; read_head := read_head s;
     len := v; block_num := block_num s; ready := ready s; error := error s;
     quit_request := quit_request s; suspend_request := suspend_request s;
     livestream_eof := livestream_eof s;
     livestream_private := livestream_private s; seq_head := seq_head s;
     seq_id := seq_id s; downloaded_data := downloaded_data s;
     network_waiting_status := network_waiting_status s |}.

Definition set_block_num (v : Z) (s : NetworkStream) : NetworkStream :=
  {| url := url s; whole_download := whole_download s; read_head := read_head s;
     len := len s; block_num := v; ready := ready s; error := error s;
     quit_request := quit_request s; suspend_request := suspend_request s;
     livestream_eof := livestream_eof s;
     livestream_private := livestream_private s; seq_head := seq_head s;
     seq_id := seq_id s; downloaded_data := downloaded_data s;
     network_waiting_status := network_waiting_status s |}.

Definition set_ready (v : bool) (s : NetworkStream) : NetworkStream :=
  {| url := url s; whole_download := whole_download s; read_head := read_head s;
     len := len s; block_num := block_num s; ready := v; error := error s;
     quit_request := quit_request s; suspend_request := suspend_request s;
     livestream_eof := livestream_eof s;
     livestream_private := livestream_private s; seq_head := seq_head s;
     seq_id := seq_id s; downloaded_data := downloaded_data s;
     network_waiting_status := network_waiting_status s |}.

Definition set_error (v : bool) (s : NetworkStream) : NetworkStream :=
  {| url := url s; whole_download := whole_download s; read_head := read_head s;
     len := len s; block_num := block_num s; ready := ready s; error := v;
     quit_request := quit_request s; suspend_request := suspend_request s;
     livestream_eof := livestream_eof s;
     livestream_private := livestream_private s; seq_head := seq_head s;
     seq_id := seq_id s; downloaded_data := downloaded_data s;
     network_waiting_status := network_waiting_status s |}.

Definition set_livestream_eof (v : bool) (s : NetworkStream) : NetworkStream :=
  {| url := url s; whole_download := whole_download s; read_head := read_head s;
     len := len s; block_num := block_num s; ready := ready s; error := error s;
     quit_request := quit_request s; suspend_request := suspend_request s;
     livestream_eof := v; livestream_private := livestream_private s;
     seq_head := seq_head s; seq_id := seq_id s;
     downloaded_data := downloaded_data s;
     network_waiting_status := network_waiting_status s |}.

Definition set_livestream_private (v : bool) (s : NetworkStream) : NetworkStream :=
  {| url := url s; whole_download := whole_download s; read_head := read_head s;
     len := len s; block_num := block_num s; ready := ready s; error := error s;
     quit_request := quit_request s; suspend_request := suspend_request s;
     livestream_eof := livestream_eof s; livestream_private := v;
     seq_head := seq_head s; seq_id := seq_id s;
     downloaded_data := downloaded_data s;
     network_waiting_status := network_waiting_status s |}.

Definition set_seq_head (v : Z) (s : NetworkStream) : NetworkStream :=
  {| url := url s; whole_download := whole_download s; read_head := read_head s;
     len := len s; block_num := block_num s; ready := ready s; error := error s;
     quit_request := quit_request s; suspend_request := suspend_request s;
     livestream_eof := livestream_eof s;
     livestream_private := livestream_private s; seq_head := v;
     seq_id := seq_id s; downloaded_data := downloaded_data s;
     network_waiting_status := network_waiting_status s |}.

Definition set_seq_id (v : Z) (s : NetworkStream) : NetworkStream :=
  {| url := url s; whole_download := whole_download s; read_head := read_head s;
     len := len s; block_num := block_num s; ready := ready s; error := error s;
     quit_request := quit_request s; suspend_request := suspend_request s;
     livestream_eof := livestream_eof s;
     livestream_private := livestream_private s; seq_head := seq_head s;
     seq_id := v; downloaded_data := downloaded_data s;
     network_waiting_status := network_waiting_status s |}.

Definition set_downloaded_data (v : block_map) (s : NetworkStream) : NetworkStream :=
  {| url := url s; whole_download := whole_download s; read_head := read_head s;
     len := len s; block_num := block_num s; ready := ready s; error := error s;
     quit_request := quit_request s; suspend_request := suspend_request s;
     livestream_eof := livestream_eof s;
     livestream_private := livestream_private s; seq_head := seq_head s;
     seq_id := seq_id s; downloaded_data := v;
     network_waiting_status := network_waiting_status s |}.

Definition set_network_waiting_status (v : option string) (s : NetworkStream) : NetworkStream :=
  {| url := url s; whole_download := whole_download s; read_head := read_head s;
     len := len s; block_num := block_num s; ready := ready s; error := error s;
     quit_request := quit_request s; suspend_request := suspend_request s;
     livestream_eof := livestream_eof s;
     livestream_private := livestream_private s; seq_head := seq_head s;
     seq_id := seq_id s; downloaded_data := downloaded_data s;
     network_waiting_status := v |}.

(** ** The HTTP client's result (network_io.hpp)

    [get_header] is the lookup of a response header by name; [error], the
    text that only goes to the log, is left out. *)
Record HttpResult : Type := mkHttpResult {
  fail : bool;
  status_code : Z;
  data : list byte;
  redirected_url : string;
  get_header : string -> string
}.

(** Modelled from the spec: [status_code_is_success] is declared in
    network_io.hpp, which is not among the sources at hand ("Success
    codes: any 2xx"). *)
Definition status_code_is_success (r : HttpResult) : bool :=
  status_code r / 100 =? 2.

(** Modelled from the spec: the status code constants of network_io.hpp
    ("204 No Content", "403 Forbidden", "404 Not Found"). *)
Definition HTTP_STATUS_CODE_NO_CONTENT : Z := 204.
(** Modelled from the spec: see [HTTP_STATUS_CODE_NO_CONTENT]. *)
Definition HTTP_STATUS_CODE_FORBIDDEN : Z := 403.
(** Modelled from the spec: see [HTTP_STATUS_CODE_NO_CONTENT]. *)
Definition HTTP_STATUS_CODE_NOT_FOUND : Z := 404.

(** [Access_http_get(session, url, headers)]: the URL and, for a ranged
    request, the two bounds of ["Range: bytes=<first>-<last>"]. *)
Definition HttpClient : Type := string -> option (Z * Z) -> HttpResult.

(** [strchr(str, '/') + 1], or [None] for a null pointer. *)
Fixpoint after_slash (str : string) : option string :=
  match str with
  | EmptyString => None
  | String c rest =>
      if Ascii.eqb c "/"%char then Some rest else after_slash rest
  end.

Definition is_empty (str : string) : bool :=
  match str with
  | EmptyString => true
  | String _ _ => false
  end.

(** [whence] of a seek request (stdio.h and libavformat/avio.h). *)
Definition SEEK_SET : Z := 0.
Definition SEEK_CUR : Z := 1.
Definition SEEK_END : Z := 2.
Definition AVSEEK_SIZE : Z := 65536.

(** The operations on a stream that bear on its cache. *)
Inductive CacheOp : Type :=
| Insert (block : Z) (bytes : list byte)
| MoveReadHead (pos : Z).

(** The bytes of the last insertion of block [j] in a run. *)
Fixpoint last_insert (j : Z) (ops : list CacheOp) : option (list byte) :=
  match ops with
  | [] => None
  | op :: ops' =>
      match last_insert j ops' with
      | Some bytes => Some bytes
      | None =>
          match op with
          | Insert block bytes => if block =? j then Some bytes else None
          | MoveReadHead _ => None
          end
      end
  end.

(** What the selection loop does with one slot that holds a stream. *)
Inductive SlotVerdict : Type :=
| Reap                         (* quit_request: delete the stream *)
| Skip                         (* continue *)
| TakeNow                      (* not ready: select it and break *)
| Candidate (margin : double). (* compare its margin with the minimum *)

Section Model.
Context {C : Constants} {L : CLibrary}.

(** *** The block cache (NetworkStream's methods) *)

(** The [for] loop of [is_data_available].  It leaves at the first block
    that is not resident, and the blocks it visits are pairwise distinct,
    so its body runs at most [size() + 1] times; [passes] is that bound
    ([resident_loop_exact] shows that it is never used up). *)
Fixpoint resident_loop (passes : nat) (m : block_map) (block end_block : Z)
  : bool :=
  match passes with
  | O => true
  | S passes' =>
      if block <=? end_block then
        if negb (map_count block m) then false
        else resident_loop passes' m (u64 (block + 1)) end_block
      else true
  end.

Definition is_data_available (s : NetworkStream) (start size : Z) : bool :=
  if negb (ready s) then false
  else if len s <? u64 (start + size) then false
  else
    let end_ := u64 (start + size - 1) in
    let start_block := start / BLOCK_SIZE in
    let end_block := end_ / BLOCK_SIZE in
    resident_loop (S (length (downloaded_data s))) (downloaded_data s)
                  start_block end_block.

(** The [for] loop of [get_data]; [itr] is consumed by [itr++]. *)
Fixpoint get_data_loop (itr : block_map) (block end_block start end_ : Z)
  : option (list byte) :=
  if block <=? end_block then
    match itr with
    | [] => None
    | (k, v) :: itr' =>
        if k =? block then
          let cur_l :=
            u64 (Z.max start (u64 (block * BLOCK_SIZE))
                 - u64 (block * BLOCK_SIZE)) in
          let cur_r :=
            u64 (Z.min (u64 (end_ + 1)) (u64 ((block + 1) * BLOCK_SIZE))
                 - u64 (block * BLOCK_SIZE)) in
          match slice v cur_l cur_r with
          | None => None
          | Some part =>
              match get_data_loop itr' (u64 (block + 1)) end_block start end_
              with
              | None => None
              | Some rest => Some (part ++ rest)
              end
          end
        else None
    end
  else Some [].

Definition get_data (s : NetworkStream) (start size : Z)
  : option (list byte) :=
  if negb (ready s) then Some []
  else if size =? 0 then Some []
  else
    let end_ := u64 (start + size - 1) in
    let start_block := start / BLOCK_SIZE in
    let end_block := end_ / BLOCK_SIZE in
    match map_find start_block (downloaded_data s) with
    | [] => None
    | itr => get_data_loop itr start_block end_block start end_
    end.

Definition set_data (block : Z) (data : list byte) (s : NetworkStream)
  : NetworkStream :=
  let m := map_assign block data (downloaded_data s) in
  if MAX_CACHE_BLOCKS <? map_size m then
    let read_head_block := read_head s / BLOCK_SIZE in
    match first_key m with
    | Some k =>
        if k <? read_head_block
        then set_downloaded_data (erase_begin m) s
        else set_downloaded_data (erase_last m) s
    | None => set_downloaded_data m s
    end
  else set_downloaded_data m s.

(** A run of the cache: the downloader stores blocks, the reader moves the
    read head in between. *)
Definition apply_op (s : NetworkStream) (op : CacheOp) : NetworkStream :=
  match op with
  | Insert block bytes => set_data block bytes s
  | MoveReadHead pos => set_read_head pos s
  end.

Definition run_ops (ops : list CacheOp) (s : NetworkStream) : NetworkStream :=
  fold_left apply_op ops s.

(** An inserted block has the length of its byte range in a resource of
    [total] bytes: [BLOCK_SIZE], or what is left for the final block. *)
Definition well_sized (total : Z) (op : CacheOp) : Prop :=
  match op with
  | Insert block bytes =>
      0 <= block
      /\ vector_size bytes = Z.min BLOCK_SIZE (total - block * BLOCK_SIZE)
  | MoveReadHead _ => True
  end.

Definition get_download_percentage (s : NetworkStream) : double :=
  dmul (ddiv (dmul (double_of_Z (map_size (downloaded_data s)))
                   (double_of_Z BLOCK_SIZE))
             (double_of_Z (len s)))
       (double_of_Z 100).

(** *** NetworkStreamDownloader: the stream selection *)

(** The [while] loop that looks for the first block, from the read head on,
    that is not downloaded; every pass but the last finds a resident block,
    so [size() + 1] passes are enough
    ([first_not_downloaded_loop_stops]). *)
Fixpoint first_not_downloaded_loop (passes : nat) (m : block_map)
    (block_num_ read_head_block first_not_downloaded_block : Z) : Z :=
  match passes with
  | O => first_not_downloaded_block
  | S passes' =>
      if (first_not_downloaded_block <? block_num_)
         && map_count first_not_downloaded_block m then
        let next := u64 (first_not_downloaded_block + 1) in
        if next =? u64 (read_head_block + MAX_FORWARD_READ_BLOCKS) then next
        else first_not_downloaded_loop passes' m block_num_ read_head_block
                                       next
      else first_not_downloaded_block
  end.

Definition first_not_downloaded (s : NetworkStream) (read_head_block : Z)
  : Z :=
  first_not_downloaded_loop (S (length (downloaded_data s)))
    (downloaded_data s) (block_num s) read_head_block read_head_block.

Definition margin_percentage (s : NetworkStream)
    (read_head_i read_head_block first_not_downloaded_block : Z) : double :=
  if first_not_downloaded_block =? read_head_block then double_of_Z 0
  else dmul (ddiv (double_of_Z
                     (u64 (first_not_downloaded_block * BLOCK_SIZE
                           - read_head_i)))
                  (double_of_Z (len s)))
            (double_of_Z 100).

(** The body of the selection loop for a slot that holds [s], whose read
    head was backed up as [read_head_i]. *)
Definition examine (s : NetworkStream) (read_head_i : Z) : SlotVerdict :=
  if quit_request s then Reap
  else if error s then Skip
  else if suspend_request s then Skip
  else if negb (ready s) then TakeNow
  else if whole_download s then Skip
  else
    let read_head_block := read_head_i / BLOCK_SIZE in
    let first_not_downloaded_block := first_not_downloaded s read_head_block in
    if first_not_downloaded_block =? block_num s then Skip
    else if first_not_downloaded_block
            =? u64 (read_head_block + MAX_FORWARD_READ_BLOCKS) then Skip
    else Candidate (margin_percentage s read_head_i read_head_block
                                      first_not_downloaded_block).

(** [for (size_t i = 0; i < streams.size(); i++)]: the slots from [i] on,
    with their backed-up read heads; the result is the slots after the
    loop and [cur_stream_index] ([None] for [(size_t) -1]). *)
Fixpoint select_loop (i : nat) (slots : list (option NetworkStream))
    (read_heads : list Z) (margin_percentage_min : double)
    (cur_stream_index : option nat)
  : list (option NetworkStream) * option nat :=
  match slots with
  | [] => ([], cur_stream_index)
  | None :: slots' =>
      let (after, cur) :=
        select_loop (S i) slots' (tl read_heads) margin_percentage_min
                    cur_stream_index in
      (None :: after, cur)
  | Some s :: slots' =>
      match examine s (hd 0 read_heads) with
      | Reap =>
          let (after, cur) :=
            select_loop (S i) slots' (tl read_heads) margin_percentage_min
                        cur_stream_index in
          (None :: after, cur)
      | Skip =>
          let (after, cur) :=
            select_loop (S i) slots' (tl read_heads) margin_percentage_min
                        cur_stream_index in
          (Some s :: after, cur)
      | TakeNow => (Some s :: slots', Some i)
      | Candidate margin =>
          let (after, cur) :=
            if dgt margin_percentage_min margin
            then select_loop (S i) slots' (tl read_heads) margin (Some i)
            else select_loop (S i) slots' (tl read_heads)
                             margin_percentage_min cur_stream_index in
          (Some s :: after, cur)
      end
  end.

(** The backup of the read heads taken before the selection. *)
Definition backup_read_heads (streams : list (option NetworkStream))
  : list Z :=
  map (fun slot => match slot with
                   | Some s => read_head s
                   | None => 0
                   end) streams.

Definition select_stream (streams : list (option NetworkStream))
  : list (option NetworkStream) * option nat :=
  select_loop 0 streams (backup_read_heads streams) (double_of_Z 1000) None.

(** *** NetworkStreamDownloader: the whole download *)

(** The loop that cuts the body into blocks; [i] advances by [BLOCK_SIZE],
    so [data.size()] passes are enough for a positive block size. *)
Fixpoint store_blocks (passes : nat) (i : Z) (body : list byte)
    (s : NetworkStream) : NetworkStream :=
  match passes with
  | O => s
  | S passes' =>
      if i <? vector_size body then
        let left := i in
        let right := Z.min (i + BLOCK_SIZE) (vector_size body) in
        store_blocks passes' (i + BLOCK_SIZE) body
                     (set_data (i / BLOCK_SIZE) (subvector body left right) s)
      else s
  end.

Definition whole_download_fetch (net : HttpClient) (s : NetworkStream)
  : NetworkStream :=
  let result := net (url s) None in
  let s := set_url (redirected_url result) s in
  if negb (fail result) && status_code_is_success result
     && negb (vector_size (data result) =? 0) then
    let value := get_header result "x-head-seqnum" in
    let s := set_seq_head (fst (strtoll value)) s in
    let s :=
      if negb (is_empty (snd (strtoll value))) || is_empty value
      then set_error true (set_seq_head (-1) s) else s in
    let value := get_header result "x-sequence-num" in
    let s := set_seq_id (fst (strtoll value)) s in
    let s :=
      if negb (is_empty (snd (strtoll value))) || is_empty value
      then set_error true (set_seq_id (-1) s) else s in
    if negb (error s) then
      let s := set_len (vector_size (data result)) s in
      let s := set_block_num (u64 (len s + BLOCK_SIZE - 1) / BLOCK_SIZE) s in
      let s := store_blocks (length (data result)) 0 (data result) s in
      set_ready true s
    else s
  else
    let s := set_error true s in
    if (status_code result =? HTTP_STATUS_CODE_NO_CONTENT)
       || (status_code result =? HTTP_STATUS_CODE_NOT_FOUND)
    then set_livestream_eof true s
    else if status_code result =? HTTP_STATUS_CODE_FORBIDDEN
    then set_livestream_private true s
    else s.

(** *** NetworkStreamDownloader: the download of one block *)

(** [while (block_reading < block_num && count(block_reading))
    block_reading++;] with the same bound on the passes. *)
Fixpoint block_reading_loop (passes : nat) (m : block_map)
    (block_num_ block_reading : Z) : Z :=
  match passes with
  | O => block_reading
  | S passes' =>
      if (block_reading <? block_num_) && map_count block_reading m
      then block_reading_loop passes' m block_num_ (u64 (block_reading + 1))
      else block_reading
  end.

(** The block to read, or [None] on "trying to read beyond the end of the
    stream". *)
Definition block_to_read (s : NetworkStream) (read_head_i : Z) : option Z :=
  let block_reading := read_head_i / BLOCK_SIZE in
  if ready s then
    let block_reading :=
      block_reading_loop (S (length (downloaded_data s))) (downloaded_data s)
                         (block_num s) block_reading in
    if block_reading =? block_num s then None else Some block_reading
  else Some block_reading.

(** The reading of ["Content-Range"] on the first answer. *)
Definition read_content_range (result : HttpResult) (s : NetworkStream)
  : NetworkStream :=
  match after_slash (get_header result "Content-Range") with
  | Some total =>
      let s := set_len (u64 (fst (strtoll total))) s in
      if is_empty (snd (strtoll total))
      then set_block_num (u64 (len s + BLOCK_SIZE - 1) / BLOCK_SIZE) s
      else set_error true s
  | None => set_error true s
  end.

Definition ranged_fetch (net : HttpClient) (s : NetworkStream)
    (read_head_i : Z) : NetworkStream :=
  match block_to_read s read_head_i with
  | None => set_error true s
  | Some block_reading =>
      let start := u64 (block_reading * BLOCK_SIZE) in
      let end_ :=
        if ready s
        then Z.min (u64 ((block_reading + 1) * BLOCK_SIZE)) (len s)
        else u64 ((block_reading + 1) * BLOCK_SIZE) in
      let expected_len := u64 (end_ - start) in
      let result := net (url s) (Some (start, u64 (end_ - 1))) in
      let s := set_url (redirected_url result) s in
      if negb (fail result) then
        let s := if negb (ready s) then read_content_range result s else s in
        if ready s && negb (vector_size (data result) =? expected_len)
        then set_error true s
        else set_ready true (set_data block_reading (data result) s)
      else set_error true s
  end.

(** *** NetworkStreamDownloader: one pass of the thread's loop *)

Fixpoint store_slot (i : nat) (s : NetworkStream)
    (streams : list (option NetworkStream)) : list (option NetworkStream) :=
  match streams, i with
  | [], _ => []
  | _ :: streams', O => Some s :: streams'
  | slot :: streams', S i' => slot :: store_slot i' s streams'
  end.

Definition downloader_iteration (net : HttpClient)
    (streams : list (option NetworkStream)) : list (option NetworkStream) :=
  let read_heads := backup_read_heads streams in
  let (streams, cur_stream_index) :=
    select_loop 0 streams read_heads (double_of_Z 1000) None in
  match cur_stream_index with
  | None => streams
  | Some index =>
      match nth index streams None with
      | None => streams
      | Some cur_stream =>
          if whole_download cur_stream
          then store_slot index (whole_download_fetch net cur_stream) streams
          else store_slot index
                 (ranged_fetch net cur_stream (nth index read_heads 0))
                 streams
      end
  end.

(** *** seek_network_stream (network_decoder.cpp)

    The wait for [ready] depends on the downloader thread: on a stream that
    is not ready the call returns -1 once [error] or [quit_request] is set
    and is still waiting ([None]) otherwise. *)
Definition seek_network_stream (s : NetworkStream) (offset whence : Z)
  : option (Z * NetworkStream) :=
  if negb (ready s) then
    if error s || quit_request s
    then Some (-1, set_network_waiting_status None s)
    else None
  else
    let s := set_network_waiting_status None s in
    if whence =? AVSEEK_SIZE then Some (s64_of_u64 (len s), s)
    else
      let new_pos :=
        if whence =? SEEK_SET then u64 offset
        else if whence =? SEEK_CUR then u64 (read_head s + offset)
        else if whence =? SEEK_END then u64 (len s + offset)
        else 0 in
      if len s <? new_pos then Some (-1, s)
      else
        let s := set_read_head new_pos s in
        Some (s64_of_u64 (read_head s), s).

End Model.

(** * The rest of the downloader and the reader *)

(** ** NetworkStreamDownloader::add_stream *)

(** The [for] loop of [add_stream]: the slots once [stream] sits in the
    first free one, or [None] when no slot is free ([index] is still
    [(size_t) -1]). *)
Fixpoint add_stream_loop (stream : NetworkStream)
    (streams : list (option NetworkStream))
  : option (list (option NetworkStream)) :=
  match streams with
  | [] => None
  | None :: streams' => Some (Some stream :: streams')
  | Some s :: streams' =>
      match add_stream_loop stream streams' with
      | Some placed => Some (Some s :: placed)
      | None => None
      end
  end.

Definition add_stream (stream : NetworkStream)
    (streams : list (option NetworkStream)) : list (option NetworkStream) :=
  match add_stream_loop stream streams with
  | Some placed => placed
  | None => streams ++ [Some stream]
  end.

(** ** read_network_stream (network_decoder.cpp) *)

(** The two fields of [NetworkDecoder] that the read callback uses. *)
Record NetworkDecoder : Type := mkNetworkDecoder {
  interrupt : bool;
  need_reinit : bool
}.

Definition set_need_reinit (v : bool) (d : NetworkDecoder) : NetworkDecoder :=
  {| interrupt := interrupt d; need_reinit := v |}.

(** [AVERROR_EOF] of libavutil/error.h: [-MKTAG('E', 'O', 'F', ' ')]. *)
Definition AVERROR_EOF : Z := -541478725.

(** [size_t] has 32 bits on the target (ARM11): the conversion of an [int]
    to [size_t] and of a [size_t] to [int]. *)
Definition size_t_of_int (n : Z) : Z := n mod 2 ^ 32.

Definition int_of_size_t (n : Z) : Z :=
  if n mod 2 ^ 32 <? 2 ^ 31 then n mod 2 ^ 32 else n mod 2 ^ 32 - 2 ^ 32.

(** What a call of [read_network_stream] comes to: it returns a value,
    with the bytes copied into [buf], or it sleeps and tests again, or its
    behaviour is undefined (an assertion of [get_data] fails). *)
Inductive ReadResult : Type :=
| Returned (value : Z) (buf : list byte) (decoder : NetworkDecoder)
           (stream : NetworkStream)
| StillWaiting (stream : NetworkStream)
| Undefined.

Section ReaderModel.
Context {C : Constants}.

(** One round of [read_network_stream] on a stream that no other thread
    changes meanwhile: the test of the [while] loop and, when it holds, one
    pass of its body up to the end of the sleep.  [disable_interrupt] is
    the field of that name of the stream, which only this function reads;
    the calls that adjust the CPU limit are left out. *)
Definition read_network_stream (decoder : NetworkDecoder)
    (disable_interrupt : bool) (s : NetworkStream) (buf_size_ : Z)
  : ReadResult :=
  let buf_size := size_t_of_int buf_size_ in
  let wanted := Z.min buf_size (u64 (len s - read_head s)) in
  if negb (ready s) || negb (is_data_available s (read_head s) wanted) then
    if ready s && (len s <=? read_head s)
    then Returned AVERROR_EOF [] decoder (set_network_waiting_status None s)
    else if negb disable_interrupt && interrupt decoder
    then Returned AVERROR_EOF [] (set_need_reinit true decoder)
                  (set_network_waiting_status None s)
    else if error s || quit_request s
    then Returned AVERROR_EOF [] decoder (set_network_waiting_status None s)
    else StillWaiting
           (set_network_waiting_status (Some "Reading stream"%string) s)
  else
    let s := set_network_waiting_status None s in
    match get_data s (read_head s) wanted with
    | None => Undefined
    | Some tmp =>
        let read_size := vector_size tmp in
        let s := set_read_head (u64 (read_head s + read_size)) s in
        if read_size =? 0 then Returned AVERROR_EOF [] decoder s
        else Returned (int_of_size_t read_size) tmp decoder s
    end.

End ReaderModel.

(** ** NetworkStreamDownloader: the end of the thread *)

Definition set_quit_request (v : bool) (s : NetworkStream) : NetworkStream :=
  {| url := url s; whole_download := whole_download s;
     read_head := read_head s; len := len s; block_num := block_num s;
     ready := ready s; error := error s;
     quit_request := v; suspend_request := suspend_request s;
     livestream_eof := livestream_eof s;
     livestream_private := livestream_private s;
     seq_head := seq_head s; seq_id := seq_id s;
     downloaded_data := downloaded_data s;
     network_waiting_status := network_waiting_status s |}.

(** [for (auto stream : streams) if (stream) stream->quit_request = true;]
    at the end of [downloader_thread]. *)
Definition downloader_exit (streams : list (option NetworkStream))
  : list (option NetworkStream) :=
  map (fun slot => match slot with
                   | Some s => Some (set_quit_request true s)
                   | None => None
                   end) streams.

(** ** NetworkDecoder::mvd_decode: the packet for the hardware decoder *)

(** The rounding of the width and of the height to a multiple of 16;
    [%] of C truncates. *)
Definition align_to_16 (n : Z) : Z :=
  if Z.rem n 16 =? 0 then n else n + (16 - Z.rem n 16).

Definition byte_value (b : byte) : Z := Z.of_N (Byte.to_N b).

(** The load of an [int] from the four bytes at a pointer, least
    significant first as the target stores it, and [__builtin_bswap32];
    both on the 32 bits of the value, and the [int] they stand for. *)
Definition load_u32 (b0 b1 b2 b3 : byte) : Z :=
  byte_value b0 + byte_value b1 * 2 ^ 8 + byte_value b2 * 2 ^ 16
  + byte_value b3 * 2 ^ 24.

Definition bswap32 (x : Z) : Z :=
  (x mod 2 ^ 8) * 2 ^ 24 + (x / 2 ^ 8 mod 2 ^ 8) * 2 ^ 16
  + (x / 2 ^ 16 mod 2 ^ 8) * 2 ^ 8 + x / 2 ^ 24 mod 2 ^ 8.

Definition int_of_u32 (x : Z) : Z := if x <? 2 ^ 31 then x else x - 2 ^ 32.

(** What the loop over the NAL units of a packet comes to: the bytes it
    has written at the start of [mvd_packet], or a [memcpy] that reads
    beyond the packet, or a write beyond [mvd_packet], which has the size
    of the packet. *)
Inductive NalResult : Type :=
| Converted (mvd_packet : list byte)
| ReadBeyondPacket
| WriteBeyondBuffer.

(** [while (source_offset + 4 < packet_read->size)]: [data] is the packet,
    [mvd_packet] the [offset] bytes written so far.  A negative [size] is a
    huge [size_t] for [memcpy].  Every pass that returns to the test has
    advanced [source_offset] by 4 at least, so [data.size()] passes are
    enough; the [int] sums do not overflow for a packet of less than
    2^31 - 4 bytes. *)
Fixpoint nal_loop (passes : nat) (data : list byte) (source_offset : Z)
    (mvd_packet : list byte) : NalResult :=
  match passes with
  | O => Converted mvd_packet
  | S passes' =>
      if source_offset + 4 <? vector_size data then
        match subvector data source_offset (source_offset + 4) with
        | [b0; b1; b2; b3] =>
            let size := int_of_u32 (bswap32 (load_u32 b0 b1 b2 b3)) in
            let source_offset := source_offset + 4 in
            if vector_size data <? vector_size mvd_packet + 3
            then WriteBeyondBuffer
            else
              let mvd_packet := mvd_packet ++ [x00; x00; x01] in
              if (size <? 0) || (vector_size data <? source_offset + size)
              then ReadBeyondPacket
              else if vector_size data <? vector_size mvd_packet + size
              then WriteBeyondBuffer
              else
                nal_loop passes' data (source_offset + size)
                  (mvd_packet
                   ++ subvector data source_offset (source_offset + size))
        | _ => ReadBeyondPacket
        end
      else Converted mvd_packet
  end.

(** The packet that [mvd_decode] hands to [mvdstdProcessVideoFrame] for the
    packet [data] (after the parameter sets, when it is the first one). *)
Definition mvd_packet_of (data : list byte) : NalResult :=
  nal_loop (S (length data)) data 0 [].

(** * Vocabulary of the statements *)

(** The number of keys of [m] from [b] on: the measure that bounds the
    passes of the three loops that walk over resident blocks. *)
Definition keys_from (b : Z) (m : block_map) : nat :=
  length (filter (fun k => b <=? k) (keys m)).

(** The block at which the scan from [from] stops: every block before it
    is below [block_num_] and resident, and it is not. *)
Definition stops_at (m : block_map) (block_num_ from r : Z) : Prop :=
  from <= r
  /\ (forall j, from <= j < r -> j < block_num_ /\ map_count j m = true)
  /\ (r < block_num_ /\ map_count r m = true -> False).




(** The position a seek asks for: [offset] for [SEEK_SET],
    [read_head + offset] for [SEEK_CUR] and [len + offset] for
    [SEEK_END]. *)
Definition seek_target (s : NetworkStream) (offset whence : Z) : Z :=
  if whence =? SEEK_SET then offset
  else if whence =? SEEK_CUR then read_head s + offset
  else len s + offset.

Section Vocabulary.
Context {C : Constants}.

(** The verdict of the loop body on slot [j]. *)
Definition verdict_at (slots : list (option NetworkStream)) (j : nat)
    (verdict : SlotVerdict) : Prop :=
  exists s, nth_error slots j = Some (Some s)
            /\ examine s (read_head s) = verdict.


(** The vocabulary of the specification.  A stream is live when the
    selection does not pass over it for a flag; it is initialization-urgent
    when it is live and not ready. *)
Definition live (s : NetworkStream) : Prop :=
  quit_request s = false /\ error s = false /\ suspend_request s = false.

Definition initialization_urgent (s : NetworkStream) : Prop :=
  live s /\ ready s = false.

(** [next_needed s i]: [i] is the smallest block from the cursor block on
    that is not cached, below [block_num] and inside the forward window. *)
Definition next_needed (s : NetworkStream) (i : Z) : Prop :=
  let cursor_block := read_head s / BLOCK_SIZE in
  cursor_block <= i
  /\ map_count i (downloaded_data s) = false
  /\ i < block_num s
  /\ i < cursor_block + MAX_FORWARD_READ_BLOCKS
  /\ forall j, cursor_block <= j < i ->
               map_count j (downloaded_data s) = true.



(** The fields of [s] are [u64] values and its forward window does not
    wrap around. *)
Definition fits_u64 (s : NetworkStream) : Prop :=
  0 <= read_head s
  /\ block_num s < 2 ^ 64
  /\ read_head s / BLOCK_SIZE + MAX_FORWARD_READ_BLOCKS < 2 ^ 64.

(** The read head is not beyond the last block. *)
Definition cursor_within (s : NetworkStream) : Prop :=
  read_head s / BLOCK_SIZE <= block_num s.

End Vocabulary.

Section MoreVocabulary.
Context {C : Constants} {L : CLibrary}.

(** The cache of [s] is sound: its keys increase, and every block has the
    length of its byte range in a resource of [len s] bytes. *)
Definition cache_ok (s : NetworkStream) : Prop :=
  ordered (downloaded_data s)
  /\ forall j v, map_lookup j (downloaded_data s) = Some v ->
                 0 <= j
                 /\ vector_size v
                    = Z.min BLOCK_SIZE (len s - j * BLOCK_SIZE).

(** The bounds [start] and [end - 1] that a ranged download of block [b]
    puts in its ["Range"] header, and the length it expects. *)
Definition ranged_range (s : NetworkStream) (b : Z) : Z * Z :=
  let start := u64 (b * BLOCK_SIZE) in
  let end_ :=
    if ready s then Z.min (u64 ((b + 1) * BLOCK_SIZE)) (len s)
    else u64 ((b + 1) * BLOCK_SIZE) in
  (start, u64 (end_ - 1)).

Definition ranged_expected_len (s : NetworkStream) (b : Z) : Z :=
  let start := u64 (b * BLOCK_SIZE) in
  let end_ :=
    if ready s then Z.min (u64 ((b + 1) * BLOCK_SIZE)) (len s)
    else u64 ((b + 1) * BLOCK_SIZE) in
  u64 (end_ - start).

(** A header value that [strtoll] reads to its end and that is not
    empty. *)
Definition header_ok (value : string) : bool :=
  is_empty (snd (strtoll value)) && negb (is_empty value).

(** The first [k] blocks of a body, as the whole download cuts them. *)
Fixpoint blocks_of (body : list byte) (k : nat) : block_map :=
  match k with
  | O => []
  | S k' =>
      blocks_of body k'
      ++ [(Z.of_nat k',
           subvector body (Z.of_nat k' * BLOCK_SIZE)
             (Z.min (Z.of_nat k' * BLOCK_SIZE + BLOCK_SIZE)
                    (vector_size body)))]
  end.

(** The number of blocks of a body. *)
Definition block_count (body : list byte) : Z :=
  (vector_size body + BLOCK_SIZE - 1) / BLOCK_SIZE.

End MoreVocabulary.

Section AnswerVocabulary.
Context {C : Constants} {L : CLibrary}.

(** An answer that the whole download accepts: no failure, a success
    status, a body, and the two sequence headers readable. *)
Definition answer_ok (result : HttpResult) : Prop :=
  fail result = false
  /\ status_code_is_success result = true
  /\ data result <> []
  /\ header_ok (get_header result "x-head-seqnum") = true
  /\ header_ok (get_header result "x-sequence-num") = true.

End AnswerVocabulary.

Section CheckVocabulary.
Context {C : Constants}.

(** The soundness of a cache, as a test. *)
Fixpoint sortedb (m : block_map) : bool :=
  match m with
  | [] => true
  | (k, _) :: m' => forallb (fun entry => k <? fst entry) m' && sortedb m'
  end.

Definition cache_okb (s : NetworkStream) : bool :=
  sortedb (downloaded_data s)
  && forallb (fun entry =>
                (0 <=? fst entry)
                && (vector_size (snd entry)
                    =? Z.min BLOCK_SIZE (len s - fst entry * BLOCK_SIZE)))
             (downloaded_data s).

End CheckVocabulary.

(** A 32-bit length, most significant byte first. *)
Definition byte_of (n : Z) : byte :=
  match Byte.of_N (Z.to_N (n mod 2 ^ 8)) with
  | Some b => b
  | None => x00
  end.

Definition be32 (n : Z) : list byte :=
  [byte_of (n / 2 ^ 24); byte_of (n / 2 ^ 16); byte_of (n / 2 ^ 8);
   byte_of n].

(** NAL units behind their lengths, as the packets of the demuxer have
    them, and behind start codes, as the hardware decoder takes them. *)
Definition length_prefixed (nals : list (list byte)) : list byte :=
  flat_map (fun nal => be32 (vector_size nal) ++ nal) nals.

Definition start_coded (nals : list (list byte)) : list byte :=
  flat_map (fun nal => [x00; x00; x01] ++ nal) nals.

(** * Sample configurations

    The constants of the scenarios of the specification, a second set with
    blocks of four bytes, and the streams and HTTP clients on which the
    statements below are exercised. *)

Definition spec_constants : Constants := {|
  BLOCK_SIZE := 65536;
  MAX_CACHE_BLOCKS := 4;
  MAX_FORWARD_READ_BLOCKS := 4
|}.

Definition small_constants : Constants := {|
  BLOCK_SIZE := 4;
  MAX_CACHE_BLOCKS := 2;
  MAX_FORWARD_READ_BLOCKS := 2
|}.

(** A [strtoll] for the samples: it reads unsigned decimal digits. *)
Fixpoint read_digits (acc : Z) (str : string) : Z * string :=
  match str with
  | EmptyString => (acc, str)
  | String c rest =>
      let n := Z.of_nat (nat_of_ascii c) in
      if (48 <=? n) && (n <=? 57)
      then read_digits (10 * acc + (n - 48)) rest
      else (acc, str)
  end.

Definition sample_library : CLibrary := {| strtoll := read_digits 0 |}.

(** A block of 65536 bytes and the final block of a resource of 200000
    bytes. *)
Definition full_block : list byte := repeat x00 (Z.to_nat 65536).
Definition short_block : list byte := repeat x00 (Z.to_nat 3392).

(** A stream as it is handed to the downloader: ranged, nothing known. *)
Definition sample_stream : NetworkStream :=
  {| url := "http://origin/video"; whole_download := false; read_head := 0;
     len := 0; block_num := 0; ready := false; error := false;
     quit_request := false; suspend_request := false;
     livestream_eof := false; livestream_private := false;
     seq_head := 0; seq_id := 0; downloaded_data := [];
     network_waiting_status := None |}.

(** A live fragment: the same, fetched in whole mode. *)
Definition sample_fragment : NetworkStream :=
  {| url := "http://origin/live"; whole_download := true; read_head := 0;
     len := 0; block_num := 0; ready := false; error := false;
     quit_request := false; suspend_request := false;
     livestream_eof := false; livestream_private := false;
     seq_head := 0; seq_id := 0; downloaded_data := [];
     network_waiting_status := None |}.

(** A ready stream of [total] bytes with the read head at [pos] and the
    blocks [m] in its cache. *)
Definition ready_stream {C : Constants} (total pos : Z) (m : block_map)
  : NetworkStream :=
  set_ready true
    (set_downloaded_data m
       (set_read_head pos
          (set_block_num ((total + BLOCK_SIZE - 1) / BLOCK_SIZE)
             (set_len total sample_stream)))).

(** A cache at capacity, with the blocks 0 to 3 of a resource of sixteen
    blocks. *)
Definition four_blocks : block_map :=
  [(0, full_block); (1, full_block); (2, full_block); (3, full_block)].

(** A stream that was given up after an error. *)
Definition failed_stream : NetworkStream := set_error true sample_stream.

(** A ready stream of sixteen blocks that has its first two blocks. *)
Definition two_blocks_stream : NetworkStream :=
  ready_stream (C := spec_constants) 1048576 0
    [(0, full_block); (1, full_block)].


(** With blocks of four bytes: a ready stream of ten blocks that has its
    first two blocks and reads in the second one, and slots that hold it. *)
Definition small_ready_stream : NetworkStream :=
  ready_stream (C := small_constants) 40 5
    [(0, [x00; x01; x02; x03]); (1, [x04; x05; x06; x07])].

Definition small_slots : list (option NetworkStream) :=
  [Some small_ready_stream; None; Some failed_stream].



(** An origin that answers every ranged request with the bytes asked for
    and every plain request with an empty body. *)
Definition sample_net : HttpClient :=
  fun _ range =>
    match range with
    | Some (first, last) =>
        {| fail := false; status_code := 206;
           data := repeat x00 (Z.to_nat (last - first + 1));
           redirected_url := "http://origin/video";
           get_header := fun _ => "bytes 0-65535/1048576"%string |}
    | None =>
        {| fail := false; status_code := 200; data := [];
           redirected_url := "http://origin/live";
           get_header := fun _ => ""%string |}
    end.

(** An origin that answers every request with status 404 and a page, and
    does not report a failure of the call. *)
Definition not_found_net : HttpClient :=
  fun _ _ =>
    {| fail := false; status_code := 404; data := [x3c; x68; x31; x3e];
       redirected_url := "http://origin/live";
       get_header := fun _ => ""%string |}.

(** An origin whose every answer is a failure with status 404. *)
Definition failing_net : HttpClient :=
  fun _ _ =>
    {| fail := true; status_code := 404; data := [];
       redirected_url := "http://origin/video";
       get_header := fun _ => ""%string |}.

(** A run on blocks of four bytes over a resource of ten bytes: the read
    head moves to offset 5 before the final block arrives. *)
Definition small_run : list CacheOp :=
  [Insert 0 [x00; x01; x02; x03];
   Insert 1 [x04; x05; x06; x07];
   MoveReadHead 5;
   Insert 2 [x08; x09]].

Definition small_stream : NetworkStream :=
  ready_stream (C := small_constants) 10 0 [].

(** A run that fills a cache of four blocks and goes on. *)
Definition long_run : list CacheOp :=
  [Insert 0 full_block; Insert 1 full_block; Insert 2 full_block;
   Insert 3 full_block; MoveReadHead 131072; Insert 4 full_block;
   Insert 5 full_block].

(** The sum of the lengths of the resident blocks. *)
Definition cached_bytes (m : block_map) : Z :=
  fold_right (fun entry total => vector_size (snd entry) + total) 0 m.

(** An origin that answers every request with six bytes and the sequence
    number 17, one that answers with ten bytes, and one that answers with
    one byte and no header. *)
Definition live_net : HttpClient :=
  fun _ _ =>
    {| fail := false; status_code := 200;
       data := [x00; x01; x02; x03; x04; x05];
       redirected_url := "http://origin/live";
       get_header := fun _ => "17"%string |}.

Definition long_live_net : HttpClient :=
  fun _ _ =>
    {| fail := false; status_code := 200;
       data := [x00; x01; x02; x03; x04; x05; x06; x07; x08; x09];
       redirected_url := "http://origin/live";
       get_header := fun _ => "17"%string |}.

Definition headerless_net : HttpClient :=
  fun _ _ =>
    {| fail := false; status_code := 200; data := [x07];
       redirected_url := "http://origin/video";
       get_header := fun _ => ""%string |}.

(** A stream that asks to quit, and slots that hold it behind a ready
    stream. *)
Definition quitting_stream : NetworkStream :=
  set_quit_request true sample_stream.

Definition quitting_slots : list (option NetworkStream) :=
  [Some small_ready_stream; Some quitting_stream].

(** With blocks of four bytes: a ready stream of eight bytes that has them
    all and was read to its end. *)
Definition finished_stream : NetworkStream :=
  ready_stream (C := small_constants) 8 8
    [(0, [x00; x01; x02; x03]); (1, [x04; x05; x06; x07])].

(** A decoder at rest and a decoder that was interrupted. *)
Definition sample_decoder : NetworkDecoder :=
  {| interrupt := false; need_reinit := false |}.

Definition interrupted_decoder : NetworkDecoder :=
  {| interrupt := true; need_reinit := false |}.

(** Two NAL units. *)
Definition sample_nals : list (list byte) := [[x67; x42; x00]; [x68; xce]].

(** Closes a goal on sample data by evaluation. *)
Ltac evaluate := vm_compute; repeat split; (reflexivity || discriminate).

(** * Properties *)

(** ** The ordered map *)

Lemma map_count_cons (j k : Z) (v : list byte) (m : block_map) :
  map_count j ((k, v) :: m) = if k =? j then true else map_count j m.
Proof. reflexivity. Qed.

Lemma map_lookup_cons (j k : Z) (v : list byte) (m : block_map) :
  map_lookup j ((k, v) :: m) = if k =? j then Some v else map_lookup j m.
Proof. reflexivity. Qed.

Lemma map_count_In (k : Z) (m : block_map) :
  map_count k m = true <-> In k (keys m).
Proof.
  induction m as [|[k' v] m IH]; simpl.
  - split; [discriminate | tauto].
  - destruct (Z.eqb_spec k' k) as [->|Hne].
    + split; auto.
    + rewrite IH. split; [auto | intros [H|H]; [contradiction | exact H]].
Qed.

Lemma map_count_lookup (k : Z) (m : block_map) :
  map_count k m = true <-> exists v, map_lookup k m = Some v.
Proof.
  induction m as [|[k' v] m IH]; simpl.
  - split; [discriminate | intros [v Hv]; discriminate].
  - destruct (k' =? k); [split; eauto | exact IH].
Qed.

Lemma map_count_lookup_some (k : Z) (v : list byte) (m : block_map) :
  map_lookup k m = Some v -> map_count k m = true.
Proof. intros H. apply map_count_lookup. eauto. Qed.

Lemma map_count_assign (j k : Z) (v : list byte) (m : block_map) :
  map_count j (map_assign k v m) = (j =? k) || map_count j m.
Proof.
  induction m as [|[k' v'] m IH]; simpl.
  - rewrite (Z.eqb_sym k j). destruct (j =? k); reflexivity.
  - destruct (Z.ltb_spec k k') as [Hlt|Hge]; simpl.
    + rewrite (Z.eqb_sym k j). destruct (j =? k); reflexivity.
    + destruct (Z.eqb_spec k k') as [->|Hne]; simpl.
      * rewrite (Z.eqb_sym k' j). destruct (j =? k'); reflexivity.
      * rewrite IH. destruct (k' =? j), (j =? k); reflexivity.
Qed.

Lemma map_lookup_assign (j k : Z) (v : list byte) (m : block_map) :
  map_lookup j (map_assign k v m)
  = if j =? k then Some v else map_lookup j m.
Proof.
  induction m as [|[k' v'] m IH]; simpl.
  - rewrite (Z.eqb_sym k j). reflexivity.
  - destruct (Z.ltb_spec k k') as [Hlt|Hge]; simpl.
    + rewrite (Z.eqb_sym k j). reflexivity.
    + destruct (Z.eqb_spec k k') as [->|Hne]; simpl.
      * rewrite (Z.eqb_sym k' j). destruct (j =? k'); reflexivity.
      * rewrite IH.
        destruct (Z.eqb_spec k' j) as [->|Hkj]; [|reflexivity].
        destruct (Z.eqb_spec j k); [congruence | reflexivity].
Qed.

Lemma ordered_nil : ordered [].
Proof. constructor. Qed.

Lemma ordered_tail (p : Z * list byte) (m : block_map) :
  ordered (p :: m) -> ordered m.
Proof. unfold ordered; simpl; intros H; inversion H; assumption. Qed.

Lemma ordered_head_lt (k : Z) (v : list byte) (m : block_map) (j : Z) :
  ordered ((k, v) :: m) -> map_count j m = true -> k < j.
Proof.
  unfold ordered; simpl; intros H Hj. inversion H as [|? ? _ Hall]; subst.
  rewrite Forall_forall in Hall. apply Hall, map_count_In, Hj.
Qed.

Lemma ordered_assign (k : Z) (v : list byte) (m : block_map) :
  ordered m -> ordered (map_assign k v m).
Proof.
  unfold ordered. induction m as [|[k' v'] m IH]; simpl; intros Hord.
  - repeat constructor.
  - inversion Hord as [|? ? Hm Hall]; subst.
    destruct (Z.ltb_spec k k') as [Hlt|Hge]; simpl.
    + constructor; [exact Hord|].
      constructor; [exact Hlt|].
      eapply Forall_impl; [|exact Hall]. simpl; intros; lia.
    + destruct (Z.eqb_spec k k') as [->|Hne]; simpl.
      * constructor; assumption.
      * constructor; [apply IH, Hm|].
        rewrite Forall_forall in *. intros j Hj.
        apply map_count_In in Hj. rewrite map_count_assign in Hj.
        destruct (Z.eqb_spec j k) as [Hjk|Hjk]; [lia|].
        apply Hall, map_count_In, Hj.
Qed.

Lemma ordered_erase_begin (m : block_map) :
  ordered m -> ordered (erase_begin m).
Proof.
  destruct m as [|p m]; simpl; [auto | apply ordered_tail].
Qed.

Lemma ordered_app_l (m1 m2 : block_map) : ordered (m1 ++ m2) -> ordered m1.
Proof.
  unfold ordered, keys. induction m1 as [|p m1 IH]; simpl; intros H.
  - constructor.
  - inversion H as [|? ? Hm Hall]; subst. constructor; [apply IH, Hm|].
    rewrite map_app in Hall. apply Forall_app in Hall. tauto.
Qed.

Lemma ordered_erase_last (m : block_map) :
  ordered m -> ordered (erase_last m).
Proof.
  unfold erase_last. destruct m as [|p m]; [auto|].
  intros H. apply ordered_app_l with (m2 := [last (p :: m) p]).
  rewrite <- app_removelast_last by discriminate. exact H.
Qed.

Lemma length_assign_le (k : Z) (v : list byte) (m : block_map) :
  (length (map_assign k v m) <= S (length m))%nat.
Proof.
  induction m as [|[k' v'] m IH]; simpl; [lia|].
  destruct (k <? k'); simpl; [lia|].
  destruct (k =? k'); simpl; lia.
Qed.

Lemma length_assign_absent (k : Z) (v : list byte) (m : block_map) :
  map_count k m = false -> length (map_assign k v m) = S (length m).
Proof.
  induction m as [|[k' v'] m IH]; simpl; [reflexivity|].
  destruct (Z.eqb_spec k' k) as [->|Hne]; [discriminate|]. intros Hk.
  destruct (k <? k'); simpl; [reflexivity|].
  destruct (Z.eqb_spec k k'); [congruence|]. simpl. rewrite IH; auto.
Qed.

Lemma length_assign_present (k : Z) (v : list byte) (m : block_map) :
  ordered m -> map_count k m = true -> length (map_assign k v m) = length m.
Proof.
  induction m as [|[k' v'] m IH]; simpl; [discriminate|]. intros Hord Hk.
  destruct (Z.eqb_spec k' k) as [->|Hne].
  - rewrite Z.ltb_irrefl, Z.eqb_refl. reflexivity.
  - pose proof (ordered_head_lt _ _ _ _ Hord Hk).
    destruct (Z.ltb_spec k k'); [lia|].
    destruct (Z.eqb_spec k k'); [lia|]. simpl.
    rewrite IH; eauto using ordered_tail.
Qed.

Lemma first_key_assign (k lo : Z) (v : list byte) (m : block_map) :
  first_key m = Some lo -> first_key (map_assign k v m) = Some (Z.min lo k).
Proof.
  destruct m as [|[k' v'] m]; simpl; [discriminate|].
  intros [= ->].
  destruct (Z.ltb_spec k lo); simpl; [f_equal; lia|].
  destruct (Z.eqb_spec k lo); simpl; f_equal; lia.
Qed.

Lemma last_key_cons (p : Z * list byte) (m : block_map) (hi : Z) :
  last_key m = Some hi -> last_key (p :: m) = Some hi.
Proof.
  destruct m as [|q m]; [discriminate|]. simpl. destruct p. auto.
Qed.

Lemma last_key_count (m : block_map) (hi : Z) :
  last_key m = Some hi -> map_count hi m = true.
Proof.
  induction m as [|[k v] m IH]; [discriminate|].
  destruct m as [|q m].
  - simpl. intros [= ->]. rewrite Z.eqb_refl. reflexivity.
  - intros H. change (last_key (q :: m) = Some hi) in H.
    simpl map_count. destruct (k =? hi); [reflexivity|]. apply IH, H.
Qed.

Lemma first_key_count (m : block_map) (lo : Z) :
  first_key m = Some lo -> map_count lo m = true.
Proof.
  destruct m as [|[k v] m]; simpl; [discriminate|].
  intros [= ->]. rewrite Z.eqb_refl. reflexivity.
Qed.

Lemma first_key_least (m : block_map) (lo j : Z) :
  ordered m -> first_key m = Some lo -> map_count j m = true -> lo <= j.
Proof.
  destruct m as [|[k v] m]; simpl; [discriminate|].
  intros Hord [= ->]. destruct (Z.eqb_spec lo j); [lia|].
  intros Hj. pose proof (ordered_head_lt _ _ _ _ Hord Hj). lia.
Qed.

Lemma last_key_greatest (m : block_map) (hi j : Z) :
  ordered m -> last_key m = Some hi -> map_count j m = true -> j <= hi.
Proof.
  induction m as [|[k v] m IH]; [discriminate|].
  destruct m as [|q m].
  - simpl. intros _ [= ->]. destruct (Z.eqb_spec hi j); [lia | discriminate].
  - intros Hord Hhi Hj. change (last_key (q :: m) = Some hi) in Hhi.
    simpl map_count in Hj.
    destruct (Z.eqb_spec k j) as [->|Hne].
    + pose proof (ordered_head_lt _ _ _ _ Hord (last_key_count _ _ Hhi)). lia.
    + apply IH; eauto using ordered_tail.
Qed.

Lemma last_key_assign (k hi : Z) (v : list byte) (m : block_map) :
  ordered m -> last_key m = Some hi ->
  last_key (map_assign k v m) = Some (Z.max hi k).
Proof.
  induction m as [|[k' v'] m IH]; [discriminate|]. intros Hord Hhi.
  pose proof (last_key_greatest _ _ k' Hord Hhi) as Hk'.
  simpl in Hk'. rewrite Z.eqb_refl in Hk'. specialize (Hk' eq_refl).
  simpl map_assign.
  destruct (Z.ltb_spec k k') as [Hlt|Hge].
  - rewrite (last_key_cons _ _ _ Hhi). f_equal; lia.
  - destruct (Z.eqb_spec k k') as [->|Hne].
    + destruct m as [|q m].
      * simpl in *. injection Hhi as ->. f_equal; lia.
      * change (last_key (q :: m) = Some hi) in Hhi.
        change (last_key ((k', v) :: q :: m)) with (last_key (q :: m)).
        rewrite Hhi. f_equal; lia.
    + destruct m as [|q m].
      * simpl in *. injection Hhi as ->. f_equal; lia.
      * change (last_key (q :: m) = Some hi) in Hhi.
        apply last_key_cons, IH; eauto using ordered_tail.
Qed.

Lemma map_count_erase_begin (m : block_map) (lo j : Z) :
  ordered m -> first_key m = Some lo ->
  map_count j (erase_begin m) = map_count j m && negb (j =? lo).
Proof.
  destruct m as [|[k v] m]; simpl; [discriminate|].
  intros Hord [= ->]. rewrite (Z.eqb_sym lo j).
  destruct (Z.eqb_spec j lo) as [->|Hne]; simpl.
  - destruct (map_count lo m) eqn:E; [|reflexivity].
    pose proof (ordered_head_lt _ _ _ _ Hord E). lia.
  - rewrite andb_true_r. reflexivity.
Qed.

Lemma map_count_erase_last (m : block_map) (hi j : Z) :
  ordered m -> last_key m = Some hi ->
  map_count j (erase_last m) = map_count j m && negb (j =? hi).
Proof.
  unfold erase_last.
  induction m as [|[k v] m IH]; [discriminate|].
  destruct m as [|q m].
  - simpl. intros _ [= ->]. rewrite (Z.eqb_sym hi j).
    destruct (j =? hi); reflexivity.
  - intros Hord Hhi. change (last_key (q :: m) = Some hi) in Hhi.
    change (removelast ((k, v) :: q :: m))
      with ((k, v) :: removelast (q :: m)).
    rewrite !(map_count_cons j k v). rewrite IH by eauto using ordered_tail.
    destruct (Z.eqb_spec k j) as [->|Hne]; [|reflexivity].
    pose proof (ordered_head_lt _ _ _ _ Hord (last_key_count _ _ Hhi)).
    destruct (Z.eqb_spec j hi); [lia | reflexivity].
Qed.

Lemma length_erase_last (m : block_map) :
  m <> [] -> S (length (erase_last m)) = length m.
Proof.
  intros Hm. unfold erase_last.
  rewrite (app_removelast_last (0, []) Hm) at 2.
  rewrite length_app. simpl. lia.
Qed.

Lemma length_erase_begin (m : block_map) :
  m <> [] -> S (length (erase_begin m)) = length m.
Proof. destruct m; [congruence | reflexivity]. Qed.

Lemma first_key_some (m : block_map) :
  m <> [] -> exists lo, first_key m = Some lo.
Proof. destruct m as [|[k v] m]; [congruence | simpl; eauto]. Qed.

Lemma last_key_some (m : block_map) :
  m <> [] -> exists hi, last_key m = Some hi.
Proof.
  induction m as [|[k v] m IH]; [congruence|]. intros _.
  destruct m as [|q m]; [simpl; eauto|].
  destruct IH as [hi Hhi]; [discriminate|].
  exists hi. apply last_key_cons, Hhi.
Qed.

Section CacheProperties.
Context {C : Constants}.

(** ** set_data *)

Lemma set_data_frame (block : Z) (bytes : list byte) (s : NetworkStream) :
  read_head (set_data block bytes s) = read_head s
  /\ len (set_data block bytes s) = len s
  /\ block_num (set_data block bytes s) = block_num s
  /\ ready (set_data block bytes s) = ready s
  /\ error (set_data block bytes s) = error s
  /\ whole_download (set_data block bytes s) = whole_download s
  /\ livestream_eof (set_data block bytes s) = livestream_eof s
  /\ livestream_private (set_data block bytes s) = livestream_private s.
Proof.
  unfold set_data.
  destruct (MAX_CACHE_BLOCKS <? _); [|repeat split].
  destruct (first_key _); [|repeat split].
  destruct (_ <? _); repeat split.
Qed.

Lemma set_data_ordered (block : Z) (bytes : list byte) (s : NetworkStream) :
  ordered (downloaded_data s) ->
  ordered (downloaded_data (set_data block bytes s)).
Proof.
  intros Hord. unfold set_data.
  pose proof (ordered_assign block bytes _ Hord) as Hm.
  destruct (MAX_CACHE_BLOCKS <? _); [|exact Hm].
  destruct (first_key _); [|exact Hm].
  destruct (_ <? _); simpl;
    [apply ordered_erase_begin | apply ordered_erase_last]; exact Hm.
Qed.

(** What [set_data] leaves in the map: on overflow, the block that goes is
    the lowest key of the map after the assignment when it lies before the
    block of the read head, and the highest key otherwise. *)
Lemma set_data_eviction (block : Z) (bytes : list byte) (s : NetworkStream) :
  ordered (downloaded_data s) ->
  let m := map_assign block bytes (downloaded_data s) in
  MAX_CACHE_BLOCKS < map_size m ->
  exists lo hi,
    first_key m = Some lo /\ last_key m = Some hi /\
    let evicted := if lo <? read_head s / BLOCK_SIZE then lo else hi in
    map_count evicted m = true /\
    map_size (downloaded_data (set_data block bytes s)) = map_size m - 1 /\
    forall j, map_count j (downloaded_data (set_data block bytes s))
              = map_count j m && negb (j =? evicted).
Proof.
  intros Hord. cbv zeta.
  set (m := map_assign block bytes (downloaded_data s)). intros Hover.
  assert (Hm : ordered m) by (apply ordered_assign, Hord).
  assert (Hne : m <> []).
  { unfold m. destruct (downloaded_data s) as [|[k v] t]; simpl;
      [discriminate|].
    destruct (block <? k); [discriminate|].
    destruct (block =? k); discriminate. }
  destruct (last_key_some m Hne) as [hi Hhi].
  destruct (first_key_some m Hne) as [lo Hlo].
  exists lo, hi. split; [exact Hlo|]. split; [exact Hhi|].
  unfold set_data. fold m.
  apply Z.ltb_lt in Hover. rewrite Hover, Hlo.
  destruct (lo <? read_head s / BLOCK_SIZE); simpl downloaded_data.
  - split; [apply first_key_count, Hlo|].
    split.
    + unfold map_size. rewrite <- (length_erase_begin m) by auto. lia.
    + intros j. apply map_count_erase_begin; auto.
  - split; [apply last_key_count, Hhi|].
    split.
    + unfold map_size. rewrite <- (length_erase_last m) by auto. lia.
    + intros j. apply map_count_erase_last; auto.
Qed.

Lemma set_data_size (block : Z) (bytes : list byte) (s : NetworkStream) :
  0 <= MAX_CACHE_BLOCKS ->
  ordered (downloaded_data s) ->
  map_size (downloaded_data s) <= MAX_CACHE_BLOCKS ->
  map_size (downloaded_data (set_data block bytes s)) <= MAX_CACHE_BLOCKS.
Proof.
  intros Hmax Hord Hsize.
  pose proof (length_assign_le block bytes (downloaded_data s)) as Hle.
  destruct (Z.ltb_spec MAX_CACHE_BLOCKS
              (map_size (map_assign block bytes (downloaded_data s))))
    as [Hover|Hfit].
  - destruct (set_data_eviction block bytes s Hord Hover)
      as (lo & hi & _ & _ & _ & Hsz & _).
    rewrite Hsz. unfold map_size in *. lia.
  - unfold set_data.
    destruct (Z.ltb_spec MAX_CACHE_BLOCKS
                (map_size (map_assign block bytes (downloaded_data s))));
      [lia | exact Hfit].
Qed.

Lemma run_ops_invariant (ops : list CacheOp) (s : NetworkStream) :
  0 <= MAX_CACHE_BLOCKS ->
  ordered (downloaded_data s) ->
  map_size (downloaded_data s) <= MAX_CACHE_BLOCKS ->
  ordered (downloaded_data (run_ops ops s))
  /\ map_size (downloaded_data (run_ops ops s)) <= MAX_CACHE_BLOCKS.
Proof.
  intros Hmax. revert s.
  induction ops as [|op ops IH]; intros s Hord Hsize; [auto|].
  simpl. apply IH; destruct op; simpl; auto.
  - apply set_data_ordered, Hord.
  - apply set_data_size; assumption.
Qed.

(** C5. After any run of insertions (and read-head movements) on an empty
    cache the number of resident blocks is at most [MAX_CACHE_BLOCKS], and
    an insertion that overflows the bound evicts exactly one block: one
    resident key goes, every other key stays, and the size drops by one. *)
Theorem residency_bounded (ops : list CacheOp) (s0 : NetworkStream) :
  0 <= MAX_CACHE_BLOCKS ->
  downloaded_data s0 = [] ->
  let s := run_ops ops s0 in
  map_size (downloaded_data s) <= MAX_CACHE_BLOCKS
  /\ forall block bytes,
       let m := map_assign block bytes (downloaded_data s) in
       MAX_CACHE_BLOCKS < map_size m ->
       exists evicted,
         map_count evicted m = true
         /\ map_size (downloaded_data (set_data block bytes s))
            = map_size m - 1
         /\ forall j, map_count j (downloaded_data (set_data block bytes s))
                      = map_count j m && negb (j =? evicted).
Proof.
  intros Hmax Hempty s.
  destruct (run_ops_invariant ops s0 Hmax) as [Hord Hsize].
  { rewrite Hempty. apply ordered_nil. }
  { rewrite Hempty. exact Hmax. }
  split; [exact Hsize|].
  intros block bytes m Hover.
  destruct (set_data_eviction block bytes s Hord Hover)
    as (lo & hi & _ & _ & Hev).
  eexists. exact Hev.
Qed.

(** C1, as the code has it.  On a cache at capacity holding the keys [S]
    (lowest [lo], highest [hi]), the insertion of a block [b] not in [S]
    evicts exactly one block of [S] with [b] added: the lowest of them,
    [min lo b], when it lies before the block of the read head, and the
    highest, [max hi b], otherwise.  The block that goes can be [b]. *)
Theorem eviction_policy (s : NetworkStream) (b : Z) (bytes : list byte)
    (lo hi : Z) :
  ordered (downloaded_data s) ->
  map_size (downloaded_data s) = MAX_CACHE_BLOCKS ->
  first_key (downloaded_data s) = Some lo ->
  last_key (downloaded_data s) = Some hi ->
  map_count b (downloaded_data s) = false ->
  let evicted :=
    if Z.min lo b <? read_head s / BLOCK_SIZE
    then Z.min lo b else Z.max hi b in
  forall j, map_count j (downloaded_data (set_data b bytes s))
            = ((j =? b) || map_count j (downloaded_data s))
              && negb (j =? evicted).
Proof.
  intros Hord Hsize Hlo Hhi Hb evicted j.
  destruct (set_data_eviction b bytes s Hord) as (lo' & hi' & Hl & Hh & Hev).
  { unfold map_size in *. rewrite (length_assign_absent _ _ _ Hb). lia. }
  rewrite (first_key_assign b lo bytes _ Hlo) in Hl. injection Hl as <-.
  rewrite (last_key_assign b hi bytes _ Hord Hhi) in Hh. injection Hh as <-.
  destruct Hev as (_ & _ & Hcount).
  rewrite Hcount, map_count_assign. reflexivity.
Qed.

End CacheProperties.

(** ** The bounded scans of the map *)

Lemma keys_from_le_length (b : Z) (m : block_map) :
  (keys_from b m <= length m)%nat.
Proof.
  unfold keys_from, keys.
  rewrite <- (length_map fst m). apply filter_length_le.
Qed.

Lemma keys_from_succ (b : Z) (m : block_map) :
  map_count b m = true -> (keys_from (b + 1) m < keys_from b m)%nat.
Proof.
  unfold keys_from.
  induction m as [|[k v] m IH]; simpl; [discriminate|].
  destruct (Z.eqb_spec k b) as [->|Hne]; intros Hb.
  - destruct (Z.leb_spec (b + 1) b); [lia|].
    destruct (Z.leb_spec b b); [|lia]. simpl.
    clear IH Hb. apply Nat.lt_succ_r.
    induction (keys m) as [|k ks IHks]; simpl; [lia|].
    destruct (Z.leb_spec (b + 1) k), (Z.leb_spec b k); simpl; lia.
  - specialize (IH Hb).
    destruct (Z.leb_spec (b + 1) k), (Z.leb_spec b k); simpl; lia.
Qed.

Lemma u64_small (x : Z) : in_u64 x -> u64 x = x.
Proof. unfold in_u64, u64. intros H. apply Z.mod_small, H. Qed.

Lemma u64_range (x : Z) : in_u64 (u64 x).
Proof. unfold in_u64, u64. apply Z.mod_pos_bound. reflexivity. Qed.

Section ScanProperties.
Context {C : Constants}.

(** [resident_loop] answers whether every block of [[block, end_block]] is
    resident, as soon as it is given more passes than there are keys from
    [block] on. *)
Lemma resident_loop_exact (m : block_map) (passes : nat)
    (block end_block : Z) :
  (keys_from block m < passes)%nat ->
  0 <= block -> end_block + 1 < 2 ^ 64 ->
  (resident_loop passes m block end_block = true
   <-> forall j, block <= j <= end_block -> map_count j m = true).
Proof.
  revert block.
  induction passes as [|passes IH]; intros block Hp Hb He; [lia|].
  simpl. destruct (Z.leb_spec block end_block) as [Hle|Hgt].
  - destruct (map_count block m) eqn:Hc; simpl.
    + rewrite u64_small by (unfold in_u64; lia).
      rewrite IH; [|pose proof (keys_from_succ block m Hc); lia|lia|lia].
      split; intros H j Hj.
      * destruct (Z.eq_dec j block) as [->|]; [exact Hc | apply H; lia].
      * apply H; lia.
    + split; [discriminate|]. intros H.
      rewrite H in Hc by lia. discriminate.
  - split; [|reflexivity]. intros _ j Hj. lia.
Qed.

Lemma stops_at_unique (m : block_map) (block_num_ from r r' : Z) :
  stops_at m block_num_ from r -> stops_at m block_num_ from r' -> r = r'.
Proof.
  intros (H1 & H2 & H3) (H1' & H2' & H3').
  destruct (Z.lt_trichotomy r r') as [Hlt|[Heq|Hgt]]; [|exact Heq|].
  - exfalso. apply H3, H2'. lia.
  - exfalso. apply H3', H2. lia.
Qed.

Lemma block_reading_loop_stops (m : block_map) (passes : nat)
    (block_num_ from : Z) :
  (keys_from from m < passes)%nat ->
  0 <= from -> block_num_ < 2 ^ 64 ->
  stops_at m block_num_ from (block_reading_loop passes m block_num_ from).
Proof.
  revert from.
  induction passes as [|passes IH]; intros from Hp Hf Hbn; [lia|].
  simpl. destruct (Z.ltb_spec from block_num_) as [Hlt|Hge]; simpl.
  - destruct (map_count from m) eqn:Hc.
    + rewrite u64_small by (unfold in_u64; lia).
      destruct (IH (from + 1)) as (H1 & H2 & H3);
        [pose proof (keys_from_succ from m Hc); lia|lia|lia|].
      split; [lia|]. split; [|exact H3].
      intros j Hj. destruct (Z.eq_dec j from) as [->|]; [auto|].
      apply H2. lia.
    + split; [lia|]. split; [intros j Hj; lia|].
      intros [_ H]. congruence.
  - split; [lia|]. split; [intros j Hj; lia|]. intros [H _]. lia.
Qed.

(** The scan of the selection is the same scan cut at the end of the
    forward window: it returns the end of the window, or a block inside
    the window at which the scan stops. *)
Lemma first_not_downloaded_loop_stops (m : block_map) (passes : nat)
    (block_num_ read_head_block from : Z) :
  (keys_from from m < passes)%nat ->
  0 <= read_head_block <= from -> block_num_ < 2 ^ 64 ->
  from < read_head_block + MAX_FORWARD_READ_BLOCKS < 2 ^ 64 ->
  let r := first_not_downloaded_loop passes m block_num_ read_head_block
                                     from in
  (r = read_head_block + MAX_FORWARD_READ_BLOCKS
   /\ forall j, from <= j < r -> j < block_num_ /\ map_count j m = true)
  \/ (r < read_head_block + MAX_FORWARD_READ_BLOCKS
      /\ stops_at m block_num_ from r).
Proof.
  revert from.
  induction passes as [|passes IH]; intros from Hp Hf Hbn Hw; [lia|].
  simpl. destruct (Z.ltb_spec from block_num_) as [Hlt|Hge]; simpl.
  - destruct (map_count from m) eqn:Hc.
    + rewrite (u64_small (from + 1)) by (unfold in_u64; lia).
      rewrite (u64_small (read_head_block + _)) by (unfold in_u64; lia).
      destruct (Z.eqb_spec (from + 1)
                  (read_head_block + MAX_FORWARD_READ_BLOCKS)) as [He|Hne].
      * left. split; [exact He|]. intros j Hj.
        assert (j = from) as -> by lia. auto.
      * destruct (IH (from + 1)) as [(H1 & H2)|(H1 & H2 & H3 & H4)];
          [pose proof (keys_from_succ from m Hc); lia|lia|lia|lia| |].
        -- left. split; [exact H1|]. intros j Hj.
           destruct (Z.eq_dec j from) as [->|]; [auto | apply H2; lia].
        -- right. split; [exact H1|]. split; [lia|]. split; [|exact H4].
           intros j Hj.
           destruct (Z.eq_dec j from) as [->|]; [auto | apply H3; lia].
    + right. split; [lia|]. split; [lia|]. split; [intros j Hj; lia|].
      intros [_ H]. congruence.
  - right. split; [lia|]. split; [lia|]. split; [intros j Hj; lia|].
    intros [H _]. lia.
Qed.

End ScanProperties.

(** ** is_data_available *)

Lemma block_of_offset (bs x j : Z) :
  0 < bs -> (x / bs = j <-> j * bs <= x < (j + 1) * bs).
Proof.
  intros Hbs.
  pose proof (Z.div_mod x bs ltac:(lia)) as Hdm.
  pose proof (Z.mod_pos_bound x bs Hbs) as Hm.
  split; [intros <-; nia | intros H; nia].
Qed.

Lemma block_le_offset (bs x j : Z) :
  0 < bs -> (j <= x / bs <-> j * bs <= x).
Proof.
  intros Hbs.
  pose proof (Z.div_mod x bs ltac:(lia)) as Hdm.
  pose proof (Z.mod_pos_bound x bs Hbs) as Hm.
  split; intros H; nia.
Qed.

Lemma offset_lt_block (bs x j : Z) :
  0 < bs -> (x / bs <= j <-> x < (j + 1) * bs).
Proof.
  intros Hbs.
  pose proof (Z.div_mod x bs ltac:(lia)) as Hdm.
  pose proof (Z.mod_pos_bound x bs Hbs) as Hm.
  split; intros H; nia.
Qed.

Section AvailabilityProperties.
Context {C : Constants}.

(** On a range that is not empty and does not wrap around, the answer of
    [is_data_available] is the one of the specification: the stream is
    ready, the range ends within [len], and every block that meets
    [[start, start + size)] is resident. *)
Lemma is_data_available_exact (s : NetworkStream) (start size : Z) :
  0 < BLOCK_SIZE ->
  0 <= start -> 0 < size -> start + size < 2 ^ 64 ->
  (is_data_available s start size = true
   <-> ready s = true
       /\ start + size <= len s
       /\ forall j, j * BLOCK_SIZE < start + size ->
                    start < (j + 1) * BLOCK_SIZE ->
                    map_count j (downloaded_data s) = true).
Proof.
  intros Hbs Hstart Hsize Hfit. unfold is_data_available.
  rewrite !u64_small by (unfold in_u64; lia).
  destruct (ready s); cbn [negb];
    [|split; [discriminate | intros [? _]; discriminate]].
  destruct (Z.ltb_spec (len s) (start + size)) as [Hlt|Hle].
  { split; [discriminate | intros (_ & ? & _); lia]. }
  rewrite resident_loop_exact;
    [|pose proof (keys_from_le_length (start / BLOCK_SIZE)
                    (downloaded_data s)); lia
     |apply Z.div_pos; lia
     |].
  - split.
    + intros H. repeat split; [exact Hle|]. intros j Hj1 Hj2. apply H.
      split; [apply offset_lt_block | apply block_le_offset]; lia.
    + intros (_ & _ & H) j [Hj1 Hj2]. apply H.
      * apply block_le_offset in Hj2; lia.
      * apply offset_lt_block in Hj1; lia.
  - assert ((start + size - 1) / BLOCK_SIZE <= start + size - 1).
    { apply Z.div_le_upper_bound; nia. }
    lia.
Qed.

End AvailabilityProperties.

(** ** get_data *)

Lemma subvector_length (v : list byte) (l r : Z) :
  0 <= l <= r -> r <= vector_size v -> vector_size (subvector v l r) = r - l.
Proof.
  unfold vector_size, subvector. intros Hl Hr.
  rewrite length_firstn, length_skipn. lia.
Qed.

Lemma subvector_nth (v : list byte) (l r i : Z) :
  0 <= l -> 0 <= i < r - l ->
  nth_error (subvector v l r) (Z.to_nat i) = nth_error v (Z.to_nat (l + i)).
Proof.
  unfold subvector. intros Hl Hi.
  rewrite nth_error_firstn, nth_error_skipn.
  destruct (Nat.ltb_spec (Z.to_nat i) (Z.to_nat (r - l))); [|lia].
  f_equal. lia.
Qed.

Lemma slice_in_range (v : list byte) (l r : Z) :
  0 <= l <= r -> r <= vector_size v -> slice v l r = Some (subvector v l r).
Proof.
  intros Hl Hr. unfold slice.
  destruct (Z.leb_spec 0 l); [|lia].
  destruct (Z.leb_spec l r); [|lia].
  destruct (Z.leb_spec r (vector_size v)); [reflexivity | lia].
Qed.

Lemma offset_in_block (bs j x : Z) :
  0 < bs -> j * bs <= x < (j + 1) * bs -> x / bs = j /\ x mod bs = x - j * bs.
Proof.
  intros Hbs Hx.
  assert (x / bs = j) as Hd by (apply block_of_offset; assumption).
  split; [exact Hd|].
  pose proof (Z.div_mod x bs ltac:(lia)). rewrite Hd in *. lia.
Qed.

(** In an ordered map the entry after the one of key [k] is the one of key
    [k + 1] as soon as [k + 1] is a key: what [itr++] relies on. *)
Lemma ordered_next (k : Z) (v : list byte) (itr : block_map) :
  ordered ((k, v) :: itr) ->
  map_count (k + 1) ((k, v) :: itr) = true ->
  exists v' itr', itr = (k + 1, v') :: itr'.
Proof.
  intros Hord Hc. simpl in Hc.
  destruct (Z.eqb_spec k (k + 1)); [lia|].
  destruct itr as [|[k' v'] itr']; [discriminate|].
  assert (k < k') by
    (apply (ordered_head_lt k v ((k', v') :: itr') k' Hord);
     simpl; rewrite Z.eqb_refl; reflexivity).
  assert (k' <= k + 1) by
    (apply (first_key_least ((k', v') :: itr') k' (k + 1));
     [eapply ordered_tail; exact Hord | reflexivity | exact Hc]).
  assert (k' = k + 1) as -> by lia. eauto.
Qed.

Lemma map_find_count (k : Z) (m : block_map) :
  map_count k m = true ->
  exists v itr, map_find k m = (k, v) :: itr.
Proof.
  induction m as [|[k' v'] m IH]; simpl; [discriminate|].
  destruct (Z.eqb_spec k' k) as [->|Hne]; [eauto | exact IH].
Qed.

Lemma map_find_ordered (k : Z) (m : block_map) :
  ordered m -> ordered (map_find k m).
Proof.
  induction m as [|[k' v'] m IH]; simpl; intros Hord; [exact Hord|].
  destruct (k' =? k); [exact Hord | eapply IH, ordered_tail, Hord].
Qed.

(** From the position of [k] on, the iterator sees the map. *)
Lemma map_find_lookup (k j : Z) (m : block_map) :
  ordered m -> map_count k m = true -> k <= j ->
  map_lookup j (map_find k m) = map_lookup j m.
Proof.
  induction m as [|[k' v'] m IH]; simpl; intros Hord Hk Hj; [reflexivity|].
  destruct (Z.eqb_spec k' k) as [->|Hne]; [reflexivity|].
  pose proof (ordered_head_lt _ _ _ _ Hord Hk).
  destruct (Z.eqb_spec k' j); [lia|].
  apply IH; eauto using ordered_tail.
Qed.

Section ReadProperties.
Context {C : Constants}.

Lemma get_data_loop_done (itr : block_map) (block end_block start end_ : Z) :
  end_block < block ->
  get_data_loop itr block end_block start end_ = Some [].
Proof.
  intros H. destruct itr; simpl;
    destruct (Z.leb_spec block end_block); (lia || reflexivity).
Qed.

Lemma get_data_loop_step (k : Z) (v : list byte) (itr : block_map)
    (block end_block start end_ : Z) :
  block <= end_block -> k = block ->
  get_data_loop ((k, v) :: itr) block end_block start end_
  = match slice v (u64 (Z.max start (u64 (block * BLOCK_SIZE))
                        - u64 (block * BLOCK_SIZE)))
                  (u64 (Z.min (u64 (end_ + 1))
                              (u64 ((block + 1) * BLOCK_SIZE))
                        - u64 (block * BLOCK_SIZE))) with
    | None => None
    | Some part =>
        match get_data_loop itr (u64 (block + 1)) end_block start end_ with
        | None => None
        | Some rest => Some (part ++ rest)
        end
    end.
Proof.
  intros Hle ->. simpl.
  destruct (Z.leb_spec block end_block); [|lia].
  rewrite Z.eqb_refl. reflexivity.
Qed.

(** The loop of [get_data] on an iterator that stands on [block]: when the
    blocks up to the one of [end_] are resident and have the length of
    their byte range, it returns the bytes of the offsets from
    [max start (block * BLOCK_SIZE)] to [end_], each taken from the block
    that holds it. *)
Lemma get_data_loop_correct (total start end_ : Z) :
  0 < BLOCK_SIZE -> 0 <= start <= end_ -> end_ < total ->
  total + BLOCK_SIZE <= 2 ^ 64 ->
  forall (itr : block_map) (block : Z),
    ordered itr -> first_key itr = Some block ->
    0 <= block -> block * BLOCK_SIZE <= end_ ->
    start < (block + 1) * BLOCK_SIZE ->
    (forall j, block <= j <= end_ / BLOCK_SIZE -> map_count j itr = true) ->
    (forall j v, map_lookup j itr = Some v ->
                 vector_size v = Z.min BLOCK_SIZE (total - j * BLOCK_SIZE)) ->
    exists res,
      get_data_loop itr block (end_ / BLOCK_SIZE) start end_ = Some res
      /\ vector_size res = end_ + 1 - Z.max start (block * BLOCK_SIZE)
      /\ forall p, Z.max start (block * BLOCK_SIZE) <= p <= end_ ->
           exists v,
             map_lookup (p / BLOCK_SIZE) itr = Some v
             /\ p mod BLOCK_SIZE < vector_size v
             /\ nth_error res
                  (Z.to_nat (p - Z.max start (block * BLOCK_SIZE)))
                = nth_error v (Z.to_nat (p mod BLOCK_SIZE)).
Proof.
  intros Hbs Hse Het Htot.
  induction itr as [|[k v] itr IH];
    intros block Hord Hfirst Hb Hbe Hsb Hres Hlen; [discriminate|].
  simpl in Hfirst. injection Hfirst as ->.
  assert (Hble : block <= end_ / BLOCK_SIZE)
    by (apply block_le_offset; assumption).
  assert (Hv : vector_size v
               = Z.min BLOCK_SIZE (total - block * BLOCK_SIZE)).
  { apply Hlen. simpl. rewrite Z.eqb_refl. reflexivity. }
  rewrite get_data_loop_step by auto.
  rewrite (u64_small (block * BLOCK_SIZE)) by (unfold in_u64; nia).
  rewrite (u64_small (end_ + 1)) by (unfold in_u64; nia).
  rewrite (u64_small ((block + 1) * BLOCK_SIZE)) by (unfold in_u64; nia).
  rewrite (u64_small (Z.max _ _ - _)) by (unfold in_u64; nia).
  rewrite (u64_small (Z.min _ _ - _)) by (unfold in_u64; nia).
  rewrite (u64_small (block + 1)) by (unfold in_u64; nia).
  remember (Z.max start (block * BLOCK_SIZE) - block * BLOCK_SIZE)
    as cur_l eqn:Hcl.
  remember (Z.min (end_ + 1) ((block + 1) * BLOCK_SIZE) - block * BLOCK_SIZE)
    as cur_r eqn:Hcr.
  assert (Hlr : 0 <= cur_l <= cur_r) by nia.
  assert (Hrv : cur_r <= vector_size v) by nia.
  rewrite slice_in_range by assumption.
  pose proof (subvector_length v cur_l cur_r Hlr Hrv) as Hpart.
  destruct (Z.eq_dec block (end_ / BLOCK_SIZE)) as [Hlast|Hmore].
  - (* the last block *)
    rewrite get_data_loop_done by lia.
    assert (Hend : end_ < (block + 1) * BLOCK_SIZE)
      by (apply offset_lt_block; lia).
    exists (subvector v cur_l cur_r ++ []). split; [reflexivity|].
    rewrite app_nil_r. split; [lia|].
    intros p Hp.
    destruct (offset_in_block BLOCK_SIZE block p Hbs) as [Hpd Hpm]; [lia|].
    exists v. rewrite Hpd, Hpm. simpl. rewrite Z.eqb_refl.
    split; [reflexivity|]. split; [lia|].
    rewrite subvector_nth by lia.
    f_equal. lia.
  - (* a block before the last one *)
    assert (Hnext : block + 1 <= end_ / BLOCK_SIZE) by lia.
    destruct (ordered_next block v itr Hord) as (v' & itr' & ->);
      [apply Hres; lia|].
    assert (Hnb : (block + 1) * BLOCK_SIZE <= end_)
      by (apply block_le_offset; assumption).
    destruct (IH (block + 1)) as (rest & Hrest & Hrlen & Hrnth).
    + eapply ordered_tail, Hord.
    + reflexivity.
    + lia.
    + exact Hnb.
    + nia.
    + intros j Hj. specialize (Hres j ltac:(lia)).
      rewrite map_count_cons in Hres.
      destruct (Z.eqb_spec block j); [lia | exact Hres].
    + intros j w Hj. apply Hlen.
      change (map_lookup j ((block, v) :: (block + 1, v') :: itr'))
        with (if block =? j then Some v
              else map_lookup j ((block + 1, v') :: itr')).
      destruct (Z.eqb_spec block j) as [<-|]; [|exact Hj].
      exfalso. apply map_count_lookup_some in Hj.
      pose proof (ordered_head_lt _ _ _ _ Hord Hj). lia.
    + rewrite Hrest. eexists. split; [reflexivity|].
      unfold vector_size in *. rewrite length_app.
      split; [lia|].
      intros p Hp.
      destruct (Z.lt_ge_cases p ((block + 1) * BLOCK_SIZE)) as [Hin|Hout].
      * destruct (offset_in_block BLOCK_SIZE block p Hbs) as [Hpd Hpm];
          [lia|].
        exists v. rewrite Hpd, Hpm.
        split; [simpl; rewrite Z.eqb_refl; reflexivity|]. split; [lia|].
        rewrite nth_error_app1 by lia.
        rewrite subvector_nth by lia.
        f_equal. lia.
      * destruct (Hrnth p ltac:(lia)) as (w & Hw & Hwlen & Hwnth).
        exists w. split; [|split; [exact Hwlen|]].
        -- change (map_lookup (p / BLOCK_SIZE)
                     ((block, v) :: (block + 1, v') :: itr'))
             with (if block =? p / BLOCK_SIZE then Some v
                   else map_lookup (p / BLOCK_SIZE)
                          ((block + 1, v') :: itr')).
           assert (block + 1 <= p / BLOCK_SIZE)
             by (apply block_le_offset; lia).
           destruct (Z.eqb_spec block (p / BLOCK_SIZE)); [lia | exact Hw].
        -- rewrite nth_error_app2 by lia.
           rewrite <- Hwnth. f_equal.
           lia.
Qed.

End ReadProperties.

(** ** Runs of insertions *)

Lemma map_lookup_erase_begin (j : Z) (v : list byte) (m : block_map) :
  ordered m -> map_lookup j (erase_begin m) = Some v -> map_lookup j m = Some v.
Proof.
  destruct m as [|[k v0] m]; simpl; [auto|]. intros Hord Hj.
  pose proof (ordered_head_lt _ _ _ _ Hord (map_count_lookup_some _ _ _ Hj)).
  destruct (Z.eqb_spec k j); [lia | exact Hj].
Qed.

Lemma map_lookup_erase_last (j : Z) (v : list byte) (m : block_map) :
  map_lookup j (erase_last m) = Some v -> map_lookup j m = Some v.
Proof.
  unfold erase_last. induction m as [|[k v0] m IH]; [auto|].
  destruct m as [|q m]; [discriminate|].
  change (removelast ((k, v0) :: q :: m))
    with ((k, v0) :: removelast (q :: m)).
  rewrite !(map_lookup_cons j k v0). destruct (k =? j); [auto | exact IH].
Qed.

Section RunProperties.
Context {C : Constants}.

Lemma set_data_lookup (b j : Z) (bytes v : list byte) (s : NetworkStream) :
  ordered (downloaded_data s) ->
  map_lookup j (downloaded_data (set_data b bytes s)) = Some v ->
  (j = b /\ v = bytes) \/ (j <> b /\ map_lookup j (downloaded_data s) = Some v).
Proof.
  intros Hord Hj.
  assert (Hm : map_lookup j (map_assign b bytes (downloaded_data s)) = Some v).
  { revert Hj. unfold set_data.
    destruct (MAX_CACHE_BLOCKS <? _); [|auto].
    destruct (first_key _); [|auto].
    destruct (_ <? _); simpl.
    - apply map_lookup_erase_begin, ordered_assign, Hord.
    - apply map_lookup_erase_last. }
  rewrite map_lookup_assign in Hm.
  destruct (Z.eqb_spec j b); [left | right]; split; congruence.
Qed.

Lemma run_ops_frame (ops : list CacheOp) (s : NetworkStream) :
  len (run_ops ops s) = len s /\ ready (run_ops ops s) = ready s.
Proof.
  revert s. induction ops as [|op ops IH]; intros s; [auto|].
  simpl. destruct (IH (apply_op s op)) as [-> ->].
  destruct op; simpl; [|auto].
  pose proof (set_data_frame block bytes s). tauto.
Qed.

(** A block found in the cache after a run is the block of the last
    insertion at its index, or was there before the run. *)
Lemma run_ops_lookup (ops : list CacheOp) (s : NetworkStream) :
  ordered (downloaded_data s) ->
  ordered (downloaded_data (run_ops ops s))
  /\ forall j v,
       map_lookup j (downloaded_data (run_ops ops s)) = Some v ->
       last_insert j ops = Some v
       \/ (last_insert j ops = None
           /\ map_lookup j (downloaded_data s) = Some v).
Proof.
  revert s. induction ops as [|op ops IH]; intros s Hord; [simpl; auto|].
  assert (Hord' : ordered (downloaded_data (apply_op s op))).
  { destruct op; simpl; [apply set_data_ordered|]; exact Hord. }
  destruct (IH _ Hord') as [Hfin Hlook].
  split; [exact Hfin|]. intros j v Hj.
  simpl. destruct (Hlook j v Hj) as [->|[-> Hbefore]]; [auto|].
  destruct op as [b bytes|pos]; simpl in Hbefore; [|auto].
  destruct (set_data_lookup b j bytes v s Hord Hbefore) as [[-> ->]|[Hne Hs]].
  - rewrite Z.eqb_refl. auto.
  - destruct (Z.eqb_spec b j); [congruence | auto].
Qed.

Lemma last_insert_well_sized (total j : Z) (ops : list CacheOp)
    (v : list byte) :
  Forall (well_sized total) ops -> last_insert j ops = Some v ->
  0 <= j /\ vector_size v = Z.min BLOCK_SIZE (total - j * BLOCK_SIZE).
Proof.
  induction 1 as [|op ops Hop Hops IH]; simpl; [discriminate|].
  destruct (last_insert j ops); [exact IH|].
  destruct op as [b bytes|pos]; [|discriminate].
  destruct (Z.eqb_spec b j) as [<-|]; [|discriminate].
  intros [= <-]. exact Hop.
Qed.

(** C4. After any run of insertions of blocks of the right length into an
    empty cache, a read of a range that [is_data_available] accepts returns
    exactly [size] bytes, and the byte at offset [start + k] is the byte of
    that offset in the block last inserted at the index that covers it.
    The range is one of [u64] offsets ([start + size] does not wrap around)
    and the resource leaves room for one block below 2^64. *)
Theorem read_after_inserts (s0 : NetworkStream) (ops : list CacheOp)
    (start size : Z) :
  0 < BLOCK_SIZE ->
  len s0 + BLOCK_SIZE <= 2 ^ 64 ->
  downloaded_data s0 = [] ->
  Forall (well_sized (len s0)) ops ->
  0 <= start -> 0 <= size -> start + size < 2 ^ 64 ->
  let s := run_ops ops s0 in
  is_data_available s start size = true ->
  exists res,
    get_data s start size = Some res
    /\ vector_size res = size
    /\ forall k, 0 <= k < size ->
         exists b_i,
           last_insert ((start + k) / BLOCK_SIZE) ops = Some b_i
           /\ (start + k) mod BLOCK_SIZE < vector_size b_i
           /\ nth_error res (Z.to_nat k)
              = nth_error b_i (Z.to_nat ((start + k) mod BLOCK_SIZE)).
Proof.
  intros Hbs Htot Hempty Hsized Hstart Hsize Hfit s Havail.
  destruct (run_ops_lookup ops s0) as [Hord Hlook];
    [rewrite Hempty; apply ordered_nil|].
  fold s in Hord, Hlook.
  assert (Hlast : forall j v, map_lookup j (downloaded_data s) = Some v ->
                              last_insert j ops = Some v).
  { intros j v Hj. destruct (Hlook j v Hj) as [H|[_ H]]; [exact H|].
    rewrite Hempty in H. discriminate. }
  destruct (run_ops_frame ops s0) as [Hlen Hready]. fold s in Hlen, Hready.
  destruct (Z.eq_dec size 0) as [->|Hpos].
  { exists []. unfold get_data. destruct (ready s); simpl.
    - repeat split. intros k Hk. lia.
    - repeat split. intros k Hk. lia. }
  apply is_data_available_exact in Havail; [|lia..].
  destruct Havail as (Hrdy & Hend & Hres).
  unfold get_data. rewrite Hrdy. cbn [negb].
  destruct (Z.eqb_spec size 0); [lia|].
  rewrite u64_small by (unfold in_u64; lia).
  assert (Hsb : start / BLOCK_SIZE * BLOCK_SIZE <= start)
    by (apply block_le_offset; lia).
  assert (Hsb' : start < (start / BLOCK_SIZE + 1) * BLOCK_SIZE)
    by (apply offset_lt_block; lia).
  assert (Hc0 : map_count (start / BLOCK_SIZE) (downloaded_data s) = true)
    by (apply Hres; lia).
  destruct (map_find_count _ _ Hc0) as (v0 & itr0 & Hfind).
  assert (Hitr : forall j, start / BLOCK_SIZE <= j ->
            map_lookup j (map_find (start / BLOCK_SIZE) (downloaded_data s))
            = map_lookup j (downloaded_data s))
    by (intros j Hj; apply map_find_lookup; assumption).
  pose proof (map_find_ordered (start / BLOCK_SIZE) _ Hord) as Hiord.
  destruct (get_data_loop_correct (len s) start (start + size - 1)
              Hbs ltac:(lia) ltac:(lia) ltac:(lia)
              (map_find (start / BLOCK_SIZE) (downloaded_data s))
              (start / BLOCK_SIZE))
    as (res & Hget & Hrlen & Hrnth).
  - exact Hiord.
  - rewrite Hfind. reflexivity.
  - apply Z.div_pos; lia.
  - lia.
  - exact Hsb'.
  - intros j [Hj1 Hj2]. apply map_count_lookup. rewrite Hitr by exact Hj1.
    apply map_count_lookup, Hres.
    + apply block_le_offset in Hj2; lia.
    + apply offset_lt_block in Hj1; lia.
  - intros j v Hj.
    assert (start / BLOCK_SIZE <= j).
    { apply (first_key_least _ _ j Hiord);
        [rewrite Hfind; reflexivity | eapply map_count_lookup_some, Hj]. }
    rewrite Hitr in Hj by assumption.
    rewrite Hlen.
    apply (last_insert_well_sized (len s0) j ops v Hsized), Hlast, Hj.
  - rewrite Hfind in *. exists res. split; [exact Hget|].
    split; [lia|]. intros k Hk.
    destruct (Hrnth (start + k) ltac:(lia)) as (v & Hv & Hvlen & Hvnth).
    exists v. split; [|split; [exact Hvlen|]].
    + apply Hlast. rewrite Hitr in Hv; [exact Hv|].
      apply block_le_offset; lia.
    + rewrite <- Hvnth. f_equal. lia.
Qed.

End RunProperties.

(** ** The order of doubles *)











(** ** The stream selection *)

Section SelectionProperties.
Context {C : Constants}.




Lemma backup_read_heads_cons (slot : option NetworkStream)
    (slots : list (option NetworkStream)) :
  backup_read_heads (slot :: slots)
  = match slot with
    | Some s => read_head s
    | None => 0
    end :: backup_read_heads slots.
Proof. reflexivity. Qed.



Lemma verdict_at_cons (slot : option NetworkStream)
    (slots : list (option NetworkStream)) (j : nat) (verdict : SlotVerdict) :
  verdict_at (slot :: slots) (S j) verdict <-> verdict_at slots j verdict.
Proof. reflexivity. Qed.

Lemma verdict_at_head (s : NetworkStream)
    (slots : list (option NetworkStream)) (verdict : SlotVerdict) :
  verdict_at (Some s :: slots) 0 verdict
  <-> examine s (read_head s) = verdict.
Proof.
  unfold verdict_at. simpl. split.
  - intros (s' & [= <-] & H). exact H.
  - intros H. eauto.
Qed.



End SelectionProperties.

Section ExamineProperties.
Context {C : Constants}.

Lemma examine_take_now (s : NetworkStream) (read_head_i : Z) :
  examine s read_head_i = TakeNow <-> initialization_urgent s.
Proof.
  unfold examine, initialization_urgent, live.
  destruct (quit_request s), (error s), (suspend_request s), (ready s);
    cbn [negb];
    try (split; [discriminate | intros [(? & ? & ?) ?]; discriminate]);
    try (split; auto; fail).
  destruct (whole_download s);
    [split; [discriminate | intros [_ ?]; discriminate]|].
  cbv zeta. destruct (_ =? _); [|destruct (_ =? _)];
    (split; [discriminate | intros [_ ?]; discriminate]).
Qed.

Lemma examine_reap (s : NetworkStream) (read_head_i : Z) :
  examine s read_head_i = Reap <-> quit_request s = true.
Proof.
  unfold examine.
  destruct (quit_request s); [split; auto|].
  destruct (error s); [split; discriminate|].
  destruct (suspend_request s); [split; discriminate|].
  destruct (ready s); cbn [negb]; [|split; discriminate].
  destruct (whole_download s); [split; discriminate|].
  cbv zeta. destruct (_ =? _); [|destruct (_ =? _)]; split; discriminate.
Qed.


(** The scan of [examine] from the cursor block, on a stream whose fields
    fit: it ends on the end of the forward window with the whole window
    resident, or inside the window on the block where the scan stops. *)
Lemma first_not_downloaded_stops (s : NetworkStream) :
  0 < MAX_FORWARD_READ_BLOCKS -> 0 < BLOCK_SIZE -> fits_u64 s ->
  let cursor_block := read_head s / BLOCK_SIZE in
  let r := first_not_downloaded s cursor_block in
  (r = cursor_block + MAX_FORWARD_READ_BLOCKS
   /\ forall j, cursor_block <= j < r ->
                j < block_num s /\ map_count j (downloaded_data s) = true)
  \/ (r < cursor_block + MAX_FORWARD_READ_BLOCKS
      /\ stops_at (downloaded_data s) (block_num s) cursor_block r).
Proof.
  intros Hfwd Hbs (Hrh & Hbn & Hwin). cbv zeta. unfold first_not_downloaded.
  apply first_not_downloaded_loop_stops.
  - pose proof (keys_from_le_length (read_head s / BLOCK_SIZE)
                  (downloaded_data s)). lia.
  - pose proof (Z.div_pos (read_head s) BLOCK_SIZE Hrh Hbs). lia.
  - exact Hbn.
  - lia.
Qed.




(** The block that the download then reads is the one that the selection
    saw: it lies inside the forward window. *)
Lemma block_to_read_in_window (s : NetworkStream) (b : Z) :
  0 < MAX_FORWARD_READ_BLOCKS -> 0 < BLOCK_SIZE -> fits_u64 s ->
  examine s (read_head s) = TakeNow
  \/ (exists m, examine s (read_head s) = Candidate m) ->
  block_to_read s (read_head s) = Some b ->
  read_head s / BLOCK_SIZE <= b
  < read_head s / BLOCK_SIZE + MAX_FORWARD_READ_BLOCKS.
Proof.
  intros Hfwd Hbs Hfit Hsel.
  pose proof (first_not_downloaded_stops s Hfwd Hbs Hfit) as Hscan.
  cbv zeta in Hscan. destruct Hfit as (Hrh & Hbn & Hwin).
  pose proof (Z.div_pos (read_head s) BLOCK_SIZE Hrh Hbs) as Hcb.
  unfold block_to_read.
  destruct Hsel as [Hnow|[m Hm]].
  - apply examine_take_now in Hnow. destruct Hnow as [_ ->].
    intros [= <-]. lia.
  - revert Hm. unfold examine.
    destruct (quit_request s); [discriminate|].
    destruct (error s); [discriminate|].
    destruct (suspend_request s); [discriminate|].
    destruct (ready s); cbn [negb]; [|discriminate].
    destruct (whole_download s); [discriminate|]. cbv zeta.
    rewrite (u64_small (read_head s / BLOCK_SIZE + _))
      by (unfold in_u64; lia).
    destruct (Z.eqb_spec (first_not_downloaded s (read_head s / BLOCK_SIZE))
                (block_num s)) as [|Hne1]; [discriminate|].
    destruct (Z.eqb_spec (first_not_downloaded s (read_head s / BLOCK_SIZE))
                (read_head s / BLOCK_SIZE + MAX_FORWARD_READ_BLOCKS))
      as [|Hne2]; [discriminate|].
    intros _.
    destruct Hscan as [(Hr & _)|(Hr & Hstop)]; [lia|].
    pose proof (block_reading_loop_stops (downloaded_data s)
                  (S (length (downloaded_data s))) (block_num s)
                  (read_head s / BLOCK_SIZE)) as Hloop.
    specialize (Hloop ltac:(pose proof (keys_from_le_length
                                          (read_head s / BLOCK_SIZE)
                                          (downloaded_data s)); lia)
                      Hcb Hbn).
    rewrite <- (stops_at_unique _ _ _ _ _ Hstop Hloop).
    destruct (_ =? _); [discriminate|]. intros [= <-].
    destruct Hstop as (Hlo & _). lia.
Qed.

End ExamineProperties.

Section IterationProperties.
Context {C : Constants} {L : CLibrary}.

Lemma select_loop_cons_none (i : nat) (slots : list (option NetworkStream))
    (read_heads : list Z) (min : double) (cur : option nat) :
  select_loop i (None :: slots) read_heads min cur
  = (None :: fst (select_loop (S i) slots (tl read_heads) min cur),
     snd (select_loop (S i) slots (tl read_heads) min cur)).
Proof. simpl. destruct (select_loop _ _ _ _ _). reflexivity. Qed.

Lemma select_loop_cons_some (i : nat) (s : NetworkStream)
    (slots : list (option NetworkStream)) (read_heads : list Z)
    (min : double) (cur : option nat) :
  select_loop i (Some s :: slots) read_heads min cur
  = match examine s (hd 0 read_heads) with
    | Reap =>
        (None :: fst (select_loop (S i) slots (tl read_heads) min cur),
         snd (select_loop (S i) slots (tl read_heads) min cur))
    | Skip =>
        (Some s :: fst (select_loop (S i) slots (tl read_heads) min cur),
         snd (select_loop (S i) slots (tl read_heads) min cur))
    | TakeNow => (Some s :: slots, Some i)
    | Candidate margin =>
        if dgt min margin
        then (Some s
                :: fst (select_loop (S i) slots (tl read_heads) margin
                                    (Some i)),
              snd (select_loop (S i) slots (tl read_heads) margin (Some i)))
        else (Some s :: fst (select_loop (S i) slots (tl read_heads) min cur),
              snd (select_loop (S i) slots (tl read_heads) min cur))
    end.
Proof.
  simpl. destruct (examine s (hd 0 read_heads)) as [| | |margin];
    try (destruct (select_loop _ _ _ _ _); reflexivity); [reflexivity|].
  destruct (dgt min margin); destruct (select_loop _ _ _ _ _); reflexivity.
Qed.

(** The loop leaves every slot as it is, but for the streams it reaps. *)
Lemma select_loop_slots (slots : list (option NetworkStream)) :
  forall (i : nat) (read_heads : list Z) (min : double) (cur : option nat)
         (k : nat),
    nth_error (fst (select_loop i slots read_heads min cur)) k
    = nth_error slots k
    \/ (nth_error (fst (select_loop i slots read_heads min cur)) k
        = Some None
        /\ exists s, nth_error slots k = Some (Some s)
                     /\ quit_request s = true).
Proof.
  induction slots as [|slot slots IH]; intros i read_heads min cur k;
    [left; reflexivity|].
  destruct slot as [s|].
  - rewrite select_loop_cons_some.
    destruct (examine s (hd 0 read_heads)) as [| | |margin] eqn:Hs.
    + destruct k as [|k]; simpl; [|apply IH].
      right. split; [reflexivity|]. exists s. split; [reflexivity|].
      eapply examine_reap, Hs.
    + destruct k as [|k]; simpl; [auto | apply IH].
    + auto.
    + destruct (dgt min margin); destruct k as [|k]; simpl;
        (auto || apply IH).
  - rewrite select_loop_cons_none. destruct k as [|k]; simpl; [auto | apply IH].
Qed.

(** A slot that the loop selects holds a stream that it took at once or
    found a candidate, and keeps it. *)
Lemma select_loop_selected (slots : list (option NetworkStream)) :
  forall (i : nat) (read_heads : list Z) (min : double) (cur : option nat)
         (index : nat),
    snd (select_loop i slots read_heads min cur) = Some index ->
    cur = Some index
    \/ ((i <= index)%nat
        /\ exists s,
             nth_error slots (index - i) = Some (Some s)
             /\ nth_error (fst (select_loop i slots read_heads min cur))
                          (index - i) = Some (Some s)
             /\ (examine s (nth (index - i) read_heads 0) = TakeNow
                 \/ exists m,
                      examine s (nth (index - i) read_heads 0)
                      = Candidate m)).
Proof.
  induction slots as [|slot slots IH]; intros i read_heads min cur index;
    [simpl; auto|].
  assert (Hrec : forall min' cur' front,
            snd (select_loop (S i) slots (tl read_heads) min' cur')
            = Some index ->
            cur' = Some index
            \/ ((i <= index)%nat
                /\ exists s,
                     nth_error (slot :: slots) (index - i) = Some (Some s)
                     /\ nth_error
                          (front
                             :: fst (select_loop (S i) slots (tl read_heads)
                                                 min' cur'))
                          (index - i) = Some (Some s)
                     /\ (examine s (nth (index - i) read_heads 0) = TakeNow
                         \/ exists m,
                              examine s (nth (index - i) read_heads 0)
                              = Candidate m))).
  { intros min' cur' front Hsel.
    destruct (IH _ _ _ _ _ Hsel) as [H|(Hle & s & H1 & H2 & H3)]; [auto|].
    right. split; [lia|]. exists s.
    replace (index - i)%nat with (S (index - S i)) by lia.
    simpl. repeat split; try assumption.
    destruct read_heads as [|h t]; simpl in *; [|exact H3].
    destruct (index - S i)%nat; exact H3. }
  destruct slot as [s|].
  - rewrite select_loop_cons_some.
    destruct (examine s (hd 0 read_heads)) as [| | |margin] eqn:Hs;
      simpl fst; simpl snd.
    + apply Hrec.
    + apply Hrec.
    + intros [= <-]. right. split; [lia|]. exists s.
      rewrite Nat.sub_diag. simpl. repeat split.
      left. destruct read_heads; exact Hs.
    + destruct (dgt min margin); simpl fst; simpl snd; intros Hsel;
        [|apply Hrec, Hsel].
      destruct (Hrec _ _ (Some s) Hsel) as [[= <-]|H]; [|auto].
      right. split; [lia|]. exists s.
      rewrite Nat.sub_diag. simpl. repeat split.
      right. exists margin. destruct read_heads; exact Hs.
  - rewrite select_loop_cons_none. simpl fst; simpl snd. apply Hrec.
Qed.

(** Once [i] is past the body, further passes of [store_blocks] change
    nothing: [data.size()] passes are all the loop can make. *)
Lemma store_blocks_enough (body : list byte) (passes : nat) :
  forall (i : Z) (s : NetworkStream),
    0 < BLOCK_SIZE ->
    vector_size body <= i + Z.of_nat passes ->
    store_blocks (S passes) i body s = store_blocks passes i body s.
Proof.
  induction passes as [|passes IH]; intros i s Hbs Hi.
  - simpl. destruct (Z.ltb_spec i (vector_size body)); [lia | reflexivity].
  - change (store_blocks (S (S passes)) i body s)
      with (if i <? vector_size body
            then store_blocks (S passes) (i + BLOCK_SIZE) body
                   (set_data (i / BLOCK_SIZE)
                      (subvector body i
                         (Z.min (i + BLOCK_SIZE) (vector_size body))) s)
            else s).
    change (store_blocks (S passes) i body s)
      with (if i <? vector_size body
            then store_blocks passes (i + BLOCK_SIZE) body
                   (set_data (i / BLOCK_SIZE)
                      (subvector body i
                         (Z.min (i + BLOCK_SIZE) (vector_size body))) s)
            else s).
    destruct (i <? vector_size body); [|reflexivity].
    apply IH; lia.
Qed.

Lemma backup_read_heads_nth (streams : list (option NetworkStream))
    (j : nat) (s : NetworkStream) :
  nth_error streams j = Some (Some s) ->
  nth j (backup_read_heads streams) 0 = read_head s.
Proof.
  revert j. induction streams as [|slot streams IH]; intros j Hj;
    [destruct j; discriminate|].
  destruct j as [|j]; simpl in *; [|apply IH, Hj].
  injection Hj as ->. reflexivity.
Qed.

Lemma store_slot_nth (streams : list (option NetworkStream)) (i j : nat)
    (s : NetworkStream) :
  nth_error (store_slot i s streams) j
  = if (j =? i)%nat
    then match nth_error streams j with
         | Some _ => Some (Some s)
         | None => None
         end
    else nth_error streams j.
Proof.
  revert i j. induction streams as [|slot streams IH]; intros i j.
  - destruct i, j; simpl; try reflexivity. destruct (_ =? _)%nat; reflexivity.
  - destruct i as [|i], j as [|j]; simpl; try reflexivity. apply IH.
Qed.

Lemma map_count_tl (j : Z) (m : block_map) :
  map_count j (erase_begin m) = true -> map_count j m = true.
Proof.
  destruct m as [|[k v] m]; simpl; [auto|].
  intros ->. destruct (k =? j); reflexivity.
Qed.

Lemma map_count_removelast (j : Z) (m : block_map) :
  map_count j (erase_last m) = true -> map_count j m = true.
Proof.
  unfold erase_last. induction m as [|[k v] m IH]; [auto|].
  destruct m as [|q m]; [discriminate|].
  change (removelast ((k, v) :: q :: m))
    with ((k, v) :: removelast (q :: m)).
  rewrite !(map_count_cons j k v). destruct (k =? j); [auto | exact IH].
Qed.

(** [set_data] adds no other block than the one it is given. *)
Lemma set_data_adds (block j : Z) (bytes : list byte) (s : NetworkStream) :
  map_count j (downloaded_data (set_data block bytes s)) = true ->
  j = block \/ map_count j (downloaded_data s) = true.
Proof.
  intros Hj.
  assert (Hm : map_count j (map_assign block bytes (downloaded_data s))
               = true).
  { revert Hj. unfold set_data.
    destruct (MAX_CACHE_BLOCKS <? _); [|auto].
    destruct (first_key _); [|auto].
    destruct (_ <? _); simpl;
      [apply map_count_tl | apply map_count_removelast]. }
  rewrite map_count_assign in Hm.
  destruct (Z.eqb_spec j block); [left | right]; auto.
Qed.

Lemma read_content_range_cache (result : HttpResult) (s : NetworkStream) :
  downloaded_data (read_content_range result s) = downloaded_data s.
Proof.
  unfold read_content_range.
  destruct (after_slash _); [|reflexivity].
  destruct (is_empty _); reflexivity.
Qed.

(** A ranged download adds at most the block it set out to read. *)
Lemma ranged_fetch_adds (net : HttpClient) (s : NetworkStream)
    (read_head_i j : Z) :
  map_count j (downloaded_data (ranged_fetch net s read_head_i)) = true ->
  map_count j (downloaded_data s) = true
  \/ block_to_read s read_head_i = Some j.
Proof.
  unfold ranged_fetch.
  destruct (block_to_read s read_head_i) as [b|]; [|auto]. cbv zeta.
  destruct (fail _); cbn [negb]; [auto|].
  match goal with
  | |- context [if ?c then set_error true ?t else _] =>
      destruct c; [simpl; destruct (negb (ready _));
                   rewrite ?read_content_range_cache; auto|]
  end.
  intros Hj. simpl in Hj. apply set_data_adds in Hj.
  destruct Hj as [->|Hj]; [auto|]. left. revert Hj.
  destruct (negb (ready _)); rewrite ?read_content_range_cache; auto.
Qed.

End IterationProperties.

(** Exact arithmetic puts the margin of a needed block that is not the
    cursor block between 0 and 100, far from the bound 1000 of the
    selection loop. *)
Lemma margin_exact_below_100 {C : Constants} (s : NetworkStream) (i : Z) :
  0 < BLOCK_SIZE -> 0 <= read_head s -> 0 < len s ->
  block_num s = (len s + BLOCK_SIZE - 1) / BLOCK_SIZE ->
  next_needed s i -> i <> read_head s / BLOCK_SIZE ->
  0 < (i * BLOCK_SIZE - read_head s) * 100 < 100 * len s.
Proof.
  intros Hbs Hrh Hlen Hbn (Hlo & _ & Hi & _) Hne.
  assert (Hib : i + 1 <= (len s + BLOCK_SIZE - 1) / BLOCK_SIZE) by lia.
  apply block_le_offset in Hib; [|assumption].
  assert (read_head s < (read_head s / BLOCK_SIZE + 1) * BLOCK_SIZE)
    by (apply offset_lt_block; lia).
  assert (Hle : read_head s / BLOCK_SIZE + 1 <= i) by lia.
  nia.
Qed.

(** The read head of a stream whose block count is the one of its length
    is not beyond the last block as long as it is not beyond the length. *)
Lemma cursor_within_ready {C : Constants} (s : NetworkStream) :
  0 < BLOCK_SIZE -> 0 <= read_head s <= len s ->
  block_num s = (len s + BLOCK_SIZE - 1) / BLOCK_SIZE ->
  cursor_within s.
Proof.
  intros Hbs Hhead Hnum. unfold cursor_within. rewrite Hnum.
  apply Z.div_le_mono; lia.
Qed.

Section SchedulerTheorems.
Context {C : Constants} {L : CLibrary}.


(** C3. A pass of the downloader thread never fetches, for a ranged
    stream, a block at or beyond the end of the forward window of the read
    head that it backed up: the block it sets out to read is below
    [cursor_block + MAX_FORWARD_READ_BLOCKS], and so is every block that
    the pass adds to the cache of a ranged stream. *)
Theorem forward_window (net : HttpClient)
    (streams : list (option NetworkStream)) :
  0 < MAX_FORWARD_READ_BLOCKS -> 0 < BLOCK_SIZE ->
  (forall j s, nth_error streams j = Some (Some s) -> fits_u64 s) ->
  (forall index cur_stream b,
      snd (select_stream streams) = Some index ->
      nth_error (fst (select_stream streams)) index
      = Some (Some cur_stream) ->
      whole_download cur_stream = false ->
      block_to_read cur_stream (nth index (backup_read_heads streams) 0)
      = Some b ->
      b < nth index (backup_read_heads streams) 0 / BLOCK_SIZE
          + MAX_FORWARD_READ_BLOCKS)
  /\ (forall i s s',
        nth_error streams i = Some (Some s) ->
        whole_download s = false ->
        nth_error (downloader_iteration net streams) i = Some (Some s') ->
        forall k,
          map_count k (downloaded_data s') = true ->
          map_count k (downloaded_data s) = true
          \/ k < read_head s / BLOCK_SIZE + MAX_FORWARD_READ_BLOCKS).
Proof.
  intros Hfwd Hbs Hfits.
  assert (Hsel : forall index,
            snd (select_stream streams) = Some index ->
            exists s,
              nth_error streams index = Some (Some s)
              /\ nth_error (fst (select_stream streams)) index
                 = Some (Some s)
              /\ nth index (backup_read_heads streams) 0 = read_head s
              /\ forall b, block_to_read s (read_head s) = Some b ->
                           b < read_head s / BLOCK_SIZE
                               + MAX_FORWARD_READ_BLOCKS).
  { intros index Hi. unfold select_stream in *.
    destruct (select_loop_selected streams 0 _ _ None index Hi)
      as [|(_ & s & Hs & Hafter & Hv)]; [discriminate|].
    rewrite Nat.sub_0_r in *.
    pose proof (backup_read_heads_nth streams index s Hs) as Hrh.
    rewrite Hrh in Hv. exists s. repeat split; try assumption.
    intros b Hb.
    apply (block_to_read_in_window s b Hfwd Hbs (Hfits index s Hs) Hv Hb). }
  split.
  - intros index cur_stream b Hi Hcur _ Hb.
    destruct (Hsel index Hi) as (s & _ & Hafter & Hrh & Hwin).
    rewrite Hafter in Hcur. injection Hcur as <-.
    rewrite Hrh in *. apply Hwin, Hb.
  - intros i s s' Hs Hranged Hs' k Hk.
    unfold downloader_iteration in Hs'.
    fold (select_stream streams) in Hs'.
    pose proof (select_loop_slots streams 0 (backup_read_heads streams)
                  (double_of_Z 1000) None i) as Hslot.
    fold (select_stream streams) in Hslot.
    specialize (Hsel) as Hsel'.
    destruct (select_stream streams) as [after selected] eqn:E.
    simpl fst in *. simpl snd in *.
    assert (Hkeep : nth_error after i = Some (Some s') -> s' = s).
    { intros H. destruct Hslot as [Hsame|[Hnone _]]; congruence. }
    destruct selected as [index|];
      [|left; rewrite (Hkeep Hs') in Hk; exact Hk].
    destruct (Hsel' index eq_refl) as (t & Ht & Hafter & Hrh & Hwin).
    rewrite (nth_error_nth _ _ None Hafter) in Hs'.
    destruct (Nat.eq_dec i index) as [->|Hne].
    + assert (t = s) as -> by congruence.
      rewrite Hranged, store_slot_nth, Nat.eqb_refl, Hafter in Hs'.
      injection Hs' as <-. rewrite Hrh in Hk.
      destruct (ranged_fetch_adds net s (read_head s) k Hk) as [H|H];
        [left; exact H | right; apply Hwin, H].
    + left. rewrite <- (Hkeep) ; [exact Hk|].
      destruct (whole_download t); rewrite store_slot_nth in Hs';
        destruct (Nat.eqb_spec i index); (contradiction || exact Hs').
Qed.

End SchedulerTheorems.

(** ** The fetch paths *)

Section FetchTheorems.
Context {C : Constants} {L : CLibrary}.

(** C6, as the code has it.  The status code is looked at on the whole-mode
    path only.  A whole-mode fetch fails when the call reports a failure,
    or its status is not a success, or its body is empty: then [error] is
    set; 204 and 404 set [livestream_eof] as well, 403 sets
    [livestream_private] as well, and any other code leaves both flags as
    they were.  A ranged fetch fails when the call reports a failure: then
    [error] is set and both flags are left as they were, whatever the
    status code. *)
Theorem fetch_failure_flags (net : HttpClient) (s : NetworkStream)
    (read_head_i : Z) :
  (let result := net (url s) None in
   let code := status_code result in
   let s' := whole_download_fetch net s in
   fail result = true \/ status_code_is_success result = false
   \/ data result = [] ->
   error s' = true
   /\ (code = 204 \/ code = 404 ->
       livestream_eof s' = true
       /\ livestream_private s' = livestream_private s)
   /\ (code = 403 ->
       livestream_private s' = true /\ livestream_eof s' = livestream_eof s)
   /\ (code <> 204 -> code <> 404 -> code <> 403 ->
       livestream_eof s' = livestream_eof s
       /\ livestream_private s' = livestream_private s))
  /\ (forall b,
        block_to_read s read_head_i = Some b ->
        fail (net (url s) (Some (ranged_range s b))) = true ->
        let s' := ranged_fetch net s read_head_i in
        error s' = true
        /\ livestream_eof s' = livestream_eof s
        /\ livestream_private s' = livestream_private s).
Proof.
  split.
  - cbv zeta. intros Hfails. unfold whole_download_fetch. cbv zeta.
    assert (Hbranch : negb (fail (net (url s) None))
                      && status_code_is_success (net (url s) None)
                      && negb (vector_size (data (net (url s) None)) =? 0)
                      = false).
    { destruct Hfails as [-> | [-> | ->]].
      - reflexivity.
      - apply andb_false_intro1, andb_false_intro2. reflexivity.
      - apply andb_false_intro2. reflexivity. }
    rewrite Hbranch.
    unfold HTTP_STATUS_CODE_NO_CONTENT, HTTP_STATUS_CODE_NOT_FOUND,
      HTTP_STATUS_CODE_FORBIDDEN.
    destruct (Z.eqb_spec (status_code (net (url s) None)) 204) as [E1|E1];
      destruct (Z.eqb_spec (status_code (net (url s) None)) 404) as [E2|E2];
      destruct (Z.eqb_spec (status_code (net (url s) None)) 403) as [E3|E3];
      cbn [orb]; simpl; repeat split; intros; (reflexivity || lia).
  - intros b Hb Hfail. cbv zeta. unfold ranged_fetch. rewrite Hb.
    unfold ranged_range in Hfail. cbv zeta in *. rewrite Hfail.
    simpl. auto.
Qed.

(** C10. A whole-mode fetch whose HTTP call reports success with a status
    2xx and an empty body goes the way of a failure: [error] is set, [len]
    and [block_num] keep their values, [ready] keeps its value (false on
    the stream the selection picked), and the cache is left as it was. *)
Theorem whole_download_empty_body (net : HttpClient) (s : NetworkStream) :
  fail (net (url s) None) = false ->
  status_code_is_success (net (url s) None) = true ->
  data (net (url s) None) = [] ->
  let s' := whole_download_fetch net s in
  error s' = true
  /\ len s' = len s
  /\ block_num s' = block_num s
  /\ ready s' = ready s
  /\ downloaded_data s' = downloaded_data s.
Proof.
  intros Hfail Hcode Hbody. cbv zeta. unfold whole_download_fetch. cbv zeta.
  rewrite Hfail, Hcode, Hbody. cbn [negb andb vector_size length].
  change (Z.of_nat 0 =? 0) with true. cbn [negb].
  destruct (status_code (net (url s) None) =? HTTP_STATUS_CODE_NO_CONTENT),
    (status_code (net (url s) None) =? HTTP_STATUS_CODE_NOT_FOUND),
    (status_code (net (url s) None) =? HTTP_STATUS_CODE_FORBIDDEN);
    simpl; repeat split.
Qed.

End FetchTheorems.

(** ** seek_network_stream *)

(** C9. A seek on a ready stream with [SEEK_SET], [SEEK_CUR] or [SEEK_END]
    computes the new position in [u64]; when it is beyond [len] the seek
    returns -1 and leaves [read_head] as it was, otherwise [read_head]
    becomes the new position, which is returned (as an [int64_t]: the
    position itself when it is below 2^63).  Either way the cache is left as
    it was. *)
Theorem seek_keeps_cache (s : NetworkStream) (offset whence : Z) :
  ready s = true ->
  whence = SEEK_SET \/ whence = SEEK_CUR \/ whence = SEEK_END ->
  let new := u64 (seek_target s offset whence) in
  exists result s',
    seek_network_stream s offset whence = Some (result, s')
    /\ downloaded_data s' = downloaded_data s
    /\ (len s < new -> result = -1 /\ read_head s' = read_head s)
    /\ (new <= len s ->
        read_head s' = new
        /\ result = s64_of_u64 new
        /\ (new < 2 ^ 63 -> result = new)).
Proof.
  intros Hready Hwhence new.
  assert (Hpos : (if whence =? SEEK_SET then u64 offset
                  else if whence =? SEEK_CUR then u64 (read_head s + offset)
                  else if whence =? SEEK_END then u64 (len s + offset)
                  else 0) = new).
  { unfold new, seek_target.
    destruct Hwhence as [-> | [-> | ->]]; reflexivity. }
  assert (Hsize : (whence =? AVSEEK_SIZE) = false).
  { destruct Hwhence as [-> | [-> | ->]]; reflexivity. }
  unfold seek_network_stream. rewrite Hready. cbn [negb]. cbv zeta.
  rewrite Hsize. cbn [len read_head set_network_waiting_status].
  rewrite Hpos.
  destruct (Z.ltb_spec (len s) new) as [Hlt|Hle].
  - eexists _, _. split; [reflexivity|]. split; [reflexivity|].
    split; [auto | lia].
  - eexists _, _. split; [reflexivity|]. split; [reflexivity|].
    split; [lia|]. intros _. split; [reflexivity|]. split; [reflexivity|].
    intros Hsmall. simpl. unfold s64_of_u64.
    assert (Hnew : 0 <= new < 2 ^ 64) by apply u64_range.
    rewrite Z.mod_small by exact Hnew.
    destruct (Z.ltb_spec new (2 ^ 63)); [reflexivity | lia].
Qed.

(** ** The test of a sound cache *)

Lemma sortedb_sound (m : block_map) : sortedb m = true -> ordered m.
Proof.
  unfold ordered. induction m as [|[k v] m IH]; simpl; intros Hs.
  - constructor.
  - apply andb_true_iff in Hs. destruct Hs as [Hall Hrest].
    constructor; [apply IH; exact Hrest|].
    rewrite forallb_forall in Hall. apply Forall_forall.
    intros j Hj. apply in_map_iff in Hj. destruct Hj as ([k' v'] & <- & Hin).
    apply Hall in Hin. simpl in *. lia.
Qed.

Lemma cache_okb_sound {C : Constants} (s : NetworkStream) :
  cache_okb s = true -> cache_ok s.
Proof.
  unfold cache_okb, cache_ok. intros Hs.
  apply andb_true_iff in Hs. destruct Hs as [Hsorted Hall].
  split; [apply sortedb_sound; exact Hsorted|].
  rewrite forallb_forall in Hall. intros j v Hj.
  assert (Hin : In (j, v) (downloaded_data s)).
  { clear Hsorted Hall. revert Hj.
    induction (downloaded_data s) as [|[k' v'] m IH]; simpl;
      [discriminate|].
    destruct (Z.eqb_spec k' j) as [->|_].
    - intros [= ->]. left. reflexivity.
    - intros Hj. right. apply IH. exact Hj. }
  apply Hall in Hin. cbn [fst snd] in Hin.
  apply andb_true_iff in Hin. destruct Hin as [H0 Hsz]. lia.
Qed.

Lemma option_eq_dec_nat (a b : option nat) : {a = b} + {a <> b}.
Proof. decide equality. apply Nat.eq_dec. Qed.

(** * Further properties *)

(** ** add_stream *)

Lemma add_stream_loop_placed (stream : NetworkStream)
    (streams placed : list (option NetworkStream)) :
  add_stream_loop stream streams = Some placed ->
  exists i,
    nth_error streams i = Some None
    /\ (forall j, (j < i)%nat -> exists s, nth_error streams j = Some (Some s))
    /\ nth_error placed i = Some (Some stream)
    /\ (forall j, j <> i -> nth_error placed j = nth_error streams j)
    /\ length placed = length streams.
Proof.
  revert placed. induction streams as [|slot streams IH]; intros placed;
    [discriminate|].
  destruct slot as [s|]; simpl.
  - destruct (add_stream_loop stream streams) as [rest|]; [|discriminate].
    intros [= <-]. destruct (IH rest eq_refl) as (i & H1 & H2 & H3 & H4 & H5).
    exists (S i). simpl. split; [exact H1|]. split; [|split; [exact H3|]].
    + intros [|j] Hj; simpl; [eauto | apply H2; lia].
    + split; [|lia].
      intros [|j] Hj; simpl; [reflexivity | apply H4; lia].
  - intros [= <-]. exists 0%nat. simpl. split; [reflexivity|].
    split; [intros j Hj; lia|]. split; [reflexivity|]. split; [|reflexivity].
    intros [|j] Hj; simpl; [lia | reflexivity].
Qed.

Lemma add_stream_loop_full (stream : NetworkStream)
    (streams : list (option NetworkStream)) :
  add_stream_loop stream streams = None ->
  forall j, (j < length streams)%nat ->
            exists s, nth_error streams j = Some (Some s).
Proof.
  induction streams as [|slot streams IH]; simpl; intros H j Hj; [lia|].
  destruct slot as [s|]; [|discriminate].
  destruct (add_stream_loop stream streams); [discriminate|].
  destruct j as [|j]; simpl; [eauto | apply IH; [reflexivity | lia]].
Qed.

(** X1. [add_stream] puts the stream in the first free slot, or in a new
    slot at the end when every slot is taken, and leaves every other slot as
    it was: the slots before the one it takes all hold a stream, and the
    list grows by one only when it had no free slot. *)
Theorem add_stream_first_free (stream : NetworkStream)
    (streams : list (option NetworkStream)) :
  exists i,
    (i <= length streams)%nat
    /\ (forall j, (j < i)%nat -> exists s, nth_error streams j = Some (Some s))
    /\ ((i < length streams)%nat -> nth_error streams i = Some None)
    /\ nth_error (add_stream stream streams) i = Some (Some stream)
    /\ (forall j, j <> i ->
                  nth_error (add_stream stream streams) j
                  = nth_error streams j)
    /\ length (add_stream stream streams) = Nat.max (length streams) (S i).
Proof.
  unfold add_stream.
  destruct (add_stream_loop stream streams) as [placed|] eqn:E.
  - destruct (add_stream_loop_placed _ _ _ E) as (i & H1 & H2 & H3 & H4 & H5).
    assert (i < length streams)%nat
      by (apply nth_error_Some; rewrite H1; discriminate).
    exists i. split; [lia|]. split; [exact H2|]. split; [auto|].
    split; [exact H3|]. split; [exact H4 | lia].
  - exists (length streams). split; [lia|].
    split; [apply (add_stream_loop_full _ _ E)|].
    split; [lia|]. split; [|split].
    + rewrite nth_error_app2 by lia. rewrite Nat.sub_diag. reflexivity.
    + intros j Hj. destruct (Nat.lt_ge_cases j (length streams)).
      * apply nth_error_app1; assumption.
      * rewrite nth_error_app2 by lia.
        destruct (j - length streams)%nat as [|k] eqn:Ek; [lia|].
        simpl. rewrite (proj2 (nth_error_None streams j)) by lia.
        destruct k; reflexivity.
    + rewrite length_app. simpl. lia.
Qed.

(** ** One pass of the downloader thread *)

Section PassProperties.
Context {C : Constants} {L : CLibrary}.

Lemma select_loop_length (slots : list (option NetworkStream)) :
  forall (i : nat) (read_heads : list Z) (min : double) (cur : option nat),
    length (fst (select_loop i slots read_heads min cur)) = length slots.
Proof.
  induction slots as [|slot slots IH]; intros i read_heads min cur;
    [reflexivity|].
  destruct slot as [s|].
  - rewrite select_loop_cons_some.
    destruct (examine s (hd 0 read_heads)) as [| | |margin];
      try (simpl; f_equal; apply IH); try reflexivity.
    destruct (dgt min margin); simpl; f_equal; apply IH.
  - rewrite select_loop_cons_none. simpl. f_equal. apply IH.
Qed.

Lemma store_slot_length (streams : list (option NetworkStream)) :
  forall (i : nat) (s : NetworkStream),
    length (store_slot i s streams) = length streams.
Proof.
  induction streams as [|slot streams IH]; intros i s;
    destruct i; simpl; auto.
Qed.

Lemma examine_eligible (s : NetworkStream) (read_head_i : Z) :
  examine s read_head_i = TakeNow
  \/ (exists m, examine s read_head_i = Candidate m) ->
  quit_request s = false /\ error s = false /\ suspend_request s = false
  /\ (whole_download s = true -> ready s = false).
Proof.
  unfold examine.
  destruct (quit_request s); [intros [?|[? ?]]; discriminate|].
  destruct (error s); [intros [?|[? ?]]; discriminate|].
  destruct (suspend_request s); [intros [?|[? ?]]; discriminate|].
  destruct (ready s); cbn [negb]; [|auto].
  destruct (whole_download s); [intros [?|[? ?]]; discriminate|].
  repeat split; auto; discriminate.
Qed.

(** The slots of a pass, slot by slot: the slot of the selected stream
    holds the stream after its fetch, and every other slot is as it was or
    was emptied because its stream asked to quit. *)
Lemma downloader_iteration_slots (net : HttpClient)
    (streams : list (option NetworkStream)) (i : nat) :
  snd (select_stream streams) <> Some i ->
  nth_error (downloader_iteration net streams) i = nth_error streams i
  \/ (nth_error (downloader_iteration net streams) i = Some None
      /\ exists s, nth_error streams i = Some (Some s)
                   /\ quit_request s = true).
Proof.
  intros Hsel. unfold downloader_iteration.
  fold (select_stream streams).
  pose proof (select_loop_slots streams 0 (backup_read_heads streams)
                (double_of_Z 1000) None i) as Hslot.
  fold (select_stream streams) in Hslot.
  destruct (select_stream streams) as [after selected].
  simpl fst in *. simpl snd in *.
  destruct selected as [index|]; [|exact Hslot].
  assert (Hne : i <> index) by congruence.
  destruct (nth index after None) as [cur|]; [|exact Hslot].
  destruct (whole_download cur); rewrite store_slot_nth;
    destruct (Nat.eqb_spec i index); (contradiction || exact Hslot).
Qed.

Lemma select_stream_selected (streams : list (option NetworkStream))
    (i : nat) :
  snd (select_stream streams) = Some i ->
  exists s,
    nth_error streams i = Some (Some s)
    /\ (examine s (read_head s) = TakeNow
        \/ exists m, examine s (read_head s) = Candidate m).
Proof.
  intros Hi. unfold select_stream in Hi.
  destruct (select_loop_selected streams 0 _ _ None i Hi)
    as [|(_ & s & Hs & _ & Hv)]; [discriminate|].
  rewrite Nat.sub_0_r in *.
  rewrite (backup_read_heads_nth streams i s Hs) in Hv. eauto.
Qed.

(** The loop empties the slot of a stream that asked to quit, unless it
    broke off before on a stream that is not ready. *)
Lemma select_loop_reaps (slots : list (option NetworkStream)) :
  forall (i : nat) (min : double) (cur : option nat) (k : nat)
         (s : NetworkStream),
    nth_error slots k = Some (Some s) -> quit_request s = true ->
    (forall j, (j < k)%nat -> ~ verdict_at slots j TakeNow) ->
    nth_error (fst (select_loop i slots (backup_read_heads slots) min cur)) k
    = Some None.
Proof.
  induction slots as [|slot slots IH]; intros i min cur k s Hs Hq Hnow;
    [destruct k; discriminate|].
  rewrite backup_read_heads_cons.
  destruct k as [|k].
  - simpl in Hs. injection Hs as ->.
    rewrite select_loop_cons_some. simpl hd.
    rewrite (proj2 (examine_reap s (read_head s)) Hq). reflexivity.
  - assert (Hrec : forall min' cur',
              nth_error (fst (select_loop (S i) slots
                                (backup_read_heads slots) min' cur')) k
              = Some None).
    { intros min' cur'. apply (IH (S i) min' cur' k s Hs Hq).
      intros j Hj Hv. apply (Hnow (S j)); [lia|].
      apply verdict_at_cons, Hv. }
    destruct slot as [t|].
    + rewrite select_loop_cons_some. simpl hd. simpl tl.
      destruct (examine t (read_head t)) as [| | |margin] eqn:Ht;
        try (simpl; apply Hrec).
      * exfalso. apply (Hnow 0%nat); [lia|]. apply verdict_at_head, Ht.
      * destruct (dgt min margin); simpl; apply Hrec.
    + rewrite select_loop_cons_none. simpl. apply Hrec.
Qed.

(** X2. A pass works on one stream at most: it keeps the number of slots,
    and every slot but the one of the selected stream is left as it was or
    was emptied because its stream was flagged [quit_request]. *)
Theorem pass_touches_one_slot (net : HttpClient)
    (streams : list (option NetworkStream)) :
  length (downloader_iteration net streams) = length streams
  /\ forall i,
       snd (select_stream streams) <> Some i ->
       nth_error (downloader_iteration net streams) i = nth_error streams i
       \/ (nth_error (downloader_iteration net streams) i = Some None
           /\ exists s, nth_error streams i = Some (Some s)
                        /\ quit_request s = true).
Proof.
  split; [|intros i; apply downloader_iteration_slots].
  unfold downloader_iteration.
  pose proof (select_loop_length streams 0 (backup_read_heads streams)
                (double_of_Z 1000) None) as Hlen.
  destruct (select_loop 0 streams _ _ None) as [after selected].
  simpl in Hlen. destruct selected as [index|]; [|exact Hlen].
  destruct (nth index after None) as [cur|]; [|exact Hlen].
  destruct (whole_download cur); rewrite store_slot_length; exact Hlen.
Qed.

(** X3. Errors and suspensions are sticky for the downloader: a stream
    flagged [error] or [suspend_request], or a whole-mode stream that is
    ready, comes out of a pass exactly as it was (no fetch, no flag or
    cache change), as long as it does not ask to quit. *)
Theorem pass_skips_flagged_stream (net : HttpClient)
    (streams : list (option NetworkStream)) (i : nat) (s : NetworkStream) :
  nth_error streams i = Some (Some s) ->
  quit_request s = false ->
  error s = true \/ suspend_request s = true
  \/ (whole_download s = true /\ ready s = true) ->
  nth_error (downloader_iteration net streams) i = Some (Some s).
Proof.
  intros Hs Hquit Hflag.
  destruct (downloader_iteration_slots net streams i)
    as [Hsame|(_ & t & Ht & Hq)].
  - intros Hsel. destruct (select_stream_selected streams i Hsel)
      as (t & Ht & Hv).
    assert (t = s) as -> by congruence.
    apply examine_eligible in Hv. destruct Hv as (_ & He & Hsus & Hw).
    destruct Hflag as [H|[H|[H1 H2]]]; try congruence.
    rewrite (Hw H1) in H2. discriminate.
  - rewrite Hsame. exact Hs.
  - assert (t = s) by congruence. congruence.
Qed.

(** X4. A stream flagged [quit_request] is never fetched: after the pass
    its slot is empty, or still holds it unchanged when the loop broke off
    before reaching it; and the slot is empty whenever no stream in an
    earlier slot is initialization-urgent. *)
Theorem pass_reaps_quit_stream (net : HttpClient)
    (streams : list (option NetworkStream)) (i : nat) (s : NetworkStream) :
  nth_error streams i = Some (Some s) ->
  quit_request s = true ->
  (nth_error (downloader_iteration net streams) i = Some None
   \/ nth_error (downloader_iteration net streams) i = Some (Some s))
  /\ ((forall j t, (j < i)%nat -> nth_error streams j = Some (Some t) ->
                   ~ initialization_urgent t) ->
      nth_error (downloader_iteration net streams) i = Some None).
Proof.
  intros Hs Hquit.
  assert (Hsel : snd (select_stream streams) <> Some i).
  { intros Hsel. destruct (select_stream_selected streams i Hsel)
      as (t & Ht & Hv).
    assert (t = s) as -> by congruence.
    apply examine_eligible in Hv. destruct Hv as (Hq & _). congruence. }
  split.
  - destruct (downloader_iteration_slots net streams i Hsel)
      as [Hsame|(Hnone & _)]; [right; congruence | left; exact Hnone].
  - intros Hfirst.
    assert (Hreap : nth_error (fst (select_stream streams)) i = Some None).
    { unfold select_stream. apply (select_loop_reaps streams 0 _ None i s Hs Hquit).
      intros j Hj (t & Ht & Hv). apply (Hfirst j t Hj Ht).
      eapply examine_take_now, Hv. }
    unfold downloader_iteration. fold (select_stream streams).
    destruct (select_stream streams) as [after selected].
    simpl fst in *. simpl snd in *.
    destruct selected as [index|]; [|exact Hreap].
    assert (Hne : i <> index) by congruence.
    destruct (nth index after None) as [cur|]; [|exact Hreap].
    destruct (whole_download cur); rewrite store_slot_nth;
      destruct (Nat.eqb_spec i index); (contradiction || exact Hreap).
Qed.

End PassProperties.

(** ** The download of one block *)

Section RangedProperties.
Context {C : Constants} {L : CLibrary}.

Lemma ranged_fetch_unfold (net : HttpClient) (s : NetworkStream)
    (read_head_i : Z) :
  ranged_fetch net s read_head_i
  = match block_to_read s read_head_i with
    | None => set_error true s
    | Some b =>
        let result := net (url s) (Some (ranged_range s b)) in
        let s1 := set_url (redirected_url result) s in
        if negb (fail result) then
          let s2 :=
            if negb (ready s1) then read_content_range result s1 else s1 in
          if ready s2
             && negb (vector_size (data result) =? ranged_expected_len s b)
          then set_error true s2
          else set_ready true (set_data b (data result) s2)
        else set_error true s1
    end.
Proof. reflexivity. Qed.

Lemma set_data_into_empty (b : Z) (bytes : list byte) (s : NetworkStream) :
  downloaded_data s = [] -> 0 < MAX_CACHE_BLOCKS ->
  downloaded_data (set_data b bytes s) = [(b, bytes)].
Proof.
  intros Hempty Hmax. unfold set_data. rewrite Hempty.
  change (map_assign b bytes []) with [(b, bytes)].
  change (map_size [(b, bytes)]) with 1.
  destruct (Z.ltb_spec MAX_CACHE_BLOCKS 1); [lia | reflexivity].
Qed.

Lemma ready_set_url (v : string) (s : NetworkStream) :
  ready (set_url v s) = ready s.
Proof. reflexivity. Qed.

Lemma read_content_range_frame (result : HttpResult) (s : NetworkStream) :
  ready (read_content_range result s) = ready s
  /\ read_head (read_content_range result s) = read_head s
  /\ downloaded_data (read_content_range result s) = downloaded_data s
  /\ url (read_content_range result s) = url s.
Proof.
  unfold read_content_range.
  destruct (after_slash _); [|repeat split].
  destruct (is_empty _); repeat split.
Qed.

Lemma cache_ok_same (s s' : NetworkStream) :
  downloaded_data s' = downloaded_data s -> len s' = len s ->
  cache_ok s -> cache_ok s'.
Proof. unfold cache_ok. intros -> ->. auto. Qed.

Lemma set_data_cache_ok (b : Z) (bytes : list byte) (s : NetworkStream) :
  cache_ok s -> 0 <= b ->
  vector_size bytes = Z.min BLOCK_SIZE (len s - b * BLOCK_SIZE) ->
  cache_ok (set_data b bytes s).
Proof.
  intros [Hord Hsized] Hb Hlen. split; [apply set_data_ordered, Hord|].
  intros j v Hj.
  destruct (set_data_frame b bytes s) as (_ & -> & _).
  destruct (set_data_lookup b j bytes v s Hord Hj) as [[-> ->]|[_ Hold]];
    [auto | apply Hsized, Hold].
Qed.

(** The block that a ready stream sets out to read, when its cursor is
    within the resource: it is below [block_num]. *)
Lemma block_to_read_below (s : NetworkStream) (read_head_i b : Z) :
  0 < BLOCK_SIZE -> 0 <= read_head_i -> block_num s < 2 ^ 64 ->
  read_head_i / BLOCK_SIZE <= block_num s ->
  ready s = true -> block_to_read s read_head_i = Some b ->
  read_head_i / BLOCK_SIZE <= b < block_num s
  /\ map_count b (downloaded_data s) = false.
Proof.
  intros Hbs Hrh Hbn Hcur Hready. unfold block_to_read. rewrite Hready.
  pose proof (block_reading_loop_stops (downloaded_data s)
                (S (length (downloaded_data s))) (block_num s)
                (read_head_i / BLOCK_SIZE)) as Hloop.
  specialize (Hloop ltac:(pose proof (keys_from_le_length
                                        (read_head_i / BLOCK_SIZE)
                                        (downloaded_data s)); lia)
                    ltac:(apply Z.div_pos; lia) Hbn).
  set (r := block_reading_loop _ _ _ _) in *. clearbody r.
  destruct (Z.eqb_spec r (block_num s)) as [|Hne]; [discriminate|].
  intros [= <-]. destruct Hloop as (Hlo & Hall & Hstop).
  assert (Hlt : r < block_num s).
  { destruct (Z.lt_ge_cases r (block_num s)) as [|Hge]; [assumption|].
    destruct (Hall (block_num s)); lia. }
  split; [lia|].
  destruct (map_count r (downloaded_data s)) eqn:E; [|reflexivity].
  destruct Hstop. auto.
Qed.

(** X5. The block a ready stream reads is its next-needed block: the first
    block from the cursor block on that is not cached. *)
Theorem block_to_read_next_needed (s : NetworkStream) (i : Z) :
  0 < BLOCK_SIZE -> 0 <= read_head s -> block_num s < 2 ^ 64 ->
  ready s = true -> next_needed s i ->
  block_to_read s (read_head s) = Some i.
Proof.
  intros Hbs Hrh Hbn Hready (Hlo & Hmiss & Hbelow & _ & Hall).
  unfold block_to_read. rewrite Hready.
  pose proof (block_reading_loop_stops (downloaded_data s)
                (S (length (downloaded_data s))) (block_num s)
                (read_head s / BLOCK_SIZE)) as Hloop.
  specialize (Hloop ltac:(pose proof (keys_from_le_length
                                        (read_head s / BLOCK_SIZE)
                                        (downloaded_data s)); lia)
                    ltac:(apply Z.div_pos; lia) Hbn).
  assert (Hi : stops_at (downloaded_data s) (block_num s)
                 (read_head s / BLOCK_SIZE) i).
  { split; [exact Hlo|]. split.
    - intros j Hj. split; [lia | apply Hall, Hj].
    - intros [_ H]. congruence. }
  rewrite (stops_at_unique _ _ _ _ _ Hloop Hi).
  destruct (Z.eqb_spec i (block_num s)); [lia | reflexivity].
Qed.

(** X6. A ranged answer whose body has not the length asked for, on a
    ready stream, is dropped: [error] is set, and the cache, [len],
    [block_num] and [ready] stay as they were; the URL becomes the
    redirected one. *)
Theorem ranged_size_discrepancy (net : HttpClient) (s : NetworkStream)
    (read_head_i b : Z) :
  ready s = true ->
  block_to_read s read_head_i = Some b ->
  fail (net (url s) (Some (ranged_range s b))) = false ->
  vector_size (data (net (url s) (Some (ranged_range s b))))
  <> ranged_expected_len s b ->
  let s' := ranged_fetch net s read_head_i in
  error s' = true
  /\ downloaded_data s' = downloaded_data s
  /\ len s' = len s /\ block_num s' = block_num s /\ ready s' = true
  /\ url s' = redirected_url (net (url s) (Some (ranged_range s b))).
Proof.
  intros Hready Hb Hfail Hsize. cbv zeta.
  rewrite ranged_fetch_unfold, Hb. cbv zeta. rewrite Hfail.
  cbn [negb]. rewrite !ready_set_url, Hready. cbn [negb].
  rewrite !ready_set_url, Hready. cbn [andb].
  destruct (Z.eqb_spec
              (vector_size (data (net (url s) (Some (ranged_range s b)))))
              (ranged_expected_len s b)); [contradiction|].
  cbn [negb]. repeat split. exact Hready.
Qed.

(** X7. The first answer of a ranged stream whose ["Content-Range"] ends
    in ["/<total>"]: the stream becomes ready with [len] the total and
    [block_num] its number of blocks, and the body is stored as the cursor
    block whatever its length. *)
Theorem ranged_first_answer (net : HttpClient) (s : NetworkStream)
    (read_head_i : Z) (total : string) :
  let b := read_head_i / BLOCK_SIZE in
  let result := net (url s) (Some (ranged_range s b)) in
  ready s = false ->
  0 < MAX_CACHE_BLOCKS ->
  downloaded_data s = [] ->
  fail result = false ->
  after_slash (get_header result "Content-Range") = Some total ->
  snd (strtoll total) = EmptyString ->
  let s' := ranged_fetch net s read_head_i in
  ready s' = true
  /\ len s' = u64 (fst (strtoll total))
  /\ block_num s' = u64 (len s' + BLOCK_SIZE - 1) / BLOCK_SIZE
  /\ error s' = error s
  /\ downloaded_data s' = [(b, data result)].
Proof.
  intros b result Hready Hmax Hempty Hfail Hslash Hend. cbv zeta.
  rewrite ranged_fetch_unfold. unfold block_to_read. rewrite Hready.
  cbv zeta. fold b. fold result. rewrite Hfail.
  cbn [negb]. rewrite !ready_set_url, Hready. cbn [negb].
  destruct (read_content_range_frame result
              (set_url (redirected_url result) s)) as (Hr & _ & Hd & _).
  rewrite Hr, ready_set_url, Hready. cbn [andb].
  assert (Hcache : downloaded_data
                     (set_data b (data result)
                        (read_content_range result
                           (set_url (redirected_url result) s)))
                   = [(b, data result)]).
  { apply set_data_into_empty; [|exact Hmax]. rewrite Hd. exact Hempty. }
  destruct (set_data_frame b (data result)
              (read_content_range result (set_url (redirected_url result) s)))
    as (_ & Hlen & Hbn & _ & Herr & _).
  cbn [ready len block_num error downloaded_data set_ready].
  rewrite Hlen, Hbn, Herr, Hcache.
  unfold read_content_range. rewrite Hslash, Hend. cbn [is_empty].
  repeat split.
Qed.

(** X8. The first answer of a ranged stream whose ["Content-Range"] has no
    slash, or has text after the total: [error] is set, and yet the body is
    stored as the cursor block and the stream is marked ready. *)
Theorem ranged_first_answer_unparsed (net : HttpClient) (s : NetworkStream)
    (read_head_i : Z) :
  let b := read_head_i / BLOCK_SIZE in
  let result := net (url s) (Some (ranged_range s b)) in
  ready s = false ->
  0 < MAX_CACHE_BLOCKS ->
  downloaded_data s = [] ->
  fail result = false ->
  match after_slash (get_header result "Content-Range") with
  | None => True
  | Some total => snd (strtoll total) <> EmptyString
  end ->
  let s' := ranged_fetch net s read_head_i in
  error s' = true
  /\ ready s' = true
  /\ block_num s' = block_num s
  /\ downloaded_data s' = [(b, data result)].
Proof.
  intros b result Hready Hmax Hempty Hfail Hslash. cbv zeta.
  rewrite ranged_fetch_unfold. unfold block_to_read. rewrite Hready.
  cbv zeta. fold b. fold result. rewrite Hfail.
  cbn [negb]. rewrite !ready_set_url, Hready. cbn [negb].
  destruct (read_content_range_frame result
              (set_url (redirected_url result) s)) as (Hr & _ & Hd & _).
  rewrite Hr, ready_set_url, Hready. cbn [andb].
  assert (Hcache : downloaded_data
                     (set_data b (data result)
                        (read_content_range result
                           (set_url (redirected_url result) s)))
                   = [(b, data result)]).
  { apply set_data_into_empty; [|exact Hmax]. rewrite Hd. exact Hempty. }
  destruct (set_data_frame b (data result)
              (read_content_range result (set_url (redirected_url result) s)))
    as (_ & _ & Hbn & _ & Herr & _).
  cbn [ready block_num error downloaded_data set_ready].
  rewrite Hbn, Herr, Hcache.
  unfold read_content_range.
  destruct (after_slash (get_header result "Content-Range")) as [total|];
    [|repeat split].
  destruct (snd (strtoll total)) eqn:E; [contradiction|].
  cbn [is_empty]. repeat split.
Qed.

(** X9. On a ready ranged stream the check of the body length keeps the
    cache sound: after a download every cached block still has the length
    of its byte range, and [len] is unchanged. *)
Theorem ranged_fetch_keeps_cache_ok (net : HttpClient) (s : NetworkStream)
    (read_head_i : Z) :
  0 < BLOCK_SIZE -> 0 <= read_head_i ->
  len s + BLOCK_SIZE <= 2 ^ 64 -> 0 <= len s ->
  block_num s = (len s + BLOCK_SIZE - 1) / BLOCK_SIZE ->
  read_head_i / BLOCK_SIZE <= block_num s ->
  ready s = true -> cache_ok s ->
  cache_ok (ranged_fetch net s read_head_i)
  /\ len (ranged_fetch net s read_head_i) = len s.
Proof.
  intros Hbs Hrh Hfit Hlen Hbn Hcur Hready Hok.
  rewrite ranged_fetch_unfold.
  destruct (block_to_read s read_head_i) as [b|] eqn:Hb;
    [|split; [eapply cache_ok_same; [| |exact Hok]|]; reflexivity].
  assert (Hbn64 : block_num s < 2 ^ 64).
  { rewrite Hbn. apply Z.div_lt_upper_bound; nia. }
  destruct (block_to_read_below s read_head_i b Hbs Hrh Hbn64 Hcur Hready Hb)
    as [[Hb0 Hb1] _].
  pose proof (Z.div_pos read_head_i BLOCK_SIZE Hrh Hbs) as Hcb.
  assert (Hbl : (b + 1) * BLOCK_SIZE <= len s + BLOCK_SIZE - 1).
  { rewrite Hbn in Hb1.
    assert (b + 1 <= (len s + BLOCK_SIZE - 1) / BLOCK_SIZE) by lia.
    apply block_le_offset in H; assumption. }
  cbv zeta. destruct (fail _);
    [split; [eapply cache_ok_same; [| |exact Hok]|]; reflexivity|].
  cbn [negb]. rewrite !ready_set_url, Hready. cbn [negb].
  rewrite !ready_set_url, Hready. cbn [andb].
  destruct (Z.eqb_spec
              (vector_size (data (net (url s) (Some (ranged_range s b)))))
              (ranged_expected_len s b)) as [Hsize|Hsize]; cbn [negb];
    [|split; [eapply cache_ok_same; [| |exact Hok]|]; reflexivity].
  split.
  - eapply cache_ok_same with
      (s := set_data b (data (net (url s) (Some (ranged_range s b))))
              (set_url (redirected_url (net (url s)
                                          (Some (ranged_range s b)))) s));
      [reflexivity | reflexivity |].
    apply set_data_cache_ok.
    + eapply cache_ok_same; [| |exact Hok]; reflexivity.
    + lia.
    + rewrite Hsize. unfold ranged_expected_len. rewrite Hready.
      cbn [len set_url].
      rewrite (u64_small (b * BLOCK_SIZE)) by (unfold in_u64; nia).
      rewrite (u64_small ((b + 1) * BLOCK_SIZE)) by (unfold in_u64; nia).
      rewrite u64_small by (unfold in_u64; nia). lia.
  - cbn [len set_ready].
    destruct (set_data_frame b (data (net (url s) (Some (ranged_range s b))))
                (set_url (redirected_url (net (url s)
                                            (Some (ranged_range s b)))) s))
      as (_ & -> & _). reflexivity.
Qed.

End RangedProperties.

(** ** The whole download *)

Section WholeProperties.
Context {C : Constants} {L : CLibrary}.

Lemma whole_download_fetch_unfold (net : HttpClient) (s : NetworkStream) :
  whole_download_fetch net s
  = let result := net (url s) None in
    let s0 := set_url (redirected_url result) s in
    if negb (fail result) && status_code_is_success result
       && negb (vector_size (data result) =? 0) then
      let s1 := set_seq_head
                  (fst (strtoll (get_header result "x-head-seqnum"))) s0 in
      let s2 :=
        if negb (header_ok (get_header result "x-head-seqnum"))
        then set_error true (set_seq_head (-1) s1) else s1 in
      let s3 := set_seq_id
                  (fst (strtoll (get_header result "x-sequence-num"))) s2 in
      let s4 :=
        if negb (header_ok (get_header result "x-sequence-num"))
        then set_error true (set_seq_id (-1) s3) else s3 in
      if negb (error s4) then
        set_ready true
          (store_blocks (length (data result)) 0 (data result)
             (set_block_num
                (u64 (vector_size (data result) + BLOCK_SIZE - 1)
                 / BLOCK_SIZE)
                (set_len (vector_size (data result)) s4)))
      else s4
    else
      let s1 := set_error true s0 in
      if (status_code result =? HTTP_STATUS_CODE_NO_CONTENT)
         || (status_code result =? HTTP_STATUS_CODE_NOT_FOUND)
      then set_livestream_eof true s1
      else if status_code result =? HTTP_STATUS_CODE_FORBIDDEN
      then set_livestream_private true s1
      else s1.
Proof.
  unfold whole_download_fetch, header_ok. cbv zeta.
  rewrite !negb_andb, !negb_involutive. reflexivity.
Qed.

(** X10. A whole download whose answer is a success with a body but whose
    [x-head-seqnum] or [x-sequence-num] header is empty or not read to its
    end by [strtoll]: [error] is set and the sequence number of the bad
    header is -1; the stream does not become ready, and its cache, [len]
    and [block_num] stay as they were. *)
Theorem whole_download_bad_header (net : HttpClient) (s : NetworkStream) :
  let result := net (url s) None in
  fail result = false ->
  status_code_is_success result = true ->
  data result <> [] ->
  header_ok (get_header result "x-head-seqnum") = false
  \/ header_ok (get_header result "x-sequence-num") = false ->
  let s' := whole_download_fetch net s in
  error s' = true
  /\ ready s' = ready s
  /\ downloaded_data s' = downloaded_data s
  /\ len s' = len s /\ block_num s' = block_num s
  /\ (header_ok (get_header result "x-head-seqnum") = false ->
      seq_head s' = -1)
  /\ (header_ok (get_header result "x-sequence-num") = false ->
      seq_id s' = -1).
Proof.
  intros result Hfail Hcode Hbody Hbad. cbv zeta.
  rewrite whole_download_fetch_unfold. cbv zeta. fold result.
  rewrite Hfail, Hcode.
  assert (Hsize : (vector_size (data result) =? 0) = false).
  { apply Z.eqb_neq. unfold vector_size.
    destruct (data result); [congruence | simpl; lia]. }
  rewrite Hsize. cbn [negb andb].
  destruct (header_ok (get_header result "x-head-seqnum")),
    (header_ok (get_header result "x-sequence-num"));
    cbn [negb]; simpl; repeat split; auto;
    destruct Hbad; discriminate.
Qed.

Lemma map_assign_last (k : Z) (v : list byte) (m : block_map) :
  Forall (fun entry => fst entry < k) m -> map_assign k v m = m ++ [(k, v)].
Proof.
  induction 1 as [|[k' v'] m Hk Hm IH]; simpl; [reflexivity|].
  simpl in Hk. destruct (Z.ltb_spec k k'); [lia|].
  destruct (Z.eqb_spec k k'); [lia|]. rewrite IH. reflexivity.
Qed.

Lemma blocks_of_keys (body : list byte) (k : nat) :
  Forall (fun entry => 0 <= fst entry < Z.of_nat k) (blocks_of body k).
Proof.
  induction k as [|k IH]; [constructor|].
  cbn [blocks_of]. apply Forall_app. split.
  - eapply Forall_impl; [|exact IH]. simpl. intros; lia.
  - constructor; [simpl; lia | constructor].
Qed.

Lemma blocks_of_length (body : list byte) (k : nat) :
  length (blocks_of body k) = k.
Proof.
  induction k as [|k IH]; [reflexivity|].
  cbn [blocks_of]. rewrite length_app, IH. simpl. lia.
Qed.

Lemma blocks_of_first_key (body : list byte) (k : nat) (rest : block_map) :
  (0 < k)%nat -> first_key (blocks_of body k ++ rest) = Some 0.
Proof.
  revert rest. induction k as [|k IH]; intros rest Hk; [lia|].
  cbn [blocks_of]. rewrite <- app_assoc.
  destruct k as [|k]; [reflexivity|]. apply IH. lia.
Qed.

Lemma blocks_of_ordered (body : list byte) (k : nat) :
  ordered (blocks_of body k).
Proof.
  induction k as [|k IH]; [apply ordered_nil|].
  cbn [blocks_of].
  rewrite <- (map_assign_last (Z.of_nat k) _ (blocks_of body k)).
  - apply ordered_assign, IH.
  - eapply Forall_impl; [|apply blocks_of_keys]. simpl. intros; lia.
Qed.

Lemma map_lookup_app (j : Z) (m1 m2 : block_map) :
  map_lookup j (m1 ++ m2)
  = match map_lookup j m1 with
    | Some v => Some v
    | None => map_lookup j m2
    end.
Proof.
  induction m1 as [|[k v] m1 IH]; simpl; [reflexivity|].
  destruct (k =? j); [reflexivity | exact IH].
Qed.

Lemma blocks_of_lookup (body : list byte) (k : nat) (j : Z) :
  map_lookup j (blocks_of body k)
  = if (0 <=? j) && (j <? Z.of_nat k)
    then Some (subvector body (j * BLOCK_SIZE)
                 (Z.min (j * BLOCK_SIZE + BLOCK_SIZE) (vector_size body)))
    else None.
Proof.
  induction k as [|k IH].
  - cbn [blocks_of map_lookup].
    destruct (Z.leb_spec 0 j), (Z.ltb_spec j (Z.of_nat 0));
      cbn [andb]; try reflexivity; lia.
  - cbn [blocks_of]. rewrite map_lookup_app, IH, map_lookup_cons.
    cbn [map_lookup]. rewrite Nat2Z.inj_succ.
    destruct (Z.leb_spec 0 j), (Z.ltb_spec j (Z.of_nat k)),
      (Z.ltb_spec j (Z.succ (Z.of_nat k))), (Z.eqb_spec (Z.of_nat k) j);
      cbn [andb]; subst; try reflexivity; lia.
Qed.

(** The loop of the whole download on a cache that holds the first blocks
    of the body: the blocks are added in order, and once the cache is full
    each new block is evicted as soon as it is stored, when the read head
    is in block 0. *)
Lemma store_blocks_result (body : list byte) (passes : nat) :
  forall (k : nat) (s : NetworkStream),
    0 < BLOCK_SIZE -> 0 <= MAX_CACHE_BLOCKS ->
    block_count body <= MAX_CACHE_BLOCKS \/ read_head s / BLOCK_SIZE = 0 ->
    Z.of_nat k <= block_count body ->
    block_count body <= Z.of_nat k + Z.of_nat passes ->
    downloaded_data s
    = blocks_of body (Z.to_nat (Z.min (Z.of_nat k) MAX_CACHE_BLOCKS)) ->
    let s' := store_blocks passes (Z.of_nat k * BLOCK_SIZE) body s in
    downloaded_data s'
    = blocks_of body (Z.to_nat (Z.min (block_count body) MAX_CACHE_BLOCKS))
    /\ len s' = len s /\ block_num s' = block_num s
    /\ read_head s' = read_head s /\ error s' = error s
    /\ ready s' = ready s.
Proof.
  induction passes as [|passes IH]; intros k s Hbs Hmax Hfit Hk Hp Hdd.
  - simpl. replace (block_count body) with (Z.of_nat k) by lia.
    repeat split. exact Hdd.
  - cbv zeta. cbn [store_blocks].
    assert (Hsz : 0 <= vector_size body) by (unfold vector_size; lia).
    assert (Hcnt : Z.of_nat k * BLOCK_SIZE < vector_size body
                   <-> Z.of_nat k < block_count body).
    { unfold block_count.
      pose proof (block_le_offset BLOCK_SIZE
                    (vector_size body + BLOCK_SIZE - 1) (Z.of_nat k + 1) Hbs)
        as [Hto Hfrom].
      split; intros H.
      - assert (Z.of_nat k + 1
                <= (vector_size body + BLOCK_SIZE - 1) / BLOCK_SIZE)
          by (apply Hfrom; nia).
        lia.
      - assert ((Z.of_nat k + 1) * BLOCK_SIZE
                <= vector_size body + BLOCK_SIZE - 1)
          by (apply Hto; lia).
        nia. }
    destruct (Z.ltb_spec (Z.of_nat k * BLOCK_SIZE) (vector_size body))
      as [Hlt|Hge].
    + apply Hcnt in Hlt.
      rewrite Z.div_mul by lia.
      set (block := subvector body (Z.of_nat k * BLOCK_SIZE)
                      (Z.min (Z.of_nat k * BLOCK_SIZE + BLOCK_SIZE)
                             (vector_size body))).
      set (s1 := set_data (Z.of_nat k) block s).
      destruct (set_data_frame (Z.of_nat k) block s)
        as (Hrh & Hlen & Hbn & Hrdy & Herr & _). fold s1 in Hrh, Hlen, Hbn, Hrdy, Herr.
      assert (Hdd1 : downloaded_data s1
                     = blocks_of body
                         (Z.to_nat (Z.min (Z.of_nat (S k)) MAX_CACHE_BLOCKS))).
      { unfold s1, set_data. rewrite Hdd.
        rewrite map_assign_last.
        2:{ eapply Forall_impl; [|apply blocks_of_keys]. simpl. intros; lia. }
        unfold map_size. rewrite length_app, blocks_of_length.
        cbn [length].
        destruct (Z.ltb_spec MAX_CACHE_BLOCKS
                    (Z.of_nat (Z.to_nat (Z.min (Z.of_nat k) MAX_CACHE_BLOCKS)
                               + 1))) as [Hover|Hroom].
        - (* the cache is full *)
          assert (Hfull : Z.min (Z.of_nat k) MAX_CACHE_BLOCKS
                          = MAX_CACHE_BLOCKS) by lia.
          assert (Hfull' : Z.min (Z.of_nat (S k)) MAX_CACHE_BLOCKS
                           = MAX_CACHE_BLOCKS) by lia.
          rewrite Hfull, Hfull'.
          assert (Hcur : read_head s / BLOCK_SIZE = 0) by (destruct Hfit; lia).
          rewrite Hcur.
          destruct (Z.to_nat MAX_CACHE_BLOCKS) as [|n] eqn:En.
          + simpl. destruct (Z.ltb_spec (Z.of_nat k) 0); [lia|].
            reflexivity.
          + rewrite blocks_of_first_key by lia.
            destruct (Z.ltb_spec 0 0); [lia|].
            cbn [downloaded_data set_downloaded_data].
            unfold erase_last. apply removelast_last.
        - cbn [downloaded_data set_downloaded_data].
          replace (Z.to_nat (Z.min (Z.of_nat (S k)) MAX_CACHE_BLOCKS))
            with (S k) by lia.
          replace (Z.to_nat (Z.min (Z.of_nat k) MAX_CACHE_BLOCKS))
            with k by lia.
          reflexivity. }
      replace (Z.of_nat k * BLOCK_SIZE + BLOCK_SIZE)
        with (Z.of_nat (S k) * BLOCK_SIZE) by lia.
      destruct (IH (S k) s1 Hbs Hmax) as (H1 & H2 & H3 & H4 & H5 & H6);
        [rewrite Hrh; exact Hfit | lia | lia | exact Hdd1 |].
      split; [exact H1|]. repeat split; congruence.
    + assert (block_count body = Z.of_nat k).
      { destruct (Z.eq_dec (block_count body) (Z.of_nat k)); [assumption|].
        assert (Z.of_nat k < block_count body) by lia.
        apply Hcnt in H. lia. }
      repeat split. rewrite H. exact Hdd.
Qed.

End WholeProperties.

(** ** Reads on a sound cache *)

Section SoundCacheProperties.
Context {C : Constants}.

(** [get_data] on a stream with a sound cache: a range that
    [is_data_available] accepts is returned whole, each byte from the block
    that covers it. *)
Lemma get_data_exact (s : NetworkStream) (start size : Z) :
  0 < BLOCK_SIZE -> cache_ok s -> len s + BLOCK_SIZE <= 2 ^ 64 ->
  0 <= start -> 0 < size ->  start + size < 2 ^ 64 ->
  is_data_available s start size = true ->
  exists res,
    get_data s start size = Some res
    /\ vector_size res = size
    /\ forall k, 0 <= k < size ->
         exists v,
           map_lookup ((start + k) / BLOCK_SIZE) (downloaded_data s) = Some v
           /\ (start + k) mod BLOCK_SIZE < vector_size v
           /\ nth_error res (Z.to_nat k)
              = nth_error v (Z.to_nat ((start + k) mod BLOCK_SIZE)).
Proof.
  intros Hbs [Hord Hsized] Htot Hstart Hsize Hfit Havail.
  apply is_data_available_exact in Havail; [|lia..].
  destruct Havail as (Hrdy & Hend & Hres).
  unfold get_data. rewrite Hrdy. cbn [negb].
  destruct (Z.eqb_spec size 0); [lia|].
  rewrite u64_small by (unfold in_u64; lia).
  assert (Hsb : start / BLOCK_SIZE * BLOCK_SIZE <= start)
    by (apply block_le_offset; lia).
  assert (Hsb' : start < (start / BLOCK_SIZE + 1) * BLOCK_SIZE)
    by (apply offset_lt_block; lia).
  assert (Hc0 : map_count (start / BLOCK_SIZE) (downloaded_data s) = true)
    by (apply Hres; lia).
  destruct (map_find_count _ _ Hc0) as (v0 & itr0 & Hfind).
  assert (Hitr : forall j, start / BLOCK_SIZE <= j ->
            map_lookup j (map_find (start / BLOCK_SIZE) (downloaded_data s))
            = map_lookup j (downloaded_data s))
    by (intros j Hj; apply map_find_lookup; assumption).
  pose proof (map_find_ordered (start / BLOCK_SIZE) _ Hord) as Hiord.
  destruct (get_data_loop_correct (len s) start (start + size - 1)
              Hbs ltac:(lia) ltac:(lia) ltac:(lia)
              (map_find (start / BLOCK_SIZE) (downloaded_data s))
              (start / BLOCK_SIZE))
    as (res & Hget & Hrlen & Hrnth).
  - exact Hiord.
  - rewrite Hfind. reflexivity.
  - apply Z.div_pos; lia.
  - lia.
  - exact Hsb'.
  - intros j [Hj1 Hj2]. apply map_count_lookup. rewrite Hitr by exact Hj1.
    apply map_count_lookup, Hres.
    + apply block_le_offset in Hj2; lia.
    + apply offset_lt_block in Hj1; lia.
  - intros j v Hj.
    assert (start / BLOCK_SIZE <= j).
    { apply (first_key_least _ _ j Hiord);
        [rewrite Hfind; reflexivity | eapply map_count_lookup_some, Hj]. }
    rewrite Hitr in Hj by assumption. apply (Hsized j v Hj).
  - rewrite Hfind in *. exists res. split; [exact Hget|].
    split; [lia|]. intros k Hk.
    destruct (Hrnth (start + k) ltac:(lia)) as (v & Hv & Hvlen & Hvnth).
    exists v. split; [|split; [exact Hvlen|]].
    + rewrite Hitr in Hv; [exact Hv|]. apply block_le_offset; lia.
    + rewrite <- Hvnth. f_equal. lia.
Qed.

Lemma vector_ext (u v : list byte) :
  vector_size u = vector_size v ->
  (forall k, 0 <= k < vector_size u ->
             nth_error u (Z.to_nat k) = nth_error v (Z.to_nat k)) ->
  u = v.
Proof.
  unfold vector_size. intros Hlen Hnth. apply nth_error_ext. intros n.
  destruct (Nat.lt_ge_cases n (length u)) as [Hlt|Hge].
  - rewrite <- (Nat2Z.id n). apply Hnth. lia.
  - rewrite (proj2 (nth_error_None u n)) by lia.
    rewrite (proj2 (nth_error_None v n)) by lia. reflexivity.
Qed.

(** X11. Availability goes down to sub-ranges: when a range is available,
    so is every non-empty range inside it. *)
Theorem is_data_available_sub_range (s : NetworkStream)
    (start size start' size' : Z) :
  0 < BLOCK_SIZE ->
  0 <= start -> start + size < 2 ^ 64 ->
  start <= start' -> 0 < size' -> start' + size' <= start + size ->
  is_data_available s start size = true ->
  is_data_available s start' size' = true.
Proof.
  intros Hbs Hstart Hfit Hs Hsize' Hin Havail.
  apply is_data_available_exact in Havail; [|lia..].
  apply is_data_available_exact; [lia..|].
  destruct Havail as (Hrdy & Hend & Hres).
  split; [exact Hrdy|]. split; [lia|].
  intros j Hj1 Hj2. apply Hres; nia.
Qed.

(** X12. A read can be cut in two: on a sound cache the bytes of an
    available range are the bytes of its first part followed by the bytes
    of the rest. *)
Theorem get_data_split (s : NetworkStream) (start size1 size2 : Z) :
  0 < BLOCK_SIZE -> cache_ok s -> len s + BLOCK_SIZE <= 2 ^ 64 ->
  0 <= start -> 0 < size1 -> 0 < size2 ->
  start + size1 + size2 < 2 ^ 64 ->
  is_data_available s start (size1 + size2) = true ->
  exists part1 part2,
    get_data s start size1 = Some part1
    /\ get_data s (start + size1) size2 = Some part2
    /\ get_data s start (size1 + size2) = Some (part1 ++ part2).
Proof.
  intros Hbs Hok Htot Hstart H1 H2 Hfit Havail.
  pose proof Havail as Hwhole.
  apply is_data_available_exact in Hwhole; [|lia..].
  destruct Hwhole as (Hrdy & Hend & Hblocks).
  assert (Ha1 : is_data_available s start size1 = true).
  { apply is_data_available_exact; [lia..|].
    split; [exact Hrdy|]. split; [lia|].
    intros j Hj1 Hj2. apply Hblocks; nia. }
  assert (Ha2 : is_data_available s (start + size1) size2 = true).
  { apply is_data_available_exact; [lia..|].
    split; [exact Hrdy|]. split; [lia|].
    intros j Hj1 Hj2. apply Hblocks; nia. }
  destruct (get_data_exact s start (size1 + size2) Hbs Hok Htot)
    as (res & Hres & Hrlen & Hrnth); [lia..|exact Havail|].
  destruct (get_data_exact s start size1 Hbs Hok Htot)
    as (p1 & Hp1 & Hp1len & Hp1nth); [lia..|exact Ha1|].
  destruct (get_data_exact s (start + size1) size2 Hbs Hok Htot)
    as (p2 & Hp2 & Hp2len & Hp2nth); [lia..|exact Ha2|].
  exists p1, p2. split; [exact Hp1|]. split; [exact Hp2|].
  rewrite Hres. f_equal. apply vector_ext.
  - unfold vector_size in *. rewrite length_app. lia.
  - intros k Hk. rewrite Hrlen in Hk.
    destruct (Hrnth k Hk) as (v & Hv & _ & ->).
    destruct (Z.lt_ge_cases k size1) as [Hlt|Hge].
    + rewrite nth_error_app1 by (unfold vector_size in *; lia).
      destruct (Hp1nth k ltac:(lia)) as (v' & Hv' & _ & ->).
      congruence.
    + rewrite nth_error_app2 by (unfold vector_size in *; lia).
      destruct (Hp2nth (k - size1) ltac:(lia)) as (v' & Hv' & _ & Hn).
      replace (start + size1 + (k - size1)) with (start + k) in * by lia.
      replace (Z.to_nat k - length p1)%nat with (Z.to_nat (k - size1))
        by (unfold vector_size in *; lia).
      rewrite Hn. congruence.
Qed.

(** X13. [get_data] does not read over a hole: on a ready stream a read of
    a non-empty range that starts in a block that is not resident fails
    the assertion of [get_data]. *)
Theorem get_data_missing_block (s : NetworkStream) (start size : Z) :
  ready s = true -> size <> 0 ->
  map_count (start / BLOCK_SIZE) (downloaded_data s) = false ->
  get_data s start size = None.
Proof.
  intros Hready Hsize Hmiss. unfold get_data. rewrite Hready. cbn [negb].
  destruct (Z.eqb_spec size 0); [contradiction|].
  assert (Hfind : map_find (start / BLOCK_SIZE) (downloaded_data s) = []).
  { revert Hmiss. generalize (start / BLOCK_SIZE) as k.
    induction (downloaded_data s) as [|[k' v] m IH]; intros k; simpl;
      [reflexivity|].
    destruct (k' =? k); [discriminate | apply IH]. }
  rewrite Hfind. reflexivity.
Qed.

End SoundCacheProperties.

(** ** The whole download of a fragment *)

Section WholeSuccess.
Context {C : Constants} {L : CLibrary}.

Lemma block_count_bounds (body : list byte) :
  0 < BLOCK_SIZE ->
  0 <= block_count body
  /\ vector_size body <= block_count body * BLOCK_SIZE
  /\ (vector_size body <> 0 ->
      (block_count body - 1) * BLOCK_SIZE < vector_size body).
Proof.
  intros Hbs. unfold block_count.
  assert (0 <= vector_size body) by (unfold vector_size; lia).
  assert (Hnz : BLOCK_SIZE <> 0) by lia.
  pose proof (Z.div_mod (vector_size body + BLOCK_SIZE - 1) BLOCK_SIZE Hnz).
  pose proof (Z.mod_pos_bound (vector_size body + BLOCK_SIZE - 1) BLOCK_SIZE
                Hbs).
  assert (0 <= (vector_size body + BLOCK_SIZE - 1) / BLOCK_SIZE)
    by (apply Z.div_pos; lia).
  repeat split; try nia.
Qed.

Lemma whole_download_fetch_result (net : HttpClient) (s : NetworkStream) :
  let result := net (url s) None in
  let body := data result in
  0 < BLOCK_SIZE -> 0 <= MAX_CACHE_BLOCKS ->
  vector_size body + BLOCK_SIZE <= 2 ^ 64 ->
  answer_ok result ->
  error s = false -> downloaded_data s = [] ->
  block_count body <= MAX_CACHE_BLOCKS \/ read_head s / BLOCK_SIZE = 0 ->
  let s' := whole_download_fetch net s in
  ready s' = true /\ error s' = false
  /\ len s' = vector_size body
  /\ block_num s' = block_count body
  /\ read_head s' = read_head s
  /\ downloaded_data s'
     = blocks_of body
         (Z.to_nat (Z.min (block_count body) MAX_CACHE_BLOCKS)).
Proof.
  intros result body Hbs Hmax Hfit (Hfail & Hcode & Hbody & Hh1 & Hh2)
    Herr Hdd Hroom.
  cbv zeta. rewrite whole_download_fetch_unfold. cbv zeta. fold result.
  rewrite Hfail, Hcode, Hh1, Hh2. fold body.
  assert (Hsz : 0 <= vector_size body) by (unfold vector_size; lia).
  assert (Hsize : (vector_size body =? 0) = false).
  { apply Z.eqb_neq. unfold vector_size. fold body in Hbody.
    destruct body; [congruence | simpl; lia]. }
  rewrite Hsize. cbn [negb andb].
  set (s4 := set_seq_id _ _).
  assert (Herr4 : error s4 = false) by exact Herr.
  rewrite Herr4. cbn [negb].
  set (s5 := set_block_num _ _).
  destruct (block_count_bounds body Hbs) as (Hc0 & Hc1 & Hc2).
  pose proof (store_blocks_result body (length body) 0 s5 Hbs Hmax) as Hst.
  cbv zeta in Hst. change (Z.of_nat 0 * BLOCK_SIZE) with 0 in Hst.
  destruct Hst as (Hd & Hl & Hb & Hr & He & _).
  - exact Hroom.
  - simpl. exact Hc0.
  - change (Z.of_nat 0) with 0. unfold vector_size in *.
    assert (block_count body <= block_count body * BLOCK_SIZE) by nia.
    unfold vector_size in *. nia.
  - replace (Z.min (Z.of_nat 0) MAX_CACHE_BLOCKS) with 0 by lia.
    exact Hdd.
  - split; [reflexivity|]. split; [cbn [error set_ready]; rewrite He; exact Herr4|].
    split; [cbn [len set_ready]; rewrite Hl; reflexivity|].
    split.
    { cbn [block_num set_ready]. rewrite Hb. unfold s5.
      cbn [block_num set_block_num].
      rewrite u64_small by (unfold in_u64; lia). reflexivity. }
    split; [cbn [read_head set_ready]; rewrite Hr; reflexivity|].
    exact Hd.
Qed.

Lemma blocks_of_cache_ok (body : list byte) (k : nat) (s : NetworkStream) :
  0 < BLOCK_SIZE ->
  len s = vector_size body ->
  Z.of_nat k <= block_count body ->
  downloaded_data s = blocks_of body k ->
  cache_ok s.
Proof.
  intros Hbs Hlen Hk Hdd. unfold cache_ok. rewrite Hdd, Hlen.
  split; [apply blocks_of_ordered|].
  intros j v. rewrite blocks_of_lookup.
  destruct (Z.leb_spec 0 j), (Z.ltb_spec j (Z.of_nat k));
    cbn [andb]; try discriminate.
  intros [= <-]. split; [assumption|].
  destruct (block_count_bounds body Hbs) as (Hc0 & Hc1 & Hc2).
  assert (vector_size body <> 0) by (unfold block_count in *; intros E;
    rewrite E in Hk; rewrite Z.div_small in Hk by lia; lia).
  assert (j * BLOCK_SIZE < vector_size body) by nia.
  rewrite subvector_length by lia. lia.
Qed.

(** X14. After an accepted whole download into an empty cache (of a body
    that a vector of the target can hold) the stream is ready, its length
    is the length of the body, its block count is the number of blocks of
    the body, and its cache is sound and holds the first blocks of the
    body, as many as the cache has room for. *)
Theorem whole_download_stores_body (net : HttpClient) (s : NetworkStream) :
  let result := net (url s) None in
  let body := data result in
  0 < BLOCK_SIZE -> 0 <= MAX_CACHE_BLOCKS ->
  vector_size body + BLOCK_SIZE <= 2 ^ 32 ->
  answer_ok result ->
  error s = false -> downloaded_data s = [] ->
  block_count body <= MAX_CACHE_BLOCKS \/ read_head s / BLOCK_SIZE = 0 ->
  let s' := whole_download_fetch net s in
  ready s' = true /\ error s' = false
  /\ len s' = vector_size body
  /\ block_num s' = block_count body
  /\ keys (downloaded_data s')
     = map Z.of_nat
         (seq 0 (Z.to_nat (Z.min (block_count body) MAX_CACHE_BLOCKS)))
  /\ cache_ok s'.
Proof.
  intros result body Hbs Hmax Hfit32 Hok Herr Hdd Hroom s'.
  assert (Hfit : vector_size body + BLOCK_SIZE <= 2 ^ 64) by lia.
  destruct (whole_download_fetch_result net s Hbs Hmax Hfit Hok Herr Hdd
              Hroom) as (Hr & He & Hl & Hb & _ & Hd).
  fold result body s' in Hr, He, Hl, Hb, Hd.
  destruct (block_count_bounds body Hbs) as (Hc0 & _).
  do 4 (split; [assumption|]). split.
  - rewrite Hd.
    generalize (Z.to_nat (Z.min (block_count body) MAX_CACHE_BLOCKS)).
    induction n as [|n IH]; [reflexivity|].
    cbn [blocks_of]. unfold keys in *. rewrite map_app, IH.
    rewrite seq_S, map_app. reflexivity.
  - apply (blocks_of_cache_ok body
             (Z.to_nat (Z.min (block_count body) MAX_CACHE_BLOCKS)) s' Hbs
             Hl); [lia | exact Hd].
Qed.

(** X15. Round trip of a fragment: when the body fits the cache, the whole
    download makes the whole body available, and reading the stream from
    offset 0 to its end gives back the body that the origin sent. *)
Theorem whole_download_round_trip (net : HttpClient) (s : NetworkStream) :
  let result := net (url s) None in
  let body := data result in
  0 < BLOCK_SIZE ->
  vector_size body + BLOCK_SIZE <= 2 ^ 32 ->
  answer_ok result ->
  error s = false -> downloaded_data s = [] ->
  block_count body <= MAX_CACHE_BLOCKS ->
  let s' := whole_download_fetch net s in
  is_data_available s' 0 (len s') = true
  /\ get_data s' 0 (len s') = Some body.
Proof.
  intros result body Hbs Hfit32 Hok Herr Hdd Hroom s'.
  assert (Hfit : vector_size body + BLOCK_SIZE < 2 ^ 64) by lia.
  destruct (block_count_bounds body Hbs) as (Hc0 & Hc1 & Hc2).
  assert (Hmax : 0 <= MAX_CACHE_BLOCKS) by lia.
  assert (Hfit' : vector_size body + BLOCK_SIZE <= 2 ^ 64) by lia.
  destruct (whole_download_fetch_result net s Hbs Hmax Hfit' Hok Herr Hdd
              (or_introl Hroom)) as (Hr & He & Hl & Hb & _ & Hd).
  fold result body s' in Hr, He, Hl, Hb, Hd.
  rewrite Z.min_l in Hd by exact Hroom.
  assert (Hne : vector_size body <> 0).
  { destruct Hok as (_ & _ & Hbody & _). fold body in Hbody.
    unfold vector_size. destruct body; [congruence | simpl; lia]. }
  assert (Hsz : 0 < vector_size body) by (unfold vector_size in *; lia).
  assert (Hcok : cache_ok s').
  { apply (blocks_of_cache_ok body (Z.to_nat (block_count body)) s' Hbs
             Hl); [lia | exact Hd]. }
  assert (Havail : is_data_available s' 0 (len s') = true).
  { apply is_data_available_exact; [lia..|].
    split; [exact Hr|]. split; [lia|].
    intros j Hj1 Hj2. apply map_count_lookup. rewrite Hd, blocks_of_lookup.
    rewrite Hl in Hj1.
    assert (0 <= j) by nia. assert (j < block_count body) by nia.
    destruct (Z.leb_spec 0 j), (Z.ltb_spec j (Z.of_nat (Z.to_nat
      (block_count body)))); cbn [andb]; try lia. eexists; reflexivity. }
  split; [exact Havail|].
  destruct (get_data_exact s' 0 (len s') Hbs Hcok)
    as (res & Hres & Hrlen & Hrnth); [lia..|exact Havail|].
  rewrite Hres. f_equal. apply vector_ext; [lia|].
  intros k Hk. rewrite Hrlen, Hl in Hk.
  destruct (Hrnth k ltac:(lia)) as (v & Hv & Hvlen & ->).
  rewrite Z.add_0_l in *.
  rewrite Hd, blocks_of_lookup in Hv.
  destruct (Z.leb_spec 0 (k / BLOCK_SIZE)),
    (Z.ltb_spec (k / BLOCK_SIZE) (Z.of_nat (Z.to_nat (block_count body))));
    cbn [andb] in Hv; try discriminate.
  injection Hv as <-.
  assert (Hnz : BLOCK_SIZE <> 0) by lia.
  pose proof (Z.div_mod k BLOCK_SIZE Hnz) as Hdm.
  pose proof (Z.mod_pos_bound k BLOCK_SIZE Hbs) as Hmod.
  rewrite subvector_nth by nia.
  f_equal. f_equal. lia.
Qed.

(** X16. A fragment larger than the cache is cut short for good: when the
    body has more blocks than the cache holds and the read head is in the
    first block, the stream becomes ready with [MAX_CACHE_BLOCKS] blocks
    in its cache, and [is_data_available] refuses every range of at least
    one byte that starts at [MAX_CACHE_BLOCKS * BLOCK_SIZE] or behind it
    and ends below 2^64. *)
Theorem whole_download_overflow (net : HttpClient) (s : NetworkStream)
    (start size : Z) :
  let result := net (url s) None in
  let body := data result in
  0 < BLOCK_SIZE -> 0 <= MAX_CACHE_BLOCKS ->
  vector_size body + BLOCK_SIZE <= 2 ^ 32 ->
  answer_ok result ->
  error s = false -> downloaded_data s = [] ->
  read_head s / BLOCK_SIZE = 0 ->
  MAX_CACHE_BLOCKS < block_count body ->
  MAX_CACHE_BLOCKS * BLOCK_SIZE <= start -> 0 < size ->
  start + size < 2 ^ 64 ->
  let s' := whole_download_fetch net s in
  ready s' = true
  /\ map_size (downloaded_data s') = MAX_CACHE_BLOCKS
  /\ is_data_available s' start size = false.
Proof.
  intros result body Hbs Hmax Hfit32 Hok Herr Hdd Hhead Hover Hstart Hsize
    Hend s'.
  assert (Hfit : vector_size body + BLOCK_SIZE <= 2 ^ 64) by lia.
  destruct (whole_download_fetch_result net s Hbs Hmax Hfit Hok Herr Hdd
              (or_intror Hhead)) as (Hr & He & Hl & Hb & _ & Hd).
  fold result body s' in Hr, He, Hl, Hb, Hd.
  rewrite Z.min_r in Hd by lia.
  split; [exact Hr|]. split.
  - rewrite Hd. unfold map_size. rewrite blocks_of_length. lia.
  - destruct (is_data_available s' start size) eqn:Havail; [|reflexivity].
    apply is_data_available_exact in Havail; [|nia..].
    destruct Havail as (_ & _ & Hres).
    assert (Hc : map_count (start / BLOCK_SIZE) (downloaded_data s') = true).
    { apply Hres.
      - pose proof (block_le_offset BLOCK_SIZE start (start / BLOCK_SIZE)
                      Hbs) as [Hto _].
        assert (0 <= start) by nia. specialize (Hto ltac:(lia)). lia.
      - assert (0 <= start) by nia.
        pose proof (offset_lt_block BLOCK_SIZE start (start / BLOCK_SIZE)
                      Hbs) as [Hto _]. specialize (Hto ltac:(lia)). lia. }
    apply map_count_lookup in Hc. rewrite Hd, blocks_of_lookup in Hc.
    assert (MAX_CACHE_BLOCKS <= start / BLOCK_SIZE)
      by (apply Z.div_le_lower_bound; lia).
    destruct (Z.leb_spec 0 (start / BLOCK_SIZE)),
      (Z.ltb_spec (start / BLOCK_SIZE) (Z.of_nat (Z.to_nat MAX_CACHE_BLOCKS)));
      cbn [andb] in Hc; try lia; destruct Hc as [v Hv]; discriminate.
Qed.

End WholeSuccess.

(** ** The block under the read head *)

Section CursorBlock.
Context {C : Constants}.

Lemma first_key_lt_last_key (m : block_map) (lo hi : Z) :
  ordered m -> (2 <= length m)%nat ->
  first_key m = Some lo -> last_key m = Some hi -> lo < hi.
Proof.
  destruct m as [|[k v] [|p rest]]; simpl length; try lia.
  intros Hord _ [= <-] Hlast.
  apply (ordered_head_lt k v (p :: rest) hi Hord).
  apply last_key_count. destruct p. exact Hlast.
Qed.

(** X17. [set_data] never evicts the block under the read head: with room
    for at least one block, the block that holds [read_head] is resident
    after a [set_data] when it was resident before or is the block being
    stored. *)
Theorem set_data_keeps_cursor_block (block : Z) (bytes : list byte)
    (s : NetworkStream) :
  1 <= MAX_CACHE_BLOCKS ->
  ordered (downloaded_data s) ->
  let cursor := read_head s / BLOCK_SIZE in
  map_count cursor (downloaded_data s) = true \/ block = cursor ->
  map_count cursor (downloaded_data (set_data block bytes s)) = true.
Proof.
  intros Hmax Hord cursor Hin.
  assert (Hm : map_count cursor (map_assign block bytes (downloaded_data s))
               = true).
  { rewrite map_count_assign. destruct Hin as [-> | ->].
    - apply orb_true_r.
    - rewrite Z.eqb_refl. reflexivity. }
  destruct (Z.ltb_spec MAX_CACHE_BLOCKS
              (map_size (map_assign block bytes (downloaded_data s))))
    as [Hover|Hroom].
  - destruct (set_data_eviction block bytes s Hord Hover)
      as (lo & hi & Hlo & Hhi & _ & _ & Hcount).
    rewrite Hcount, Hm. cbn [andb]. apply negb_true_iff, Z.eqb_neq.
    pose proof (ordered_assign block bytes _ Hord) as Hord'.
    fold cursor.
    destruct (Z.ltb_spec lo cursor) as [Hlt|Hge]; [lia|].
    pose proof (first_key_least _ lo cursor Hord' Hlo Hm).
    assert (lo < hi).
    { apply (first_key_lt_last_key _ lo hi Hord'); try assumption.
      unfold map_size in Hover. lia. }
    lia.
  - unfold set_data.
    destruct (Z.ltb_spec MAX_CACHE_BLOCKS
                (map_size (map_assign block bytes (downloaded_data s))));
      [lia|].
    exact Hm.
Qed.

End CursorBlock.

(** ** read_network_stream *)

Section ReaderProperties.
Context {C : Constants}.

Lemma int_of_size_t_small (n : Z) : 0 <= n < 2 ^ 31 -> int_of_size_t n = n.
Proof.
  intros Hn. unfold int_of_size_t. rewrite Z.mod_small by lia.
  destruct (Z.ltb_spec n (2 ^ 31)); [reflexivity | lia].
Qed.

(** X18. A read that finds its data delivers it: on a ready stream with a
    sound cache and the read head before the end, when the bytes asked for
    are available the read returns their number,
    [min (buf_size, len - read_head)], copies them from the blocks that
    cover them, and advances the read head by that number; the cache and
    the decoder are left as they were. *)
Theorem read_delivers (decoder : NetworkDecoder) (disable_interrupt : bool)
    (s : NetworkStream) (buf_size : Z) :
  0 < BLOCK_SIZE -> cache_ok s -> len s + BLOCK_SIZE <= 2 ^ 64 ->
  0 <= read_head s < len s -> 0 < buf_size < 2 ^ 31 ->
  let n := Z.min buf_size (len s - read_head s) in
  is_data_available s (read_head s) n = true ->
  exists buf s',
    read_network_stream decoder disable_interrupt s buf_size
    = Returned n buf decoder s'
    /\ vector_size buf = n
    /\ read_head s' = read_head s + n
    /\ downloaded_data s' = downloaded_data s
    /\ network_waiting_status s' = None
    /\ forall k, 0 <= k < n ->
         exists v,
           map_lookup ((read_head s + k) / BLOCK_SIZE) (downloaded_data s)
           = Some v
           /\ nth_error buf (Z.to_nat k)
              = nth_error v (Z.to_nat ((read_head s + k) mod BLOCK_SIZE)).
Proof.
  intros Hbs Hok Htot Hhead Hbuf n Havail.
  assert (Hready : ready s = true).
  { apply is_data_available_exact in Havail; [tauto|lia..]. }
  unfold read_network_stream. cbv zeta.
  unfold size_t_of_int. rewrite (Z.mod_small buf_size) by lia.
  rewrite (u64_small (len s - read_head s)) by (unfold in_u64; lia).
  fold n. rewrite Hready, Havail. cbn [negb orb].
  assert (Hget : get_data (set_network_waiting_status None s) (read_head s) n
                 = get_data s (read_head s) n) by reflexivity.
  cbn [read_head set_network_waiting_status]. rewrite Hget.
  destruct (get_data_exact s (read_head s) n Hbs Hok Htot)
    as (res & Hres & Hrlen & Hrnth); [lia..|exact Havail|].
  rewrite Hres, Hrlen.
  destruct (Z.eqb_spec n 0); [lia|].
  rewrite int_of_size_t_small by lia.
  rewrite u64_small by (unfold in_u64; lia).
  eexists _, _. split; [reflexivity|].
  split; [exact Hrlen|]. split; [reflexivity|]. split; [reflexivity|].
  split; [reflexivity|].
  intros k Hk. destruct (Hrnth k Hk) as (v & Hv & _ & Hn).
  exists v. split; assumption.
Qed.

(** X19. A read at or behind the end reports the end: on a ready stream
    whose read head is not before [len], the read returns [AVERROR_EOF]
    and no bytes, whatever the cache holds and whatever the interrupt flag
    says; the read head, the cache and the decoder stay as they were. *)
Theorem read_at_end (decoder : NetworkDecoder) (disable_interrupt : bool)
    (s : NetworkStream) (buf_size : Z) :
  ready s = true ->
  0 <= len s <= read_head s -> read_head s + 2 ^ 32 <= 2 ^ 64 ->
  exists s',
    read_network_stream decoder disable_interrupt s buf_size
    = Returned AVERROR_EOF [] decoder s'
    /\ read_head s' = read_head s
    /\ downloaded_data s' = downloaded_data s
    /\ network_waiting_status s' = None.
Proof.
  intros Hready Hhead Hfit.
  unfold read_network_stream. cbv zeta. rewrite Hready. cbn [negb orb andb].
  assert (Hb : 0 <= size_t_of_int buf_size < 2 ^ 32)
    by (unfold size_t_of_int; apply Z.mod_pos_bound; lia).
  assert (Hu : 0 <= u64 (len s - read_head s) < 2 ^ 64) by apply u64_range.
  set (wanted := Z.min (size_t_of_int buf_size) (u64 (len s - read_head s))).
  assert (Hw : 0 <= wanted < 2 ^ 32) by (unfold wanted; lia).
  assert (Hend : (len s <=? read_head s) = true) by (apply Z.leb_le; lia).
  rewrite Hend.
  destruct (is_data_available s (read_head s) wanted) eqn:Havail;
    cbn [negb].
  - assert (Hzero : wanted = 0).
    { destruct (Z.eq_dec wanted 0) as [|Hne]; [assumption|].
      unfold is_data_available in Havail. rewrite Hready in Havail.
      cbn [negb] in Havail.
      rewrite u64_small in Havail by (unfold in_u64; lia).
      destruct (Z.ltb_spec (len s) (read_head s + wanted));
        [discriminate | lia]. }
    rewrite Hzero. unfold get_data.
    cbn [ready set_network_waiting_status]. rewrite Hready.
    cbn [negb]. rewrite Z.eqb_refl.
    change (vector_size []) with 0. rewrite Z.eqb_refl.
    cbn [read_head set_network_waiting_status].
    rewrite Z.add_0_r, u64_small by (unfold in_u64; lia).
    eexists. split; [reflexivity|]. repeat split.
  - eexists. split; [reflexivity|]. repeat split.
Qed.

(** X20. Reads keep the read head inside the stream: on a ready stream
    with a sound cache and [read_head <= len], whatever a read returns, it
    does not fail the assertion of [get_data], it leaves the cache and
    [len] as they were, and either it returns [AVERROR_EOF] with no bytes
    and the read head where it was, or it returns the positive number of
    bytes it copied and the read head advanced by that number, still not
    beyond [len]. *)
Theorem read_keeps_cursor_within (decoder : NetworkDecoder)
    (disable_interrupt : bool) (s : NetworkStream) (buf_size : Z) :
  0 < BLOCK_SIZE -> cache_ok s -> len s + BLOCK_SIZE <= 2 ^ 64 ->
  ready s = true ->
  0 <= read_head s <= len s -> 0 <= buf_size < 2 ^ 31 ->
  match read_network_stream decoder disable_interrupt s buf_size with
  | Returned value buf _ s' =>
      downloaded_data s' = downloaded_data s
      /\ len s' = len s
      /\ read_head s' <= len s'
      /\ ((value = AVERROR_EOF /\ buf = [] /\ read_head s' = read_head s)
          \/ (0 < value /\ vector_size buf = value
              /\ read_head s' = read_head s + value))
  | StillWaiting s' =>
      downloaded_data s' = downloaded_data s
      /\ len s' = len s /\ read_head s' = read_head s
  | Undefined => False
  end.
Proof.
  intros Hbs Hok Htot Hready Hhead Hbuf.
  unfold read_network_stream. cbv zeta. rewrite Hready. cbn [negb orb andb].
  unfold size_t_of_int. rewrite (Z.mod_small buf_size) by lia.
  rewrite (u64_small (len s - read_head s)) by (unfold in_u64; lia).
  set (n := Z.min buf_size (len s - read_head s)).
  assert (Hn : 0 <= n) by (unfold n; lia).
  destruct (is_data_available s (read_head s) n) eqn:Havail; cbn [negb].
  - assert (Hget : get_data (set_network_waiting_status None s)
                     (read_head s) n
                   = get_data s (read_head s) n) by reflexivity.
    cbn [read_head set_network_waiting_status]. rewrite Hget.
    destruct (Z.eq_dec n 0) as [Hzero|Hpos].
    + rewrite Hzero. unfold get_data. rewrite Hready. cbn [negb].
      rewrite Z.eqb_refl. change (vector_size []) with 0.
      rewrite Z.eqb_refl. cbn [downloaded_data len read_head set_read_head
        set_network_waiting_status].
      rewrite Z.add_0_r, u64_small by (unfold in_u64; lia).
      split; [reflexivity|]. split; [reflexivity|]. split; [lia|].
      left. repeat split.
    + destruct (get_data_exact s (read_head s) n Hbs Hok Htot)
        as (res & Hres & Hrlen & _); [unfold n in *; lia..|exact Havail|].
      rewrite Hres, Hrlen.
      destruct (Z.eqb_spec n 0); [lia|].
      rewrite int_of_size_t_small by (unfold n in *; lia).
      rewrite u64_small by (unfold in_u64, n in *; lia).
      cbn [downloaded_data len read_head set_read_head
        set_network_waiting_status].
      split; [reflexivity|]. split; [reflexivity|].
      split; [unfold n; lia|]. right.
      split; [lia|]. split; [exact Hrlen | reflexivity].
  - destruct (len s <=? read_head s).
    { cbn. split; [reflexivity|]. split; [reflexivity|]. split; [lia|].
      left. repeat split. }
    destruct (negb disable_interrupt && interrupt decoder).
    { cbn. split; [reflexivity|]. split; [reflexivity|]. split; [lia|].
      left. repeat split. }
    destruct (error s || quit_request s).
    { cbn. split; [reflexivity|]. split; [reflexivity|]. split; [lia|].
      left. repeat split. }
    cbn. repeat split.
Qed.

(** X21. Only an interrupt asks for re-initialisation: a read leaves the
    interrupt flag of the decoder as it was, and it sets [need_reinit] only
    when the interrupt flag is raised and interrupts are not disabled for
    the stream; in that case it has returned [AVERROR_EOF]. *)
Theorem read_reinit_only_on_interrupt (decoder : NetworkDecoder)
    (disable_interrupt : bool) (s : NetworkStream) (buf_size : Z) :
  forall value buf decoder' s',
    read_network_stream decoder disable_interrupt s buf_size
    = Returned value buf decoder' s' ->
    interrupt decoder' = interrupt decoder
    /\ (need_reinit decoder' = need_reinit decoder
        \/ (need_reinit decoder' = true /\ interrupt decoder = true
            /\ disable_interrupt = false /\ value = AVERROR_EOF)).
Proof.
  intros value buf decoder' s'. unfold read_network_stream. cbv zeta.
  destruct (negb (ready s) || negb (is_data_available s _ _)).
  - destruct (ready s && (len s <=? read_head s)).
    { intros [= <- <- <- <-]. auto. }
    destruct disable_interrupt, (interrupt decoder) eqn:Hint; cbn [negb andb].
    all: try (destruct (error s || quit_request s);
              [intros [= <- <- <- <-]; auto | discriminate]).
    intros [= <- <- <- <-]. split; [exact Hint|]. right. repeat split.
  - destruct (get_data _ _ _); [|discriminate].
    destruct (vector_size l =? 0); intros [= <- <- <- <-]; auto.
Qed.

End ReaderProperties.

(** ** seek_network_stream, beyond the three positions *)

Section SeekProperties.
Context {C : Constants}.

(** X22. A seek to a negative position is refused: for [SEEK_SET],
    [SEEK_CUR] and [SEEK_END] on a ready stream shorter than 2^63 bytes, a
    target below 0 wraps around in [u64] to a position beyond [len], so
    the seek returns -1 and the read head stays. *)
Theorem seek_before_start (s : NetworkStream) (offset whence : Z) :
  ready s = true ->
  whence = SEEK_SET \/ whence = SEEK_CUR \/ whence = SEEK_END ->
  len s < 2 ^ 63 ->
  - 2 ^ 63 <= seek_target s offset whence < 0 ->
  exists s',
    seek_network_stream s offset whence = Some (-1, s')
    /\ read_head s' = read_head s
    /\ downloaded_data s' = downloaded_data s.
Proof.
  intros Hready Hwhence Hlen Htarget.
  assert (Hpos : (if whence =? SEEK_SET then u64 offset
                  else if whence =? SEEK_CUR then u64 (read_head s + offset)
                  else if whence =? SEEK_END then u64 (len s + offset)
                  else 0) = u64 (seek_target s offset whence)).
  { unfold seek_target. destruct Hwhence as [-> | [-> | ->]]; reflexivity. }
  assert (Hsize : (whence =? AVSEEK_SIZE) = false).
  { destruct Hwhence as [-> | [-> | ->]]; reflexivity. }
  unfold seek_network_stream. rewrite Hready. cbn [negb]. cbv zeta.
  rewrite Hsize. cbn [len read_head set_network_waiting_status].
  rewrite Hpos.
  assert (Hwrap : u64 (seek_target s offset whence)
                  = seek_target s offset whence + 2 ^ 64).
  { unfold u64. symmetry. apply Z.mod_unique_pos with (q := -1); lia. }
  rewrite Hwrap.
  destruct (Z.ltb_spec (len s) (seek_target s offset whence + 2 ^ 64));
    [|lia].
  eexists. split; [reflexivity|]. split; reflexivity.
Qed.

(** X23. A seek with a [whence] the function does not know rewinds: on a
    ready stream, any [whence] other than [SEEK_SET], [SEEK_CUR],
    [SEEK_END] and [AVSEEK_SIZE] moves the read head to offset 0 and
    returns 0, whatever the offset. *)
Theorem seek_unknown_whence_rewinds (s : NetworkStream) (offset whence : Z) :
  ready s = true -> 0 <= len s ->
  whence <> SEEK_SET -> whence <> SEEK_CUR -> whence <> SEEK_END ->
  whence <> AVSEEK_SIZE ->
  exists s',
    seek_network_stream s offset whence = Some (0, s')
    /\ read_head s' = 0
    /\ downloaded_data s' = downloaded_data s.
Proof.
  intros Hready Hlen Hset Hcur Hend Hsize.
  unfold seek_network_stream. rewrite Hready. cbn [negb]. cbv zeta.
  destruct (Z.eqb_spec whence AVSEEK_SIZE); [contradiction|].
  destruct (Z.eqb_spec whence SEEK_SET); [contradiction|].
  destruct (Z.eqb_spec whence SEEK_CUR); [contradiction|].
  destruct (Z.eqb_spec whence SEEK_END); [contradiction|].
  cbn [len read_head set_network_waiting_status].
  destruct (Z.ltb_spec (len s) 0); [lia|].
  eexists. split; [reflexivity|]. split; reflexivity.
Qed.

(** X24. Seeks keep the read head inside the stream: on a ready stream
    with [read_head <= len], whatever [offset] and [whence] are, the seek
    returns, leaves [len] and the cache as they were, and leaves a read
    head between 0 and [len]. *)
Theorem seek_keeps_cursor_within (s : NetworkStream) (offset whence : Z) :
  ready s = true -> 0 <= read_head s <= len s ->
  exists result s',
    seek_network_stream s offset whence = Some (result, s')
    /\ len s' = len s
    /\ downloaded_data s' = downloaded_data s
    /\ 0 <= read_head s' <= len s'.
Proof.
  intros Hready Hhead.
  unfold seek_network_stream. rewrite Hready. cbn [negb]. cbv zeta.
  destruct (whence =? AVSEEK_SIZE).
  { eexists _, _. split; [reflexivity|]. cbn. repeat split; lia. }
  cbn [len read_head set_network_waiting_status].
  set (new_pos := if whence =? SEEK_SET then _ else _).
  assert (Hnew : 0 <= new_pos).
  { unfold new_pos.
    destruct (whence =? SEEK_SET); [apply u64_range|].
    destruct (whence =? SEEK_CUR); [apply u64_range|].
    destruct (whence =? SEEK_END); [apply u64_range | lia]. }
  destruct (Z.ltb_spec (len s) new_pos).
  - eexists _, _. split; [reflexivity|]. cbn. repeat split; lia.
  - eexists _, _. split; [reflexivity|]. cbn. repeat split; lia.
Qed.

End SeekProperties.

(** ** The end of the downloader thread *)

Section ExitProperties.
Context {C : Constants}.

(** X25. The end of the downloader thread releases the readers: on a
    stream of the slots that the thread leaves behind, a read does not go
    on waiting and a seek returns, whatever the state of the stream. *)
Theorem downloader_exit_releases (streams : list (option NetworkStream))
    (i : nat) (s : NetworkStream) :
  nth_error (downloader_exit streams) i = Some (Some s) ->
  (forall decoder disable_interrupt buf_size s',
      read_network_stream decoder disable_interrupt s buf_size
      <> StillWaiting s')
  /\ (forall offset whence, seek_network_stream s offset whence <> None).
Proof.
  intros Hnth.
  assert (Hquit : quit_request s = true).
  { unfold downloader_exit in Hnth. rewrite nth_error_map in Hnth.
    destruct (nth_error streams i) as [[s0|]|]; try discriminate.
    injection Hnth as <-. reflexivity. }
  split.
  - intros decoder disable_interrupt buf_size s'.
    unfold read_network_stream. cbv zeta. rewrite Hquit, orb_true_r.
    destruct (negb (ready s) || negb (is_data_available s _ _)).
    + destruct (ready s && (len s <=? read_head s)); [discriminate|].
      destruct (negb disable_interrupt && interrupt decoder); discriminate.
    + destruct (get_data _ _ _); [|discriminate].
      destruct (vector_size l =? 0); discriminate.
  - intros offset whence. unfold seek_network_stream.
    rewrite Hquit, orb_true_r.
    destruct (ready s); cbn [negb]; [|discriminate]. cbv zeta.
    destruct (whence =? AVSEEK_SIZE); [discriminate|].
    destruct (len _ <? _); discriminate.
Qed.

End ExitProperties.

(** ** mvd_decode *)

(** X26. The width and the height that [mvd_decode] reports are rounded
    up to the next multiple of 16: for a size that is not negative (and
    that leaves room for the sum in an [int]) the result is a multiple of
    16, not below the size and less than 16 above it. *)
Theorem align_to_16_rounds_up (n : Z) :
  0 <= n < 2 ^ 31 - 16 ->
  align_to_16 n mod 16 = 0 /\ n <= align_to_16 n < n + 16.
Proof.
  intros [Hn _]. unfold align_to_16. rewrite Z.rem_mod_nonneg by lia.
  pose proof (Z.mod_pos_bound n 16 ltac:(lia)).
  destruct (Z.eqb_spec (n mod 16) 0) as [Hz|Hnz].
  - split; [exact Hz | lia].
  - split; [|lia].
    rewrite (Z.div_mod n 16) at 1 by lia.
    replace (16 * (n / 16) + n mod 16 + (16 - n mod 16))
      with ((n / 16 + 1) * 16) by lia.
    apply Z.mod_mul. lia.
Qed.

Lemma byte_value_range (b : byte) : 0 <= byte_value b < 2 ^ 8.
Proof.
  unfold byte_value. pose proof (Byte.to_N_bounded b).
  change (2 ^ 8) with 256. lia.
Qed.

Lemma byte_value_of (n : Z) : byte_value (byte_of n) = n mod 2 ^ 8.
Proof.
  unfold byte_value, byte_of.
  pose proof (Z.mod_pos_bound n (2 ^ 8) ltac:(lia)) as Hr.
  destruct (Byte.of_N (Z.to_N (n mod 2 ^ 8))) as [b|] eqn:Hb.
  - apply Byte.to_of_N in Hb. rewrite Hb. lia.
  - apply Byte.of_N_None_iff in Hb. change (2 ^ 8) with 256 in *. lia.
Qed.

Lemma nal_size_be32 (n : Z) :
  0 <= n < 2 ^ 31 ->
  int_of_u32 (bswap32 (load_u32 (byte_of (n / 2 ^ 24)) (byte_of (n / 2 ^ 16))
                         (byte_of (n / 2 ^ 8)) (byte_of n))) = n.
Proof.
  intros Hn. unfold load_u32. rewrite !byte_value_of.
  set (x := _ + _ + _ + _).
  assert (Hx : bswap32 x = n).
  { unfold bswap32, x. clear x.
    change (2 ^ 8) with 256. change (2 ^ 16) with 65536.
    change (2 ^ 24) with 16777216. change (2 ^ 31) with 2147483648 in Hn.
    Z.div_mod_to_equations. lia. }
  rewrite Hx. unfold int_of_u32.
  destruct (Z.ltb_spec n (2 ^ 31)); [reflexivity | lia].
Qed.

Lemma subvector_app (pre mid post : list byte) :
  subvector (pre ++ mid ++ post) (vector_size pre)
            (vector_size pre + vector_size mid) = mid.
Proof.
  unfold subvector, vector_size.
  rewrite Nat2Z.id.
  replace (Z.to_nat (Z.of_nat (length pre) + Z.of_nat (length mid)
                     - Z.of_nat (length pre))) with (length mid) by lia.
  rewrite skipn_app, skipn_all, Nat.sub_diag. simpl.
  rewrite firstn_app, firstn_all, Nat.sub_diag. simpl.
  apply app_nil_r.
Qed.

Lemma length_prefixed_size (nals : list (list byte)) :
  vector_size (length_prefixed nals)
  = vector_size (start_coded nals) + Z.of_nat (length nals).
Proof.
  unfold vector_size, length_prefixed, start_coded.
  induction nals as [|nal nals IH]; [reflexivity|].
  cbn [flat_map]. rewrite !length_app. cbn [length be32]. lia.
Qed.

(** The passes of [nal_loop] over well-formed units: after them the loop
    is at the bytes behind the units. *)
Lemma nal_loop_units (nals : list (list byte)) :
  forall (passes : nat) (pre post out : list byte),
    Forall (fun nal => 0 < vector_size nal < 2 ^ 31) nals ->
    vector_size out <= vector_size pre ->
    nal_loop (length nals + passes) (pre ++ length_prefixed nals ++ post)
             (vector_size pre) out
    = nal_loop passes (pre ++ length_prefixed nals ++ post)
               (vector_size pre + vector_size (length_prefixed nals))
               (out ++ start_coded nals).
Proof.
  induction nals as [|nal nals IH]; intros passes pre post out Hnals Hout.
  - cbn. rewrite Z.add_0_r, app_nil_r. reflexivity.
  - inversion Hnals as [|? ? Hnal Hrest]; subst.
    cbn [length Nat.add nal_loop].
    cbn [length_prefixed flat_map]. fold (length_prefixed nals).
    set (data := pre ++ _ ++ post).
    assert (Hdata : data = pre ++ be32 (vector_size nal)
                               ++ (nal ++ length_prefixed nals ++ post)).
    { unfold data. rewrite <- !app_assoc. reflexivity. }
    assert (Hdata2 : data = (pre ++ be32 (vector_size nal))
                              ++ nal ++ (length_prefixed nals ++ post)).
    { rewrite Hdata, <- !app_assoc. reflexivity. }
    assert (Hdata3 : data = (pre ++ be32 (vector_size nal) ++ nal)
                              ++ length_prefixed nals ++ post).
    { rewrite Hdata, <- !app_assoc. reflexivity. }
    assert (Hpre2 : vector_size (pre ++ be32 (vector_size nal))
                    = vector_size pre + 4).
    { unfold vector_size. rewrite length_app. cbn [length be32]. lia. }
    assert (Hpre3 : vector_size (pre ++ be32 (vector_size nal) ++ nal)
                    = vector_size pre + 4 + vector_size nal).
    { unfold vector_size. rewrite !length_app. cbn [length be32]. lia. }
    assert (Hlp : vector_size ((be32 (vector_size nal) ++ nal)
                               ++ length_prefixed nals)
                  = 4 + vector_size nal
                    + vector_size (length_prefixed nals)).
    { unfold vector_size. rewrite !length_app. cbn [length be32]. lia. }
    assert (Hsize : vector_size data
                    = vector_size pre + 4 + vector_size nal
                      + vector_size (length_prefixed nals)
                      + vector_size post).
    { rewrite Hdata. unfold vector_size. rewrite !length_app.
      cbn [length be32]. lia. }
    assert (Hout3 : vector_size (out ++ [x00; x00; x01])
                    = vector_size out + 3).
    { unfold vector_size. rewrite length_app. cbn [length]. lia. }
    assert (Hhead : subvector data (vector_size pre) (vector_size pre + 4)
                    = be32 (vector_size nal)).
    { rewrite Hdata. apply (subvector_app pre (be32 (vector_size nal))). }
    assert (Hbody : subvector data (vector_size pre + 4)
                      (vector_size pre + 4 + vector_size nal) = nal).
    { rewrite Hdata2, <- Hpre2. apply subvector_app. }
    rewrite Hlp. clearbody data.
    assert (0 <= vector_size (length_prefixed nals))
      by (unfold vector_size; lia).
    assert (0 <= vector_size post) by (unfold vector_size; lia).
    assert (0 <= vector_size out) by (unfold vector_size; lia).
    destruct (Z.ltb_spec (vector_size pre + 4) (vector_size data)); [|lia].
    rewrite Hhead. cbn [be32]. rewrite nal_size_be32 by lia. cbv zeta.
    destruct (Z.ltb_spec (vector_size data) (vector_size out + 3)); [lia|].
    destruct (Z.ltb_spec (vector_size nal) 0); [lia|].
    destruct (Z.ltb_spec (vector_size data)
                (vector_size pre + 4 + vector_size nal)); [lia|].
    cbn [orb]. rewrite Hout3.
    destruct (Z.ltb_spec (vector_size data)
                (vector_size out + 3 + vector_size nal)); [lia|].
    rewrite Hbody, <- Hpre3. rewrite Hdata3. rewrite IH.
    + f_equal.
      * lia.
      * cbn [start_coded flat_map]. rewrite <- !app_assoc. reflexivity.
    + exact Hrest.
    + rewrite Hpre3. unfold vector_size in *. rewrite !length_app.
      cbn [length]. lia.
Qed.

(** X27. From lengths to start codes: for a packet (of a size that an
    [int] holds) that is a sequence of NAL units, each behind its 32-bit
    big-endian length and none empty, the loop of [mvd_decode] builds the
    same units each behind the start code 0, 0, 1, without a read beyond
    the packet or a write beyond the buffer; the result is one byte per
    unit shorter than the packet. *)
Theorem mvd_packet_start_codes (nals : list (list byte)) :
  vector_size (length_prefixed nals) + 4 < 2 ^ 31 ->
  Forall (fun nal => 0 < vector_size nal < 2 ^ 31) nals ->
  mvd_packet_of (length_prefixed nals) = Converted (start_coded nals)
  /\ vector_size (start_coded nals)
     = vector_size (length_prefixed nals) - Z.of_nat (length nals).
Proof.
  intros _ Hnals. split; [|rewrite length_prefixed_size; lia].
  unfold mvd_packet_of.
  assert (Hfuel : (length nals <= length (length_prefixed nals))%nat).
  { clear Hnals. induction nals as [|nal nals IH]; [simpl; lia|].
    cbn [length_prefixed flat_map length]. rewrite !length_app.
    cbn [length be32]. fold (length_prefixed nals). lia. }
  replace (S (length (length_prefixed nals)))
    with (length nals
          + S (length (length_prefixed nals) - length nals))%nat by lia.
  pose proof (nal_loop_units nals
                (S (length (length_prefixed nals) - length nals)) [] [] []
                Hnals ltac:(reflexivity)) as Hrun.
  rewrite app_nil_r in Hrun. cbn [app] in Hrun.
  change (vector_size []) with 0 in Hrun. rewrite Hrun.
  cbn [nal_loop]. rewrite Z.add_0_l.
  destruct (Z.ltb_spec (vector_size (length_prefixed nals) + 4)
              (vector_size (length_prefixed nals))); [lia | reflexivity].
Qed.

Lemma nal_loop_in_buffer (passes : nat) (data : list byte) :
  forall (source_offset : Z) (out : list byte),
    vector_size out <= source_offset ->
    nal_loop passes data source_offset out <> WriteBeyondBuffer.
Proof.
  induction passes as [|passes IH]; intros source_offset out Hout;
    cbn [nal_loop]; [discriminate|].
  destruct (Z.ltb_spec (source_offset + 4) (vector_size data));
    [|discriminate].
  destruct (subvector data source_offset (source_offset + 4))
    as [|b0 [|b1 [|b2 [|b3 [|b4 rest]]]]]; try discriminate.
  cbv zeta.
  destruct (Z.ltb_spec (vector_size data) (vector_size out + 3)); [lia|].
  set (size := int_of_u32 _).
  destruct (Z.ltb_spec size 0); cbn [orb]; [discriminate|].
  destruct (Z.ltb_spec (vector_size data) (source_offset + 4 + size));
    [discriminate|].
  assert (Hout3 : vector_size (out ++ [x00; x00; x01])
                  = vector_size out + 3).
  { unfold vector_size. rewrite length_app. cbn [length]. lia. }
  rewrite Hout3.
  destruct (Z.ltb_spec (vector_size data) (vector_size out + 3 + size));
    [lia|].
  apply IH.
  assert (vector_size (subvector data (source_offset + 4)
                         (source_offset + 4 + size)) <= size).
  { unfold subvector, vector_size. rewrite length_firstn. lia. }
  unfold vector_size in *. rewrite !length_app. cbn [length]. lia.
Qed.

(** X28. The buffer of the size of the packet is large enough: whatever
    the bytes of the packet (of a size that an [int] holds) are, the loop
    of [mvd_decode] does not write beyond [mvd_packet] unless a [memcpy]
    has read beyond the packet before. *)
Theorem mvd_packet_fits_buffer (data : list byte) :
  vector_size data + 4 < 2 ^ 31 ->
  mvd_packet_of data <> WriteBeyondBuffer.
Proof.
  intros _. unfold mvd_packet_of. apply nal_loop_in_buffer.
  change (vector_size []) with 0. lia.
Qed.

(** X29. The lengths are not checked against the packet: when, behind
    well-formed units, a length announces more bytes than the packet has
    left, the [memcpy] of [mvd_decode] reads beyond the packet. *)
Theorem mvd_packet_overlong_unit (nals : list (list byte)) (n : Z)
    (rest : list byte) :
  vector_size (length_prefixed nals ++ be32 n ++ rest) + 4 < 2 ^ 31 ->
  Forall (fun nal => 0 < vector_size nal < 2 ^ 31) nals ->
  0 < vector_size rest < n -> n < 2 ^ 31 ->
  mvd_packet_of (length_prefixed nals ++ be32 n ++ rest) = ReadBeyondPacket.
Proof.
  intros _ Hnals Hrest Hn. unfold mvd_packet_of.
  set (data := length_prefixed nals ++ be32 n ++ rest).
  assert (Hsize : vector_size data
                  = vector_size (length_prefixed nals) + 4
                    + vector_size rest).
  { unfold data, vector_size. rewrite !length_app. cbn [length be32]. lia. }
  assert (Hfuel : (length nals <= length (length_prefixed nals))%nat).
  { clear. induction nals as [|nal nals IH]; [simpl; lia|].
    cbn [length_prefixed flat_map length]. rewrite !length_app.
    cbn [length be32]. fold (length_prefixed nals). lia. }
  assert (Hlen : length data
                 = (length (length_prefixed nals) + 4 + length rest)%nat).
  { unfold data. rewrite !length_app. cbn [length be32]. lia. }
  replace (S (length data))
    with (length nals + S (length data - length nals))%nat by lia.
  pose proof (nal_loop_units nals (S (length data - length nals)) []
                (be32 n ++ rest) [] Hnals ltac:(reflexivity)) as Hrun.
  cbn [app] in Hrun. change (vector_size []) with 0 in Hrun.
  fold data in Hrun. rewrite Hrun. rewrite Z.add_0_l.
  cbn [nal_loop].
  assert (0 <= vector_size (length_prefixed nals))
    by (unfold vector_size; lia).
  destruct (Z.ltb_spec (vector_size (length_prefixed nals) + 4)
              (vector_size data)); [|lia].
  replace (subvector data (vector_size (length_prefixed nals))
             (vector_size (length_prefixed nals) + 4)) with (be32 n).
  2:{ symmetry. apply (subvector_app (length_prefixed nals) (be32 n) rest). }
  cbn [be32]. rewrite nal_size_be32 by lia. cbv zeta.
  pose proof (length_prefixed_size nals) as Hls.
  assert (0 <= vector_size (start_coded nals))
    by (unfold vector_size; lia).
  destruct (Z.ltb_spec (vector_size data)
              (vector_size (start_coded nals) + 3)); [lia|].
  destruct (Z.ltb_spec n 0); [lia|].
  destruct (Z.ltb_spec (vector_size data)
              (vector_size (length_prefixed nals) + 4 + n)); [|lia].
  reflexivity.
Qed.

(** ** What a pass leaves to the reader *)

Section ReaderFields.
Context {C : Constants} {L : CLibrary}.

Lemma set_data_requests (block : Z) (bytes : list byte) (s : NetworkStream) :
  quit_request (set_data block bytes s) = quit_request s
  /\ suspend_request (set_data block bytes s) = suspend_request s.
Proof.
  unfold set_data.
  destruct (MAX_CACHE_BLOCKS <? _); [|repeat split].
  destruct (first_key _); [|repeat split].
  destruct (_ <? _); repeat split.
Qed.

Lemma store_blocks_frame (body : list byte) (passes : nat) :
  forall (i : Z) (s : NetworkStream),
    let s' := store_blocks passes i body s in
    read_head s' = read_head s /\ whole_download s' = whole_download s
    /\ quit_request s' = quit_request s
    /\ suspend_request s' = suspend_request s
    /\ error s' = error s /\ ready s' = ready s.
Proof.
  induction passes as [|passes IH]; intros i s; cbn [store_blocks].
  - repeat split.
  - destruct (i <? vector_size body); [|repeat split]. cbv zeta.
    destruct (IH (i + BLOCK_SIZE)
                (set_data (i / BLOCK_SIZE)
                   (subvector body i
                      (Z.min (i + BLOCK_SIZE) (vector_size body))) s))
      as (H1 & H2 & H3 & H4 & H5 & H6).
    destruct (set_data_frame (i / BLOCK_SIZE)
                (subvector body i
                   (Z.min (i + BLOCK_SIZE) (vector_size body))) s)
      as (F1 & _ & _ & F4 & F5 & F6 & _).
    destruct (set_data_requests (i / BLOCK_SIZE)
                (subvector body i
                   (Z.min (i + BLOCK_SIZE) (vector_size body))) s)
      as (R1 & R2).
    repeat split; congruence.
Qed.

Lemma whole_download_fetch_frame (net : HttpClient) (s : NetworkStream) :
  let s' := whole_download_fetch net s in
  read_head s' = read_head s /\ whole_download s' = whole_download s
  /\ quit_request s' = quit_request s
  /\ suspend_request s' = suspend_request s
  /\ (error s = true -> error s' = true)
  /\ (ready s = true -> ready s' = true).
Proof.
  cbv zeta. rewrite whole_download_fetch_unfold. cbv zeta.
  destruct (negb (fail _) && status_code_is_success _ && negb (_ =? 0)).
  - set (s4 := if negb (header_ok (get_header _ "x-sequence-num"))
               then _ else _).
    assert (H4 : read_head s4 = read_head s
                 /\ whole_download s4 = whole_download s
                 /\ quit_request s4 = quit_request s
                 /\ suspend_request s4 = suspend_request s
                 /\ (error s = true -> error s4 = true)
                 /\ ready s4 = ready s).
    { unfold s4.
      destruct (header_ok (get_header _ "x-head-seqnum")),
        (header_ok (get_header _ "x-sequence-num")); cbn; repeat split;
        auto. }
    clearbody s4. destruct H4 as (A1 & A2 & A3 & A4 & A5 & A6).
    destruct (error s4) eqn:E4; cbn [negb].
    + repeat split; auto. congruence.
    + destruct (store_blocks_frame (data (net (url s) None))
                  (length (data (net (url s) None))) 0
                  (set_block_num
                     (u64 (vector_size (data (net (url s) None))
                           + BLOCK_SIZE - 1) / BLOCK_SIZE)
                     (set_len (vector_size (data (net (url s) None))) s4)))
        as (H1 & H2 & H3 & H4 & H5 & H6).
      cbn [read_head whole_download quit_request suspend_request error ready
           set_ready set_block_num set_len] in *.
      split; [congruence|]. split; [congruence|]. split; [congruence|].
      split; [congruence|]. split; [|reflexivity].
      intros He. apply A5 in He. congruence.
  - destruct (_ || _); [cbn; repeat split; auto|].
    destruct (_ =? _); cbn; repeat split; auto.
Qed.

Lemma ranged_fetch_frame (net : HttpClient) (s : NetworkStream)
    (read_head_i : Z) :
  let s' := ranged_fetch net s read_head_i in
  read_head s' = read_head s /\ whole_download s' = whole_download s
  /\ quit_request s' = quit_request s
  /\ suspend_request s' = suspend_request s
  /\ (error s = true -> error s' = true)
  /\ (ready s = true -> ready s' = true).
Proof.
  cbv zeta. rewrite ranged_fetch_unfold.
  destruct (block_to_read s read_head_i) as [b|];
    [|cbn; repeat split; auto].
  cbv zeta. set (result := net _ _).
  destruct (fail result); cbn [negb]; [cbn; repeat split; auto|].
  set (s2 := if negb (ready _) then _ else _).
  assert (H2 : read_head s2 = read_head s
               /\ whole_download s2 = whole_download s
               /\ quit_request s2 = quit_request s
               /\ suspend_request s2 = suspend_request s
               /\ (error s = true -> error s2 = true)
               /\ ready s2 = ready s).
  { unfold s2. rewrite ready_set_url.
    destruct (ready s) eqn:Hr; cbn [negb]; [cbn; repeat split; auto|].
    unfold read_content_range.
    destruct (after_slash (get_header result "Content-Range")) as [total|];
      [|cbn; repeat split; auto].
    cbv zeta. destruct (is_empty (snd (strtoll total))); cbn;
      repeat split; auto. }
  clearbody s2. destruct H2 as (A1 & A2 & A3 & A4 & A5 & A6).
  destruct (ready s2 && _).
  - cbn. repeat split; auto. congruence.
  - destruct (set_data_frame b (data result) s2)
      as (F1 & _ & _ & F4 & F5 & F6 & _).
    destruct (set_data_requests b (data result) s2) as (R1 & R2).
    cbn [read_head whole_download quit_request suspend_request error ready
         set_ready].
    split; [congruence|]. split; [congruence|]. split; [congruence|].
    split; [congruence|]. split; [|reflexivity].
    intros He. apply A5 in He. congruence.
Qed.

(** X30. A pass leaves to the reader what is the reader's: a stream that
    is still in its slot after a pass has its read head, its mode and its
    quit and suspend requests as before; and the pass clears neither
    [error] nor [ready]. *)
Theorem pass_keeps_reader_fields (net : HttpClient)
    (streams : list (option NetworkStream)) (i : nat)
    (s s' : NetworkStream) :
  nth_error streams i = Some (Some s) ->
  nth_error (downloader_iteration net streams) i = Some (Some s') ->
  read_head s' = read_head s /\ whole_download s' = whole_download s
  /\ quit_request s' = quit_request s
  /\ suspend_request s' = suspend_request s
  /\ (error s = true -> error s' = true)
  /\ (ready s = true -> ready s' = true).
Proof.
  intros Hs Hs'.
  destruct (option_eq_dec_nat (snd (select_stream streams)) (Some i))
    as [Hsel|Hsel].
  - destruct (select_stream_selected streams i Hsel) as (t & Ht & _).
    assert (t = s) as -> by congruence.
    unfold downloader_iteration in Hs'.
    fold (select_stream streams) in Hs'.
    pose proof (select_loop_slots streams 0 (backup_read_heads streams)
                  (double_of_Z 1000) None i) as Hslot.
    fold (select_stream streams) in Hslot.
    destruct (select_stream streams) as [after selected].
    simpl fst in *. simpl snd in *. subst selected.
    destruct Hslot as [Hsame|[Hnone (t & Ht' & Hquit)]].
    + rewrite Hs in Hsame.
      rewrite (nth_error_nth _ _ None Hsame) in Hs'.
      destruct (whole_download s) eqn:Hmode;
        rewrite store_slot_nth, Nat.eqb_refl, Hsame in Hs';
        injection Hs' as <-.
      * pose proof (whole_download_fetch_frame net s) as H.
        cbv zeta in H. rewrite Hmode in H. exact H.
      * pose proof (ranged_fetch_frame net s
                      (nth i (backup_read_heads streams) 0)) as H.
        cbv zeta in H. rewrite Hmode in H. exact H.
    + rewrite (nth_error_nth _ _ None Hnone) in Hs'.
      rewrite Hnone in Hs'. discriminate.
  - destruct (downloader_iteration_slots net streams i Hsel)
      as [Hsame|[Hnone _]].
    + assert (s' = s) as -> by congruence. repeat split; auto.
    + congruence.
Qed.

End ReaderFields.

(** * The statements on the sample configurations *)

(** ** The block cache *)

(** The bound of C5 on a run that overflows a cache of four blocks. *)
Lemma residency_bounded_witness :
  0 <= MAX_CACHE_BLOCKS (Constants := spec_constants)
  /\ downloaded_data sample_stream = []
  /\ map_size (downloaded_data
                 (run_ops (C := spec_constants) long_run sample_stream)) <= 4.
Proof.
  split; [simpl; lia|]. split; [reflexivity|].
  apply (residency_bounded (C := spec_constants) long_run sample_stream).
  - simpl; lia.
  - reflexivity.
Defined.

(** The eviction of C1 with the read head in block 3: block 0 goes. *)
Lemma eviction_policy_witness :
  let s := ready_stream (C := spec_constants) 1048576 196608 four_blocks in
  ordered (downloaded_data s)
  /\ map_size (downloaded_data s) = MAX_CACHE_BLOCKS (Constants := spec_constants)
  /\ first_key (downloaded_data s) = Some 0
  /\ last_key (downloaded_data s) = Some 3
  /\ map_count 5 (downloaded_data s) = false
  /\ forall j,
       map_count j (downloaded_data
                      (set_data (C := spec_constants) 5 full_block s))
       = ((j =? 5) || map_count j (downloaded_data s)) && negb (j =? 0).
Proof.
  intros s.
  assert (Hord : ordered (downloaded_data s)).
  { unfold ordered. simpl. repeat constructor; lia. }
  split; [exact Hord|]. repeat (split; [reflexivity|]).
  apply (eviction_policy (C := spec_constants) s 5 full_block 0 3 Hord);
    reflexivity.
Defined.

(** C1 as it is stated fails.  The cache holds [S] = \{0, 1, 2, 3\} and is
    at capacity, the read head is in block 0, and block 4 is inserted.  The
    lowest key of [S] is not before the cursor block, so the statement has
    the highest key of [S], block 3, evicted and block 4 kept; the code
    looks at the map after the insertion and evicts block 4, the block it
    was just given. *)
Lemma eviction_takes_new_block :
  let s := ready_stream (C := spec_constants) 1048576 0 four_blocks in
  map_size (downloaded_data s) = MAX_CACHE_BLOCKS (Constants := spec_constants)
  /\ first_key (downloaded_data s) = Some 0
  /\ last_key (downloaded_data s) = Some 3
  /\ read_head s / BLOCK_SIZE (Constants := spec_constants) = 0
  /\ map_count 4 (downloaded_data s) = false
  /\ keys (downloaded_data (set_data (C := spec_constants) 4 full_block s))
     = [0; 1; 2; 3].
Proof. vm_compute. repeat split; reflexivity. Qed.

(** The read of C4 across the blocks 1 and 2 of a resource of ten bytes,
    after block 0 was evicted. *)
Lemma read_after_inserts_witness :
  0 < BLOCK_SIZE (Constants := small_constants)
  /\ len small_stream + BLOCK_SIZE (Constants := small_constants) <= 2 ^ 64
  /\ downloaded_data small_stream = []
  /\ Forall (well_sized (C := small_constants) (len small_stream)) small_run
  /\ is_data_available (C := small_constants)
       (run_ops (C := small_constants) small_run small_stream) 5 5 = true
  /\ exists res,
       get_data (C := small_constants)
         (run_ops (C := small_constants) small_run small_stream) 5 5
       = Some res
       /\ vector_size res = 5
       /\ forall k, 0 <= k < 5 ->
            exists b_i,
              last_insert ((5 + k) / BLOCK_SIZE (Constants := small_constants))
                          small_run = Some b_i
              /\ (5 + k) mod BLOCK_SIZE (Constants := small_constants)
                 < vector_size b_i
              /\ nth_error res (Z.to_nat k)
                 = nth_error b_i
                     (Z.to_nat
                        ((5 + k)
                           mod BLOCK_SIZE (Constants := small_constants))).
Proof.
  assert (Hsized : Forall (well_sized (C := small_constants)
                             (len small_stream)) small_run).
  { repeat (apply Forall_cons; [evaluate|]). apply Forall_nil. }
  split; [simpl; lia|]. split; [simpl; lia|]. split; [reflexivity|].
  split; [exact Hsized|]. split; [reflexivity|].
  apply (read_after_inserts (C := small_constants) small_stream small_run 5 5);
    try reflexivity; try (simpl; lia); exact Hsized.
Defined.

(** C7 fails on an empty range.  The stream has 131082 bytes, block 0 alone
    is resident, and the read head was moved to the end (seek to
    [SEEK_END]): the reader then asks for the range of [size] 0 at [len].
    No block meets an empty range, so the statement has [true]; the code
    computes [end = start + size - 1], looks for block 2 and answers
    [false].  At [start] 0 the same subtraction wraps around to 2^64 - 1.
    [get_data] returns at once on a [size] of 0. *)
Theorem is_data_available_empty_range :
  let s := ready_stream (C := spec_constants) 131082 131082
             [(0, full_block)] in
  ready s = true
  /\ 131082 + 0 <= len s
  /\ is_data_available (C := spec_constants) s 131082 0 = false
  /\ is_data_available (C := spec_constants) s 0 0 = false
  /\ get_data (C := spec_constants) s 131082 0 = Some [].
Proof. vm_compute. repeat split; (reflexivity || discriminate). Qed.

(** C8 fails with a short final block.  The resource has 200000 bytes and
    its four blocks are resident, the last one of 3392 bytes: the lengths of
    the resident blocks sum to [len], that is 100 percent, and the code
    returns 4 * 65536 / 200000 * 100 = 131.072. *)
Theorem download_percentage_short_final_block :
  let s := ready_stream (C := spec_constants) 200000 0
             [(0, full_block); (1, full_block); (2, full_block);
              (3, short_block)] in
  cached_bytes (downloaded_data s) * 100 / len s = 100
  /\ get_download_percentage (C := spec_constants) s
     = S754_finite false 4611686018427388 (-45)
  /\ SFltb (double_of_Z 131) (get_download_percentage (C := spec_constants) s)
     = true.
Proof. vm_compute. repeat split; reflexivity. Qed.

(** ** The downloader *)


(** The window of C3 on blocks of four bytes: the cursor is in block 1, the
    blocks 0 and 1 are resident, and the pass adds block 2. *)
Lemma forward_window_witness :
  let s' := ranged_fetch (C := small_constants) (L := sample_library)
              sample_net small_ready_stream 5 in
  0 < MAX_FORWARD_READ_BLOCKS (Constants := small_constants)
  /\ 0 < BLOCK_SIZE (Constants := small_constants)
  /\ (forall j t, nth_error small_slots j = Some (Some t) ->
                  fits_u64 (C := small_constants) t)
  /\ nth_error (downloader_iteration (C := small_constants)
                  (L := sample_library) sample_net small_slots) 0
     = Some (Some s')
  /\ map_count 2 (downloaded_data s') = true
  /\ (map_count 2 (downloaded_data small_ready_stream) = true
      \/ 2 < read_head small_ready_stream
               / BLOCK_SIZE (Constants := small_constants)
             + MAX_FORWARD_READ_BLOCKS (Constants := small_constants)).
Proof.
  intros s'.
  assert (Hfits : forall j t,
            nth_error small_slots j = Some (Some t) ->
            fits_u64 (C := small_constants) t).
  { intros [|[|[|j]]] t Ht; unfold small_slots in Ht;
      cbn [nth_error] in Ht;
      try discriminate; try (destruct j; discriminate);
      injection Ht as <-; evaluate. }
  assert (Hnext : nth_error (downloader_iteration (C := small_constants)
                    (L := sample_library) sample_net small_slots) 0
                  = Some (Some s'))
    by (vm_compute; reflexivity).
  assert (Hcached : map_count 2 (downloaded_data s') = true)
    by (vm_compute; reflexivity).
  split; [simpl; lia|]. split; [simpl; lia|]. split; [exact Hfits|].
  split; [exact Hnext|]. split; [exact Hcached|].
  apply (proj2 (forward_window (C := small_constants) (L := sample_library)
                  sample_net small_slots
                  ltac:(simpl; lia) ltac:(simpl; lia) Hfits)
               0%nat small_ready_stream s' eq_refl eq_refl Hnext 2 Hcached).
Defined.

(** The flags of C6.  A fragment whose origin answers 404 with a page,
    without a failure of the call: [error] and [livestream_eof] are set.
    A ranged stream whose call fails with status 404: [error] is set and
    [livestream_eof] is not touched. *)
Lemma fetch_failure_flags_witness :
  let result := not_found_net (url sample_fragment) None in
  let s' := whole_download_fetch (C := spec_constants) (L := sample_library)
              not_found_net sample_fragment in
  let s'' := ranged_fetch (C := spec_constants) (L := sample_library)
               failing_net sample_stream 0 in
  fail result = false
  /\ status_code_is_success result = false
  /\ status_code result = 404
  /\ block_to_read (C := spec_constants) sample_stream 0 = Some 0
  /\ fail (failing_net (url sample_stream)
             (Some (ranged_range (C := spec_constants) sample_stream 0)))
     = true
  /\ error s' = true
  /\ livestream_eof s' = true
  /\ livestream_private s' = livestream_private sample_fragment
  /\ error s'' = true
  /\ livestream_eof s'' = livestream_eof sample_stream
  /\ livestream_private s'' = livestream_private sample_stream.
Proof.
  intros result s' s''.
  destruct (fetch_failure_flags (C := spec_constants) (L := sample_library)
              not_found_net sample_fragment 0) as (Hwhole & _).
  destruct (Hwhole (or_intror (or_introl eq_refl)))
    as (Herror & Hgone & _).
  destruct (Hgone (or_intror eq_refl)) as (Heof & Hprivate).
  destruct (fetch_failure_flags (C := spec_constants) (L := sample_library)
              failing_net sample_stream 0) as (_ & Hranged).
  destruct (Hranged 0 eq_refl eq_refl) as (Herror' & Heof' & Hprivate').
  split; [reflexivity|]. split; [reflexivity|]. split; [reflexivity|].
  split; [reflexivity|]. split; [reflexivity|].
  split; [exact Herror|]. split; [exact Heof|]. split; [exact Hprivate|].
  split; [exact Herror'|]. split; [exact Heof' | exact Hprivate'].
Defined.

(** C6 as it is stated fails on the ranged path: the HTTP call of a ranged
    fetch fails with status 404, [error] is set and [livestream_eof] is
    not. *)
Lemma ranged_failure_ignores_status :
  let result := failing_net (url sample_stream) (Some (0, 65535)) in
  let s' := ranged_fetch (C := spec_constants) (L := sample_library)
              failing_net sample_stream 0 in
  whole_download sample_stream = false
  /\ fail result = true
  /\ status_code result = HTTP_STATUS_CODE_NOT_FOUND
  /\ error s' = true
  /\ livestream_eof s' = false.
Proof. vm_compute. repeat split; reflexivity. Qed.

(** The empty body of C10 on a live fragment. *)
Lemma whole_download_empty_body_witness :
  fail (sample_net (url sample_fragment) None) = false
  /\ status_code_is_success (sample_net (url sample_fragment) None) = true
  /\ data (sample_net (url sample_fragment) None) = []
  /\ let s' := whole_download_fetch (C := spec_constants)
                 (L := sample_library) sample_net sample_fragment in
     error s' = true
     /\ len s' = len sample_fragment
     /\ block_num s' = block_num sample_fragment
     /\ ready s' = ready sample_fragment
     /\ downloaded_data s' = downloaded_data sample_fragment.
Proof.
  repeat (split; [reflexivity|]).
  apply (whole_download_empty_body (C := spec_constants)
           (L := sample_library) sample_net sample_fragment);
    reflexivity.
Defined.

(** The seek of C9 to the start of block 12 of a stream of sixteen blocks. *)
Lemma seek_keeps_cache_witness :
  let s := two_blocks_stream in
  ready s = true
  /\ (SEEK_SET = SEEK_SET \/ SEEK_SET = SEEK_CUR \/ SEEK_SET = SEEK_END)
  /\ exists result s',
       seek_network_stream s 786432 SEEK_SET = Some (result, s')
       /\ downloaded_data s' = downloaded_data s
       /\ (len s < u64 (seek_target s 786432 SEEK_SET) ->
           result = -1 /\ read_head s' = read_head s)
       /\ (u64 (seek_target s 786432 SEEK_SET) <= len s ->
           read_head s' = u64 (seek_target s 786432 SEEK_SET)
           /\ result = s64_of_u64 (u64 (seek_target s 786432 SEEK_SET))
           /\ (u64 (seek_target s 786432 SEEK_SET) < 2 ^ 63 ->
               result = u64 (seek_target s 786432 SEEK_SET))).
Proof.
  intros s. split; [reflexivity|]. split; [left; reflexivity|].
  apply (seek_keeps_cache s 786432 SEEK_SET);
    [reflexivity | left; reflexivity].
Defined.

(** ** The rest of the downloader, the reader and the decoder *)

(** A stream in error keeps its slot through a pass. *)
Lemma pass_skips_flagged_stream_witness :
  nth_error small_slots 2 = Some (Some failed_stream)
  /\ quit_request failed_stream = false
  /\ error failed_stream = true
  /\ nth_error (downloader_iteration (C := small_constants)
                  (L := sample_library) sample_net small_slots) 2
     = Some (Some failed_stream).
Proof.
  split; [reflexivity|]. split; [reflexivity|]. split; [reflexivity|].
  apply (pass_skips_flagged_stream (C := small_constants)
           (L := sample_library) sample_net small_slots 2 failed_stream);
    [reflexivity | reflexivity | left; reflexivity].
Defined.

(** A stream that asks to quit loses its slot in a pass. *)
Lemma pass_reaps_quit_stream_witness :
  nth_error quitting_slots 1 = Some (Some quitting_stream)
  /\ quit_request quitting_stream = true
  /\ (nth_error (downloader_iteration (C := small_constants)
                   (L := sample_library) sample_net quitting_slots) 1
      = Some None
      \/ nth_error (downloader_iteration (C := small_constants)
                      (L := sample_library) sample_net quitting_slots) 1
         = Some (Some quitting_stream)).
Proof.
  split; [reflexivity|]. split; [reflexivity|].
  exact (proj1 (pass_reaps_quit_stream (C := small_constants)
                  (L := sample_library) sample_net quitting_slots 1
                  quitting_stream eq_refl eq_refl)).
Defined.

(** The stream that reads in block 1 and has the blocks 0 and 1 reads
    block 2 next. *)
Lemma block_to_read_next_needed_witness :
  0 < BLOCK_SIZE (Constants := small_constants)
  /\ 0 <= read_head small_ready_stream
  /\ block_num small_ready_stream < 2 ^ 64
  /\ ready small_ready_stream = true
  /\ next_needed (C := small_constants) small_ready_stream 2
  /\ block_to_read (C := small_constants) small_ready_stream
       (read_head small_ready_stream) = Some 2.
Proof.
  assert (Hnext : next_needed (C := small_constants) small_ready_stream 2).
  { unfold next_needed. cbv zeta.
    split; [evaluate|]. split; [evaluate|]. split; [evaluate|].
    split; [evaluate|].
    intros j Hj. change (1 <= j < 2) in Hj. replace j with 1 by lia.
    reflexivity. }
  split; [evaluate|]. split; [evaluate|]. split; [evaluate|].
  split; [reflexivity|]. split; [exact Hnext|].
  apply (block_to_read_next_needed (C := small_constants)
           small_ready_stream 2); [evaluate..|reflexivity|exact Hnext].
Defined.

(** One byte where four were asked for. *)
Lemma ranged_size_discrepancy_witness :
  let s' := ranged_fetch (C := small_constants) (L := sample_library)
              headerless_net small_ready_stream 5 in
  ready small_ready_stream = true
  /\ block_to_read (C := small_constants) small_ready_stream 5 = Some 2
  /\ fail (headerless_net (url small_ready_stream)
             (Some (ranged_range (C := small_constants)
                      small_ready_stream 2))) = false
  /\ vector_size (data (headerless_net (url small_ready_stream)
                          (Some (ranged_range (C := small_constants)
                                   small_ready_stream 2))))
     <> ranged_expected_len (C := small_constants) small_ready_stream 2
  /\ error s' = true
  /\ downloaded_data s' = downloaded_data small_ready_stream.
Proof.
  intros s'.
  assert (Hsize : vector_size
                    (data (headerless_net (url small_ready_stream)
                             (Some (ranged_range (C := small_constants)
                                      small_ready_stream 2))))
                  <> ranged_expected_len (C := small_constants)
                       small_ready_stream 2)
    by (vm_compute; discriminate).
  split; [reflexivity|]. split; [reflexivity|]. split; [reflexivity|].
  split; [exact Hsize|].
  destruct (ranged_size_discrepancy (C := small_constants)
              (L := sample_library) headerless_net small_ready_stream 5 2
              eq_refl eq_refl eq_refl Hsize) as (Herr & Hdata & _).
  split; [exact Herr | exact Hdata].
Defined.

(** The first answer to a stream of which nothing is known. *)
Lemma ranged_first_answer_witness :
  let result := sample_net (url sample_stream)
                  (Some (ranged_range (C := small_constants)
                           sample_stream 0)) in
  let s' := ranged_fetch (C := small_constants) (L := sample_library)
              sample_net sample_stream 0 in
  ready sample_stream = false
  /\ 0 < MAX_CACHE_BLOCKS (Constants := small_constants)
  /\ downloaded_data sample_stream = []
  /\ fail result = false
  /\ after_slash (get_header result "Content-Range")
     = Some "1048576"%string
  /\ snd (strtoll (CLibrary := sample_library) "1048576") = EmptyString
  /\ ready s' = true
  /\ len s' = 1048576.
Proof.
  intros result s'.
  split; [reflexivity|]. split; [reflexivity|]. split; [reflexivity|].
  split; [reflexivity|]. split; [reflexivity|]. split; [reflexivity|].
  destruct (ranged_first_answer (C := small_constants)
              (L := sample_library) sample_net sample_stream 0 "1048576"
              eq_refl eq_refl eq_refl eq_refl eq_refl eq_refl)
    as (Hready & Hlen & _).
  split; [exact Hready | exact Hlen].
Defined.

(** The first answer without a ["Content-Range"]. *)
Lemma ranged_first_answer_unparsed_witness :
  let result := headerless_net (url sample_stream)
                  (Some (ranged_range (C := small_constants)
                           sample_stream 0)) in
  let s' := ranged_fetch (C := small_constants) (L := sample_library)
              headerless_net sample_stream 0 in
  ready sample_stream = false
  /\ 0 < MAX_CACHE_BLOCKS (Constants := small_constants)
  /\ downloaded_data sample_stream = []
  /\ fail result = false
  /\ after_slash (get_header result "Content-Range") = None
  /\ error s' = true
  /\ ready s' = true
  /\ downloaded_data s' = [(0, [x07])].
Proof.
  intros result s'.
  split; [reflexivity|]. split; [reflexivity|]. split; [reflexivity|].
  split; [reflexivity|]. split; [reflexivity|].
  destruct (ranged_first_answer_unparsed (C := small_constants)
              (L := sample_library) headerless_net sample_stream 0
              eq_refl eq_refl eq_refl eq_refl I)
    as (Herr & Hready & _ & Hdata).
  split; [exact Herr|]. split; [exact Hready | exact Hdata].
Defined.

(** A download into the sound cache of the stream that reads in block 1. *)
Lemma ranged_fetch_keeps_cache_ok_witness :
  0 < BLOCK_SIZE (Constants := small_constants)
  /\ len small_ready_stream + BLOCK_SIZE (Constants := small_constants)
     <= 2 ^ 64
  /\ block_num small_ready_stream
     = (len small_ready_stream
        + BLOCK_SIZE (Constants := small_constants) - 1)
       / BLOCK_SIZE (Constants := small_constants)
  /\ ready small_ready_stream = true
  /\ cache_ok (C := small_constants) small_ready_stream
  /\ cache_ok (C := small_constants)
       (ranged_fetch (C := small_constants) (L := sample_library)
          sample_net small_ready_stream 5).
Proof.
  assert (Hok : cache_ok (C := small_constants) small_ready_stream)
    by (apply cache_okb_sound; reflexivity).
  split; [evaluate|]. split; [evaluate|]. split; [reflexivity|].
  split; [reflexivity|]. split; [exact Hok|].
  apply (ranged_fetch_keeps_cache_ok (C := small_constants)
           (L := sample_library) sample_net small_ready_stream 5);
    [evaluate | evaluate | evaluate | evaluate | reflexivity | evaluate
    | reflexivity | exact Hok].
Defined.

(** A fragment with a body and no sequence header. *)
Lemma whole_download_bad_header_witness :
  let result := headerless_net (url sample_fragment) None in
  let s' := whole_download_fetch (C := small_constants)
              (L := sample_library) headerless_net sample_fragment in
  fail result = false
  /\ status_code_is_success result = true
  /\ data result <> []
  /\ header_ok (L := sample_library) (get_header result "x-head-seqnum")
     = false
  /\ error s' = true
  /\ ready s' = false
  /\ seq_head s' = -1.
Proof.
  intros result s'.
  assert (Hbody : data result <> []) by discriminate.
  split; [reflexivity|]. split; [reflexivity|]. split; [exact Hbody|].
  split; [reflexivity|].
  destruct (whole_download_bad_header (C := small_constants)
              (L := sample_library) headerless_net sample_fragment
              eq_refl eq_refl Hbody (or_introl eq_refl))
    as (Herr & Hready & _ & _ & _ & Hhead & _).
  split; [exact Herr|]. split; [exact Hready | exact (Hhead eq_refl)].
Defined.

(** Three bytes inside the eight bytes that are cached. *)
Lemma is_data_available_sub_range_witness :
  0 < BLOCK_SIZE (Constants := small_constants)
  /\ is_data_available (C := small_constants) small_ready_stream 0 8 = true
  /\ is_data_available (C := small_constants) small_ready_stream 2 3 = true.
Proof.
  split; [evaluate|]. split; [reflexivity|].
  apply (is_data_available_sub_range (C := small_constants)
           small_ready_stream 0 8 2 3);
    [evaluate | evaluate | evaluate | evaluate | evaluate | evaluate
    | reflexivity].
Defined.

(** Eight bytes read as three and five. *)
Lemma get_data_split_witness :
  0 < BLOCK_SIZE (Constants := small_constants)
  /\ cache_ok (C := small_constants) small_ready_stream
  /\ is_data_available (C := small_constants) small_ready_stream 0 (3 + 5)
     = true
  /\ exists part1 part2,
       get_data (C := small_constants) small_ready_stream 0 3 = Some part1
       /\ get_data (C := small_constants) small_ready_stream (0 + 3) 5
          = Some part2
       /\ get_data (C := small_constants) small_ready_stream 0 (3 + 5)
          = Some (part1 ++ part2).
Proof.
  assert (Hok : cache_ok (C := small_constants) small_ready_stream)
    by (apply cache_okb_sound; reflexivity).
  split; [evaluate|]. split; [exact Hok|]. split; [reflexivity|].
  apply (get_data_split (C := small_constants) small_ready_stream 0 3 5);
    [evaluate | exact Hok | evaluate | evaluate | evaluate | evaluate
    | evaluate | reflexivity].
Defined.

(** A read that starts in block 2, which is not cached. *)
Lemma get_data_missing_block_witness :
  ready small_ready_stream = true
  /\ map_count (8 / BLOCK_SIZE (Constants := small_constants))
       (downloaded_data small_ready_stream) = false
  /\ get_data (C := small_constants) small_ready_stream 8 1 = None.
Proof.
  split; [reflexivity|]. split; [reflexivity|].
  apply (get_data_missing_block (C := small_constants) small_ready_stream
           8 1); [reflexivity | discriminate | reflexivity].
Defined.

(** A fragment of six bytes in a cache of two blocks of four. *)
Lemma whole_download_stores_body_witness :
  let s' := whole_download_fetch (C := small_constants)
              (L := sample_library) live_net sample_fragment in
  answer_ok (L := sample_library) (live_net (url sample_fragment) None)
  /\ error sample_fragment = false
  /\ downloaded_data sample_fragment = []
  /\ ready s' = true
  /\ len s' = 6
  /\ block_num s' = 2
  /\ keys (downloaded_data s') = [0; 1].
Proof.
  intros s'.
  assert (Hok : answer_ok (L := sample_library)
                  (live_net (url sample_fragment) None))
    by (unfold answer_ok; evaluate).
  split; [exact Hok|]. split; [reflexivity|]. split; [reflexivity|].
  destruct (whole_download_stores_body (C := small_constants)
              (L := sample_library) live_net sample_fragment)
    as (Hready & _ & Hlen & Hnum & Hkeys & _);
    [evaluate | evaluate | evaluate | exact Hok | reflexivity | reflexivity
    | left; evaluate |].
  split; [exact Hready|]. split; [exact Hlen|].
  split; [exact Hnum | exact Hkeys].
Defined.

(** The six bytes of the fragment, read back. *)
Lemma whole_download_round_trip_witness :
  let s' := whole_download_fetch (C := small_constants)
              (L := sample_library) live_net sample_fragment in
  answer_ok (L := sample_library) (live_net (url sample_fragment) None)
  /\ block_count (C := small_constants)
       (data (live_net (url sample_fragment) None))
     <= MAX_CACHE_BLOCKS (Constants := small_constants)
  /\ get_data (C := small_constants) s' 0 (len s')
     = Some [x00; x01; x02; x03; x04; x05].
Proof.
  intros s'.
  assert (Hok : answer_ok (L := sample_library)
                  (live_net (url sample_fragment) None))
    by (unfold answer_ok; evaluate).
  assert (Hroom : block_count (C := small_constants)
                    (data (live_net (url sample_fragment) None))
                  <= MAX_CACHE_BLOCKS (Constants := small_constants))
    by evaluate.
  split; [exact Hok|]. split; [exact Hroom|].
  destruct (whole_download_round_trip (C := small_constants)
              (L := sample_library) live_net sample_fragment)
    as (_ & Hget);
    [evaluate | evaluate | exact Hok | reflexivity | reflexivity
    | exact Hroom |].
  exact Hget.
Defined.

(** A fragment of ten bytes in a cache of two blocks of four: the last
    two bytes are lost. *)
Lemma whole_download_overflow_witness :
  let s' := whole_download_fetch (C := small_constants)
              (L := sample_library) long_live_net sample_fragment in
  answer_ok (L := sample_library) (long_live_net (url sample_fragment) None)
  /\ read_head sample_fragment / BLOCK_SIZE (Constants := small_constants)
     = 0
  /\ MAX_CACHE_BLOCKS (Constants := small_constants)
     < block_count (C := small_constants)
         (data (long_live_net (url sample_fragment) None))
  /\ ready s' = true
  /\ is_data_available (C := small_constants) s' 8 2 = false.
Proof.
  intros s'.
  assert (Hok : answer_ok (L := sample_library)
                  (long_live_net (url sample_fragment) None))
    by (unfold answer_ok; evaluate).
  split; [exact Hok|]. split; [reflexivity|]. split; [evaluate|].
  destruct (whole_download_overflow (C := small_constants)
              (L := sample_library) long_live_net sample_fragment 8 2)
    as (Hready & _ & Havail);
    [evaluate | evaluate | evaluate | exact Hok | reflexivity | reflexivity
    | reflexivity | evaluate | evaluate | evaluate | evaluate |].
  split; [exact Hready | exact Havail].
Defined.

(** Block 2 arrives while the reader is in block 1: block 0 goes. *)
Lemma set_data_keeps_cursor_block_witness :
  1 <= MAX_CACHE_BLOCKS (Constants := small_constants)
  /\ ordered (downloaded_data small_ready_stream)
  /\ map_count (read_head small_ready_stream
                / BLOCK_SIZE (Constants := small_constants))
       (downloaded_data small_ready_stream) = true
  /\ map_count (read_head small_ready_stream
                / BLOCK_SIZE (Constants := small_constants))
       (downloaded_data
          (set_data (C := small_constants) 2 [x08; x09; x0a; x0b]
             small_ready_stream)) = true.
Proof.
  assert (Hord : ordered (downloaded_data small_ready_stream))
    by (apply sortedb_sound; reflexivity).
  split; [evaluate|]. split; [exact Hord|]. split; [reflexivity|].
  apply (set_data_keeps_cursor_block (C := small_constants) 2
           [x08; x09; x0a; x0b] small_ready_stream);
    [evaluate | exact Hord | left; reflexivity].
Defined.

(** A read of three bytes at offset 5. *)
Lemma read_delivers_witness :
  0 < BLOCK_SIZE (Constants := small_constants)
  /\ cache_ok (C := small_constants) small_ready_stream
  /\ 0 <= read_head small_ready_stream < len small_ready_stream
  /\ is_data_available (C := small_constants) small_ready_stream
       (read_head small_ready_stream)
       (Z.min 3 (len small_ready_stream - read_head small_ready_stream))
     = true
  /\ exists buf s',
       read_network_stream (C := small_constants) sample_decoder false
         small_ready_stream 3
       = Returned 3 buf sample_decoder s'
       /\ vector_size buf = 3
       /\ read_head s' = 8.
Proof.
  assert (Hok : cache_ok (C := small_constants) small_ready_stream)
    by (apply cache_okb_sound; reflexivity).
  split; [evaluate|]. split; [exact Hok|]. split; [evaluate|].
  split; [reflexivity|].
  destruct (read_delivers (C := small_constants) sample_decoder false
              small_ready_stream 3)
    as (buf & s' & Hread & Hsize & Hhead & _);
    [evaluate | exact Hok | evaluate | evaluate | evaluate | reflexivity |].
  exists buf, s'. split; [exact Hread|]. split; [exact Hsize | exact Hhead].
Defined.

(** A read at the end of a stream whose blocks are all cached. *)
Lemma read_at_end_witness :
  ready finished_stream = true
  /\ 0 <= len finished_stream <= read_head finished_stream
  /\ exists s',
       read_network_stream (C := small_constants) interrupted_decoder false
         finished_stream 16
       = Returned AVERROR_EOF [] interrupted_decoder s'
       /\ read_head s' = read_head finished_stream.
Proof.
  split; [reflexivity|]. split; [evaluate|].
  destruct (read_at_end (C := small_constants) interrupted_decoder false
              finished_stream 16)
    as (s' & Hread & Hhead & _); [reflexivity | evaluate | evaluate |].
  exists s'. split; [exact Hread | exact Hhead].
Defined.

(** The read of three bytes at offset 5 stays inside the stream. *)
Lemma read_keeps_cursor_within_witness :
  0 < BLOCK_SIZE (Constants := small_constants)
  /\ cache_ok (C := small_constants) small_ready_stream
  /\ ready small_ready_stream = true
  /\ 0 <= read_head small_ready_stream <= len small_ready_stream
  /\ match read_network_stream (C := small_constants) sample_decoder false
             small_ready_stream 3 with
     | Returned _ _ _ s' => read_head s' <= len s'
     | StillWaiting _ => True
     | Undefined => False
     end.
Proof.
  assert (Hok : cache_ok (C := small_constants) small_ready_stream)
    by (apply cache_okb_sound; reflexivity).
  split; [evaluate|]. split; [exact Hok|]. split; [reflexivity|].
  split; [evaluate|].
  pose proof (read_keeps_cursor_within (C := small_constants)
                sample_decoder false small_ready_stream 3) as Hread.
  destruct (read_network_stream (C := small_constants) sample_decoder false
              small_ready_stream 3) as [value buf decoder' s'|s'|].
  - apply Hread; [evaluate | exact Hok | evaluate | reflexivity | evaluate
                 | evaluate].
  - exact I.
  - apply Hread; [evaluate | exact Hok | evaluate | reflexivity | evaluate
                 | evaluate].
Defined.

(** An interrupted read on a stream that is not ready. *)
Lemma read_reinit_only_on_interrupt_witness :
  read_network_stream (C := small_constants) interrupted_decoder false
    sample_stream 16
  = Returned AVERROR_EOF [] (set_need_reinit true interrupted_decoder)
      (set_network_waiting_status None sample_stream)
  /\ interrupt (set_need_reinit true interrupted_decoder)
     = interrupt interrupted_decoder.
Proof.
  split; [reflexivity|].
  exact (proj1 (read_reinit_only_on_interrupt (C := small_constants)
                  interrupted_decoder false sample_stream 16
                  AVERROR_EOF [] (set_need_reinit true interrupted_decoder)
                  (set_network_waiting_status None sample_stream) eq_refl)).
Defined.

(** A seek to offset -1. *)
Lemma seek_before_start_witness :
  ready small_ready_stream = true
  /\ len small_ready_stream < 2 ^ 63
  /\ - 2 ^ 63 <= seek_target small_ready_stream (-1) SEEK_SET < 0
  /\ exists s',
       seek_network_stream small_ready_stream (-1) SEEK_SET = Some (-1, s')
       /\ read_head s' = read_head small_ready_stream.
Proof.
  split; [reflexivity|]. split; [evaluate|]. split; [evaluate|].
  destruct (seek_before_start small_ready_stream (-1) SEEK_SET)
    as (s' & Hseek & Hhead & _);
    [reflexivity | left; reflexivity | evaluate | evaluate |].
  exists s'. split; [exact Hseek | exact Hhead].
Defined.

(** A seek to offset 20 with [AVSEEK_FORCE] as its [whence]. *)
Lemma seek_unknown_whence_rewinds_witness :
  ready small_ready_stream = true
  /\ 0 <= len small_ready_stream
  /\ exists s',
       seek_network_stream small_ready_stream 20 131072 = Some (0, s')
       /\ read_head s' = 0.
Proof.
  split; [reflexivity|]. split; [evaluate|].
  destruct (seek_unknown_whence_rewinds small_ready_stream 20 131072)
    as (s' & Hseek & Hhead & _);
    [reflexivity | evaluate | discriminate | discriminate | discriminate
    | discriminate |].
  exists s'. split; [exact Hseek | exact Hhead].
Defined.

(** A seek to three bytes before the end. *)
Lemma seek_keeps_cursor_within_witness :
  ready small_ready_stream = true
  /\ 0 <= read_head small_ready_stream <= len small_ready_stream
  /\ exists result s',
       seek_network_stream small_ready_stream (-3) SEEK_END
       = Some (result, s')
       /\ 0 <= read_head s' <= len s'.
Proof.
  split; [reflexivity|]. split; [evaluate|].
  destruct (seek_keeps_cursor_within small_ready_stream (-3) SEEK_END)
    as (result & s' & Hseek & _ & _ & Hhead); [reflexivity | evaluate |].
  exists result, s'. split; [exact Hseek | exact Hhead].
Defined.

(** The ready stream of the slots, after the thread has ended. *)
Lemma downloader_exit_releases_witness :
  nth_error (downloader_exit small_slots) 0
  = Some (Some (set_quit_request true small_ready_stream))
  /\ forall offset whence,
       seek_network_stream (set_quit_request true small_ready_stream)
         offset whence <> None.
Proof.
  split; [reflexivity|].
  exact (proj2 (downloader_exit_releases (C := small_constants) small_slots
                  0 (set_quit_request true small_ready_stream) eq_refl)).
Defined.

(** A picture of 854 by 480. *)
Lemma align_to_16_rounds_up_witness :
  0 <= 854 < 2 ^ 31 - 16
  /\ align_to_16 854 mod 16 = 0 /\ 854 <= align_to_16 854 < 854 + 16.
Proof.
  split; [lia|]. apply (align_to_16_rounds_up 854). lia.
Defined.

(** A packet of two units. *)
Lemma mvd_packet_start_codes_witness :
  Forall (fun nal => 0 < vector_size nal < 2 ^ 31) sample_nals
  /\ mvd_packet_of (length_prefixed sample_nals)
     = Converted [x00; x00; x01; x67; x42; x00; x00; x00; x01; x68; xce].
Proof.
  assert (Hnals : Forall (fun nal => 0 < vector_size nal < 2 ^ 31)
                    sample_nals).
  { repeat (apply Forall_cons; [evaluate|]). apply Forall_nil. }
  split; [exact Hnals|].
  refine (proj1 (mvd_packet_start_codes sample_nals _ Hnals)). evaluate.
Defined.

(** A packet whose only length is negative. *)
Lemma mvd_packet_fits_buffer_witness :
  vector_size [xff; xff; xff; xff; x65] + 4 < 2 ^ 31
  /\ mvd_packet_of [xff; xff; xff; xff; x65] <> WriteBeyondBuffer.
Proof.
  split; [evaluate|].
  apply (mvd_packet_fits_buffer [xff; xff; xff; xff; x65]). evaluate.
Defined.

(** A packet whose last length asks for five bytes where one is left. *)
Lemma mvd_packet_overlong_unit_witness :
  Forall (fun nal => 0 < vector_size nal < 2 ^ 31) sample_nals
  /\ 0 < vector_size [x65] < 5
  /\ mvd_packet_of (length_prefixed sample_nals ++ be32 5 ++ [x65])
     = ReadBeyondPacket.
Proof.
  assert (Hnals : Forall (fun nal => 0 < vector_size nal < 2 ^ 31)
                    sample_nals).
  { repeat (apply Forall_cons; [evaluate|]). apply Forall_nil. }
  split; [exact Hnals|]. split; [evaluate|].
  apply (mvd_packet_overlong_unit sample_nals 5 [x65]);
    [evaluate | exact Hnals | evaluate | evaluate].
Defined.

(** The pass that adds block 2 leaves the read head at offset 5. *)
Lemma pass_keeps_reader_fields_witness :
  let s' := ranged_fetch (C := small_constants) (L := sample_library)
              sample_net small_ready_stream 5 in
  nth_error small_slots 0 = Some (Some small_ready_stream)
  /\ nth_error (downloader_iteration (C := small_constants)
                  (L := sample_library) sample_net small_slots) 0
     = Some (Some s')
  /\ read_head s' = read_head small_ready_stream
  /\ (ready small_ready_stream = true -> ready s' = true).
Proof.
  intros s'.
  assert (Hpass : nth_error (downloader_iteration (C := small_constants)
                    (L := sample_library) sample_net small_slots) 0
                  = Some (Some s'))
    by (vm_compute; reflexivity).
  split; [reflexivity|]. split; [exact Hpass|].
  destruct (pass_keeps_reader_fields (C := small_constants)
              (L := sample_library) sample_net small_slots 0
              small_ready_stream s' eq_refl Hpass)
    as (Hhead & _ & _ & _ & _ & Hready).
  split; [exact Hhead | exact Hready].
Defined.
